(** * A shallow embedding of [examples/tablet.c]

    The program emulates a Wacom pen tablet on top of the USB Raw Gadget
    interface.  This development embeds the descriptor catalog, the endpoint
    negotiator, the control dispatcher, the event loop and the motion state
    machine of the report generator, and proves the properties stated for
    them.

    Conventions.  Machine integers are [Z] with their wrap-around written
    out ([u8], [u16], [u32], [wrap_int], [size_t]).  Memory buffers are lists
    of bytes, a byte being a [Z] in [0, 255].  A failed [assert] is the
    result [Abort], a call of [exit(EXIT_FAILURE)] is the result [Exit].
    Calls into the kernel ([ioctl]) and into the thread library are recorded
    in the state, in order; what they answer is supplied by an
    [environment].
    Diagnostic output ([printf], [log_event], [print_report]) is left out. *)

From Stdlib Require Import ZArith List Lia Bool String Ascii.
Import ListNotations.
Open Scope Z_scope.

(** ** Machine integers *)

Definition u8 (z : Z) : Z := z mod 256.
Definition u16 (z : Z) : Z := z mod 65536.
Definition u32 (z : Z) : Z := z mod 4294967296.
Definition size_t (z : Z) : Z := z mod 18446744073709551616.
Definition wrap_int (z : Z) : Z := (z + 2147483648) mod 4294967296 - 2147483648.

(** [char] is signed on the targets of the example: the conversion of a
    stored byte to [__u32] sign-extends. *)
Definition char_to_u32 (b : Z) : Z := u32 (if 128 <=? b then b - 256 else b).

Definition le16 (v : Z) : list Z := [Z.land v 255; Z.land (Z.shiftr v 8) 255].

Definition read_le16 (data : list Z) (off : nat) : Z :=
  nth off data 0 + 256 * nth (S off) data 0.

(** [memcpy(dst + off, src, n)] on a buffer held as a list. *)
Definition memcpy (dst : list Z) (off : nat) (src : list Z) (n : nat) : list Z :=
  firstn off dst ++ firstn n src ++ skipn (off + n) dst.

(** ** Results of fallible code *)

Inductive result (A : Type) : Type :=
| Ret (a : A)
| Exit
| Abort.
Arguments Ret {A} a.
Arguments Exit {A}.
Arguments Abort {A}.

Definition bind {A B : Type} (m : result A) (k : A -> result B) : result B :=
  match m with
  | Ret a => k a
  | Exit => Exit
  | Abort => Abort
  end.

Definition assert (b : bool) : result unit := if b then Ret tt else Abort.

Declare Scope result_scope.
Delimit Scope result_scope with result.
Notation "x <- m ;; k" := (bind m (fun x => k))
  (at level 61, m at next level, right associativity) : result_scope.
Notation "m ;;; k" := (bind m (fun _ => k))
  (at level 61, right associativity) : result_scope.
Open Scope result_scope.

(** ** Constants of <linux/usb/ch9.h> and <linux/hid.h> *)

Module Ch9.
Definition USB_DIR_OUT : Z := 0.
Definition USB_DIR_IN : Z := 0x80.

Definition USB_TYPE_MASK : Z := 0x60.
Definition USB_TYPE_STANDARD : Z := 0x00.
Definition USB_TYPE_CLASS : Z := 0x20.
Definition USB_TYPE_VENDOR : Z := 0x40.
Definition USB_TYPE_RESERVED : Z := 0x60.

Definition USB_REQ_GET_STATUS : Z := 0x00.
Definition USB_REQ_GET_DESCRIPTOR : Z := 0x06.
Definition USB_REQ_SET_CONFIGURATION : Z := 0x09.
Definition USB_REQ_GET_INTERFACE : Z := 0x0A.

Definition USB_DT_DEVICE : Z := 0x01.
Definition USB_DT_CONFIG : Z := 0x02.
Definition USB_DT_STRING : Z := 0x03.
Definition USB_DT_INTERFACE : Z := 0x04.
Definition USB_DT_ENDPOINT : Z := 0x05.
Definition USB_DT_DEVICE_QUALIFIER : Z := 0x06.

Definition USB_DT_DEVICE_SIZE : Z := 18.
Definition USB_DT_CONFIG_SIZE : Z := 9.
Definition USB_DT_INTERFACE_SIZE : Z := 9.
Definition USB_DT_ENDPOINT_SIZE : Z := 7.

Definition USB_CLASS_HID : Z := 3.
Definition USB_CONFIG_ATT_ONE : Z := 0x80.
Definition USB_CONFIG_ATT_SELFPOWER : Z := 0x40.

Definition USB_ENDPOINT_NUMBER_MASK : Z := 0x0f.
Definition USB_ENDPOINT_DIR_MASK : Z := 0x80.
Definition USB_ENDPOINT_XFERTYPE_MASK : Z := 0x03.
Definition USB_ENDPOINT_XFER_CONTROL : Z := 0.
Definition USB_ENDPOINT_XFER_ISOC : Z := 1.
Definition USB_ENDPOINT_XFER_BULK : Z := 2.
Definition USB_ENDPOINT_XFER_INT : Z := 3.

Definition HID_DT_HID : Z := 0x21.
Definition HID_DT_REPORT : Z := 0x22.

Definition HID_REQ_GET_REPORT : Z := 0x01.
Definition HID_REQ_SET_REPORT : Z := 0x09.
Definition HID_REQ_SET_IDLE : Z := 0x0A.
Definition HID_REQ_SET_PROTOCOL : Z := 0x0B.
End Ch9.
Import Ch9.

(** ** Descriptor types *)

Record usb_device_descriptor := {
  dev_bLength : Z;
  dev_bDescriptorType : Z;
  dev_bcdUSB : Z;
  dev_bDeviceClass : Z;
  dev_bDeviceSubClass : Z;
  dev_bDeviceProtocol : Z;
  dev_bMaxPacketSize0 : Z;
  dev_idVendor : Z;
  dev_idProduct : Z;
  dev_bcdDevice : Z;
  dev_iManufacturer : Z;
  dev_iProduct : Z;
  dev_iSerialNumber : Z;
  dev_bNumConfigurations : Z
}.

Record usb_qualifier_descriptor := {
  qual_bLength : Z;
  qual_bDescriptorType : Z;
  qual_bcdUSB : Z;
  qual_bDeviceClass : Z;
  qual_bDeviceSubClass : Z;
  qual_bDeviceProtocol : Z;
  qual_bMaxPacketSize0 : Z;
  qual_bNumConfigurations : Z;
  qual_bRESERVED : Z
}.

Record usb_config_descriptor := {
  cfg_bLength : Z;
  cfg_bDescriptorType : Z;
  wTotalLength : Z;
  bNumInterfaces : Z;
  bConfigurationValue : Z;
  iConfiguration : Z;
  cfg_bmAttributes : Z;
  bMaxPower : Z
}.

Record usb_interface_descriptor := {
  if_bLength : Z;
  if_bDescriptorType : Z;
  bInterfaceNumber : Z;
  bAlternateSetting : Z;
  bNumEndpoints : Z;
  bInterfaceClass : Z;
  bInterfaceSubClass : Z;
  bInterfaceProtocol : Z;
  iInterface : Z
}.

(** The kernel's endpoint descriptor ends with the two audio extension
    bytes; only the first [USB_DT_ENDPOINT_SIZE] bytes are sent. *)
Record usb_endpoint_descriptor := {
  ep_bLength : Z;
  ep_bDescriptorType : Z;
  bEndpointAddress : Z;
  bmAttributes : Z;
  wMaxPacketSize : Z;
  bInterval : Z;
  bRefresh : Z;
  bSynchAddress : Z
}.

Record hid_class_descriptor := {
  hc_bDescriptorType : Z;
  wDescriptorLength : Z
}.

Record hid_descriptor := {
  hid_bLength : Z;
  hid_bDescriptorType : Z;
  bcdHID : Z;
  bCountryCode : Z;
  bNumDescriptors : Z;
  desc : hid_class_descriptor
}.

(** The bytes of the (packed) structures, as [memcpy] reads them on a
    little-endian machine. *)

Definition device_bytes (d : usb_device_descriptor) : list Z :=
  [u8 (dev_bLength d); u8 (dev_bDescriptorType d)] ++ le16 (dev_bcdUSB d) ++
  [u8 (dev_bDeviceClass d); u8 (dev_bDeviceSubClass d);
   u8 (dev_bDeviceProtocol d); u8 (dev_bMaxPacketSize0 d)] ++
  le16 (dev_idVendor d) ++ le16 (dev_idProduct d) ++ le16 (dev_bcdDevice d) ++
  [u8 (dev_iManufacturer d); u8 (dev_iProduct d); u8 (dev_iSerialNumber d);
   u8 (dev_bNumConfigurations d)].

Definition qualifier_bytes (d : usb_qualifier_descriptor) : list Z :=
  [u8 (qual_bLength d); u8 (qual_bDescriptorType d)] ++ le16 (qual_bcdUSB d) ++
  [u8 (qual_bDeviceClass d); u8 (qual_bDeviceSubClass d);
   u8 (qual_bDeviceProtocol d); u8 (qual_bMaxPacketSize0 d);
   u8 (qual_bNumConfigurations d); u8 (qual_bRESERVED d)].

Definition config_bytes (d : usb_config_descriptor) : list Z :=
  [u8 (cfg_bLength d); u8 (cfg_bDescriptorType d)] ++ le16 (wTotalLength d) ++
  [u8 (bNumInterfaces d); u8 (bConfigurationValue d); u8 (iConfiguration d);
   u8 (cfg_bmAttributes d); u8 (bMaxPower d)].

Definition interface_bytes (d : usb_interface_descriptor) : list Z :=
  [u8 (if_bLength d); u8 (if_bDescriptorType d); u8 (bInterfaceNumber d);
   u8 (bAlternateSetting d); u8 (bNumEndpoints d); u8 (bInterfaceClass d);
   u8 (bInterfaceSubClass d); u8 (bInterfaceProtocol d); u8 (iInterface d)].

Definition endpoint_bytes (d : usb_endpoint_descriptor) : list Z :=
  [u8 (ep_bLength d); u8 (ep_bDescriptorType d); u8 (bEndpointAddress d);
   u8 (bmAttributes d)] ++ le16 (wMaxPacketSize d) ++
  [u8 (bInterval d); u8 (bRefresh d); u8 (bSynchAddress d)].

Definition hid_bytes (d : hid_descriptor) : list Z :=
  [u8 (hid_bLength d); u8 (hid_bDescriptorType d)] ++ le16 (bcdHID d) ++
  [u8 (bCountryCode d); u8 (bNumDescriptors d);
   u8 (hc_bDescriptorType (desc d))] ++ le16 (wDescriptorLength (desc d)).

(** ** The descriptor catalog *)

Definition BCD_USB : Z := 0x0200.
Definition USB_VENDOR : Z := 0x056a.
Definition USB_PRODUCT : Z := 0xffab.

Definition LANG_EN_US : Z := 0x0409.
Definition STRING_ID_MANUFACTURER : Z := 1.
Definition STRING_ID_PRODUCT : Z := 2.
Definition STRING_ID_SERIAL : Z := 3.
Definition STRING_ID_CONFIG : Z := 0.
Definition STRING_ID_INTERFACE : Z := 0.

(** A [char16_t] array initialised from a literal: the characters and the
    terminating zero, two bytes each. *)
Definition char16_array (s : string) : list Z :=
  flat_map (fun c => le16 (Z.of_nat (nat_of_ascii c))) (list_ascii_of_string s)
  ++ le16 0.

Definition languages : list Z := le16 LANG_EN_US.
Definition manufacturer_en_us : list Z := char16_array "Wacom Co., Ltd.".
Definition product_en_us : list Z := char16_array "Software Tablet".
Definition serial_en_us : list Z := char16_array "19830712".

Definition sizeof (bytes : list Z) : Z := Z.of_nat (List.length bytes).

Definition EP_MAX_PACKET_CONTROL : Z := 64.
Definition EP_MAX_PACKET_INT : Z := 8.
Definition EP_NUM_INT_IN : Z := 0.

Definition usb_device : usb_device_descriptor := {|
  dev_bLength := USB_DT_DEVICE_SIZE;
  dev_bDescriptorType := USB_DT_DEVICE;
  dev_bcdUSB := BCD_USB;
  dev_bDeviceClass := 0;
  dev_bDeviceSubClass := 0;
  dev_bDeviceProtocol := 0;
  dev_bMaxPacketSize0 := EP_MAX_PACKET_CONTROL;
  dev_idVendor := USB_VENDOR;
  dev_idProduct := USB_PRODUCT;
  dev_bcdDevice := 0;
  dev_iManufacturer := STRING_ID_MANUFACTURER;
  dev_iProduct := STRING_ID_PRODUCT;
  dev_iSerialNumber := STRING_ID_SERIAL;
  dev_bNumConfigurations := 1
|}.

Definition sizeof_usb_qualifier_descriptor : Z := 10.

Definition usb_qualifier : usb_qualifier_descriptor := {|
  qual_bLength := sizeof_usb_qualifier_descriptor;
  qual_bDescriptorType := USB_DT_DEVICE_QUALIFIER;
  qual_bcdUSB := BCD_USB;
  qual_bDeviceClass := 0;
  qual_bDeviceSubClass := 0;
  qual_bDeviceProtocol := 0;
  qual_bMaxPacketSize0 := EP_MAX_PACKET_CONTROL;
  qual_bNumConfigurations := 1;
  qual_bRESERVED := 0
|}.

(** The initial value of the global [usb_config]; its total length is
    "computed later". *)
Definition usb_config_init : usb_config_descriptor := {|
  cfg_bLength := USB_DT_CONFIG_SIZE;
  cfg_bDescriptorType := USB_DT_CONFIG;
  wTotalLength := 0;
  bNumInterfaces := 1;
  bConfigurationValue := 1;
  iConfiguration := STRING_ID_CONFIG;
  cfg_bmAttributes := Z.lor USB_CONFIG_ATT_ONE USB_CONFIG_ATT_SELFPOWER;
  bMaxPower := 0x32
|}.

Definition usb_interface : usb_interface_descriptor := {|
  if_bLength := USB_DT_INTERFACE_SIZE;
  if_bDescriptorType := USB_DT_INTERFACE;
  bInterfaceNumber := 0;
  bAlternateSetting := 0;
  bNumEndpoints := 1;
  bInterfaceClass := USB_CLASS_HID;
  bInterfaceSubClass := 1;
  bInterfaceProtocol := 1;
  iInterface := STRING_ID_INTERFACE
|}.

(** The initial value of the global [usb_endpoint]; its address is assigned
    dynamically. *)
Definition usb_endpoint_init : usb_endpoint_descriptor := {|
  ep_bLength := USB_DT_ENDPOINT_SIZE;
  ep_bDescriptorType := USB_DT_ENDPOINT;
  bEndpointAddress := Z.lor USB_DIR_IN EP_NUM_INT_IN;
  bmAttributes := USB_ENDPOINT_XFER_INT;
  wMaxPacketSize := EP_MAX_PACKET_INT;
  bInterval := 5;
  bRefresh := 0;
  bSynchAddress := 0
|}.

Definition usb_hid_report : list Z :=
  [0x05; 0x0D; 0x09; 0x02; 0xA1; 0x01; 0x85; 0x06; 0x09; 0x20; 0xA0;
   0x09; 0x42; 0x09; 0x44; 0x09; 0x45; 0x09; 0x3C; 0x08; 0x09; 0x32;
   0x14; 0x25; 0x01; 0x75; 0x01; 0x95; 0x06; 0x81; 0x02; 0x95; 0x02;
   0x81; 0x03; 0x05; 0x01; 0x09; 0x30; 0x26; 0x80; 0x3E; 0x46; 0x80;
   0x3E; 0x65; 0x11; 0x55; 0x0D; 0x75; 0x10; 0x95; 0x01; 0x81; 0x02;
   0x09; 0x31; 0x26; 0x28; 0x23; 0x46; 0x28; 0x23; 0x81; 0x02; 0x44;
   0x64; 0x54; 0x05; 0x0D; 0x09; 0x30; 0x26; 0xFF; 0x03; 0x75; 0x10;
   0x81; 0x02; 0xC0; 0xC0].

Definition usb_hid : hid_descriptor := {|
  hid_bLength := 9;
  hid_bDescriptorType := HID_DT_HID;
  bcdHID := 0x0110;
  bCountryCode := 0;
  bNumDescriptors := 1;
  desc := {| hc_bDescriptorType := HID_DT_REPORT;
             wDescriptorLength := sizeof usb_hid_report |}
|}.

(** Sizes of the packed structures. *)
Definition sizeof_usb_device : Z := 18.
Definition sizeof_usb_config : Z := 9.
Definition sizeof_usb_interface : Z := 9.
Definition sizeof_usb_hid : Z := 9.

(** ** Raw Gadget interface types *)

Definition USB_RAW_EVENT_INVALID : Z := 0.
Definition USB_RAW_EVENT_CONNECT : Z := 1.
Definition USB_RAW_EVENT_CONTROL : Z := 2.

Definition USB_RAW_EPS_NUM_MAX : Z := 30.
Definition USB_RAW_EP_ADDR_ANY : Z := 0xff.

Record usb_raw_ep_caps := {
  type_control : bool;
  type_iso : bool;
  type_bulk : bool;
  type_int : bool;
  dir_in : bool;
  dir_out : bool
}.

Record usb_raw_ep_limits := {
  maxpacket_limit : Z;
  max_streams : Z
}.

Record usb_raw_ep_info := {
  info_addr : Z;
  caps : usb_raw_ep_caps;
  limits : usb_raw_ep_limits
}.

(** The 8-byte SETUP packet. *)
Record usb_ctrlrequest := {
  bRequestType : Z;
  bRequest : Z;
  wValue : Z;
  wIndex : Z;
  wLength : Z
}.

Definition wf_ctrlrequest (c : usb_ctrlrequest) : Prop :=
  0 <= bRequestType c < 256 /\ 0 <= bRequest c < 256 /\
  0 <= wValue c < 65536 /\ 0 <= wIndex c < 65536 /\ 0 <= wLength c < 65536.

(** [inner.type], [inner.length] and the SETUP packet of an event. *)
Record usb_raw_control_event := {
  inner_type : Z;
  inner_length : Z;
  ctrl : usb_ctrlrequest
}.

Definition EP0_MAX_DATA : Z := 256.

Record usb_raw_control_io := {
  io_ep : Z;
  io_flags : Z;
  io_length : Z;
  io_data : list Z
}.

Definition set_io_length (io : usb_raw_control_io) (l : Z) : usb_raw_control_io :=
  {| io_ep := io_ep io; io_flags := io_flags io; io_length := l;
     io_data := io_data io |}.

Definition set_io_data (io : usb_raw_control_io) (d : list Z) : usb_raw_control_io :=
  {| io_ep := io_ep io; io_flags := io_flags io; io_length := io_length io;
     io_data := d |}.

(** ** The process state and its environment *)

(** Calls that leave the process: the ioctls of the Raw Gadget device and
    the creation of the report thread. *)
Inductive call : Type :=
| EVENT_FETCH
| EPS_INFO
| EP_ENABLE (d : usb_endpoint_descriptor)
| VBUS_DRAW (power : Z)
| CONFIGURE
| EP0_STALL
| EP0_WRITE (io : usb_raw_control_io)
| EP0_READ (io : usb_raw_control_io)
| PTHREAD_CREATE (thread : Z).

(** A call with the value it returned, oldest first. *)
Definition history : Type := list (call * Z).

(** The globals the control plane writes, and the calls made so far.
    [addr] is the static counter of [assign_ep_address]. *)
Record world := {
  usb_config : usb_config_descriptor;
  usb_endpoint : usb_endpoint_descriptor;
  addr : Z;
  ep_int_in : Z;
  ep_int_in_thread : Z;
  calls : history
}.

Definition initial_world : world := {|
  usb_config := usb_config_init;
  usb_endpoint := usb_endpoint_init;
  addr := 1;
  ep_int_in := -1;
  ep_int_in_thread := 0;
  calls := []
|}.

Definition set_usb_endpoint (w : world) (e : usb_endpoint_descriptor) : world :=
  {| usb_config := usb_config w; usb_endpoint := e; addr := addr w;
     ep_int_in := ep_int_in w; ep_int_in_thread := ep_int_in_thread w;
     calls := calls w |}.

Definition set_addr (w : world) (a : Z) : world :=
  {| usb_config := usb_config w; usb_endpoint := usb_endpoint w; addr := a;
     ep_int_in := ep_int_in w; ep_int_in_thread := ep_int_in_thread w;
     calls := calls w |}.

Definition set_ep_int_in (w : world) (v : Z) : world :=
  {| usb_config := usb_config w; usb_endpoint := usb_endpoint w; addr := addr w;
     ep_int_in := v; ep_int_in_thread := ep_int_in_thread w;
     calls := calls w |}.

Definition set_ep_int_in_thread (w : world) (t : Z) : world :=
  {| usb_config := usb_config w; usb_endpoint := usb_endpoint w; addr := addr w;
     ep_int_in := ep_int_in w; ep_int_in_thread := t;
     calls := calls w |}.

Definition record_call (w : world) (c : call) (rv : Z) : world :=
  {| usb_config := usb_config w; usb_endpoint := usb_endpoint w; addr := addr w;
     ep_int_in := ep_int_in w; ep_int_in_thread := ep_int_in_thread w;
     calls := calls w ++ [(c, rv)] |}.

(** What the outside answers, as a function of the calls made so far:
    the return value of an ioctl, the endpoint table the kernel fills in,
    the outcome of [pthread_create] (return value and the thread id it
    stores), and the contents of the uninitialised transfer buffer. *)
Record environment := {
  ioctl : history -> call -> Z;
  eps_table : history -> list usb_raw_ep_info;
  pthread_create_result : history -> Z * Z;
  uninitialised : history -> list Z
}.

(** Stateful, fallible computations: how the computation ended, and the
    state it ended in (also when the process exits or aborts). *)
Definition M (A : Type) : Type := world -> result A * world.

Definition ret {A : Type} (a : A) : M A := fun w => (Ret a, w).

Definition mbind {A B : Type} (m : M A) (k : A -> M B) : M B :=
  fun w => match m w with
           | (Ret a, w') => k a w'
           | (Exit, w') => (Exit, w')
           | (Abort, w') => (Abort, w')
           end.

Definition exit {A : Type} : M A := fun w => (Exit, w).
Definition get : M world := fun w => (Ret w, w).
Definition modify (f : world -> world) : M unit := fun w => (Ret tt, f w).
Definition lift {A : Type} (r : result A) : M A := fun w => (r, w).

Declare Scope M_scope.
Delimit Scope M_scope with M.
Notation "x <- m ;; k" := (mbind m (fun x => k))
  (at level 61, m at next level, right associativity) : M_scope.
Notation "m ;;; k" := (mbind m (fun _ => k))
  (at level 61, right associativity) : M_scope.

(** ** Descriptor catalog: assembling the configuration *)

(** [build_config] reads the globals [usb_config] and [usb_endpoint].  The
    comparisons of the [int] length with a [sizeof] are made in [size_t];
    the last one, with the macro [USB_DT_ENDPOINT_SIZE], compares two
    [int]s. *)
Definition build_config (w : world) (data : list Z) (length : Z)
  : result (list Z * Z) :=
  let total_length := 0 in
  assert (sizeof_usb_config <=? size_t length) ;;;
  let data1 := memcpy data 0 (config_bytes (usb_config w))
                      (Z.to_nat sizeof_usb_config) in
  let off := sizeof_usb_config in
  let length := wrap_int (length - sizeof_usb_config) in
  let total_length := wrap_int (total_length + sizeof_usb_config) in
  assert (sizeof_usb_interface <=? size_t length) ;;;
  let data2 := memcpy data1 (Z.to_nat off) (interface_bytes usb_interface)
                      (Z.to_nat sizeof_usb_interface) in
  let off := off + sizeof_usb_interface in
  let length := wrap_int (length - sizeof_usb_interface) in
  let total_length := wrap_int (total_length + sizeof_usb_interface) in
  assert (sizeof_usb_hid <=? size_t length) ;;;
  let data3 := memcpy data2 (Z.to_nat off) (hid_bytes usb_hid)
                      (Z.to_nat sizeof_usb_hid) in
  let off := off + sizeof_usb_hid in
  let length := wrap_int (length - sizeof_usb_hid) in
  let total_length := wrap_int (total_length + sizeof_usb_hid) in
  assert (USB_DT_ENDPOINT_SIZE <=? length) ;;;
  let data4 := memcpy data3 (Z.to_nat off) (endpoint_bytes (usb_endpoint w))
                      (Z.to_nat USB_DT_ENDPOINT_SIZE) in
  let length := wrap_int (length - USB_DT_ENDPOINT_SIZE) in
  let total_length := wrap_int (total_length + USB_DT_ENDPOINT_SIZE) in
  (* config->wTotalLength = __cpu_to_le16(total_length) *)
  let data5 := memcpy data4 2 (le16 (u16 total_length)) 2 in
  Ret (data5, total_length).

(** ** Descriptor catalog: string descriptors *)

Definition fill_string_descriptor (id lang : Z) (io : usb_raw_control_io)
  : result (bool * usb_raw_control_io) :=
  sel <- (if (id =? 0) && (lang =? 0) then Ret (Some languages)
          else
            assert (0 <? id) ;;;
            assert (lang =? LANG_EN_US) ;;;
            if id =? STRING_ID_MANUFACTURER then Ret (Some manufacturer_en_us)
            else if id =? STRING_ID_PRODUCT then Ret (Some product_en_us)
            else if id =? STRING_ID_SERIAL then Ret (Some serial_en_us)
            else Ret None) ;;
  match sel with
  | None => Ret (false, io)
  | Some data =>
      let len := sizeof data in
      let d0 := memcpy (io_data io) 0 [u8 (len + 2)] 1 in
      let d1 := memcpy d0 1 [u8 USB_DT_STRING] 1 in
      let d2 := memcpy d1 2 data (Z.to_nat len) in
      Ret (true, set_io_length (set_io_data io d2) (char_to_u32 (nth 0 d2 0)))
  end.

(** ** Endpoint negotiator *)

Definition usb_endpoint_num (ep : usb_endpoint_descriptor) : Z :=
  Z.land (bEndpointAddress ep) USB_ENDPOINT_NUMBER_MASK.

Definition usb_endpoint_type (ep : usb_endpoint_descriptor) : Z :=
  Z.land (bmAttributes ep) USB_ENDPOINT_XFERTYPE_MASK.

Definition usb_endpoint_dir_in (ep : usb_endpoint_descriptor) : bool :=
  Z.land (bEndpointAddress ep) USB_ENDPOINT_DIR_MASK =? USB_DIR_IN.

Definition usb_endpoint_dir_out (ep : usb_endpoint_descriptor) : bool :=
  Z.land (bEndpointAddress ep) USB_ENDPOINT_DIR_MASK =? USB_DIR_OUT.

Definition set_bEndpointAddress (ep : usb_endpoint_descriptor) (a : Z)
  : usb_endpoint_descriptor :=
  {| ep_bLength := ep_bLength ep; ep_bDescriptorType := ep_bDescriptorType ep;
     bEndpointAddress := a; bmAttributes := bmAttributes ep;
     wMaxPacketSize := wMaxPacketSize ep; bInterval := bInterval ep;
     bRefresh := bRefresh ep; bSynchAddress := bSynchAddress ep |}.

(** [assign_ep_address info ep addr]: the answer, the endpoint descriptor
    and the static counter [addr] after the call. *)
Definition assign_ep_address (info : usb_raw_ep_info)
    (ep : usb_endpoint_descriptor) (addr : Z)
  : result (bool * usb_endpoint_descriptor * Z) :=
  if negb (usb_endpoint_num ep =? 0) then Ret (false, ep, addr)
  else if usb_endpoint_dir_in ep && negb (dir_in (caps info))
  then Ret (false, ep, addr)
  else if usb_endpoint_dir_out ep && negb (dir_out (caps info))
  then Ret (false, ep, addr)
  else
    supported <-
      (if usb_endpoint_type ep =? USB_ENDPOINT_XFER_BULK
       then Ret (type_bulk (caps info))
       else if usb_endpoint_type ep =? USB_ENDPOINT_XFER_INT
       then Ret (type_int (caps info))
       else assert false ;;; Ret true) ;;
    if negb supported then Ret (false, ep, addr)
    else if info_addr info =? USB_RAW_EP_ADDR_ANY
    then Ret (true,
              set_bEndpointAddress ep (u8 (Z.lor (bEndpointAddress ep) addr)),
              wrap_int (addr + 1))
    else Ret (true,
              set_bEndpointAddress ep
                (u8 (Z.lor (bEndpointAddress ep) (info_addr info))),
              addr).

(** ** Report generator: the motion state machine *)

Inductive motion_direction : Type :=
| MOTION_RIGHT
| MOTION_DOWN
| MOTION_LEFT
| MOTION_UP.

Record pen_report := {
  id : Z;
  tip : bool;
  barrel : bool;
  eraser : bool;
  invert : bool;
  xxx0 : bool;
  inrange : bool;
  x : Z;
  y : Z;
  pressure : Z
}.

Definition set_x (r : pen_report) (v : Z) : pen_report :=
  {| id := id r; tip := tip r; barrel := barrel r; eraser := eraser r;
     invert := invert r; xxx0 := xxx0 r; inrange := inrange r;
     x := v; y := y r; pressure := pressure r |}.

Definition set_y (r : pen_report) (v : Z) : pen_report :=
  {| id := id r; tip := tip r; barrel := barrel r; eraser := eraser r;
     invert := invert r; xxx0 := xxx0 r; inrange := inrange r;
     x := x r; y := v; pressure := pressure r |}.

Definition BORDER : Z := 2000.
Definition MAX_X : Z := 16000.
Definition MAX_Y : Z := 9000.
Definition STEPSIZE : Z := 100.

(** The motion state: the static [direction] of [step] and the report the
    generator loop keeps. *)
Definition motion_state : Type := (motion_direction * pen_report)%type.

Definition step (s : motion_state) : motion_state :=
  let (direction, report) := s in
  match direction with
  | MOTION_RIGHT =>
      let report := set_x report (u16 (x report + STEPSIZE)) in
      if MAX_X - BORDER <=? x report then (MOTION_DOWN, report)
      else (direction, report)
  | MOTION_DOWN =>
      let report := set_y report (u16 (y report + STEPSIZE)) in
      if MAX_Y - BORDER <=? y report then (MOTION_LEFT, report)
      else (direction, report)
  | MOTION_LEFT =>
      let report := set_x report (u16 (x report - STEPSIZE)) in
      if x report <=? BORDER then (MOTION_UP, report)
      else (direction, report)
  | MOTION_UP =>
      let report := set_y report (u16 (y report - STEPSIZE)) in
      if y report <=? BORDER then (MOTION_RIGHT, report)
      else (direction, report)
  end.

(** The report [ep_int_in_loop] starts from, and the initial direction. *)
Definition initial_report : pen_report :=
  {| id := 6; tip := false; barrel := false; eraser := false;
     invert := false; xxx0 := false; inrange := true;
     x := 2000; y := 2000; pressure := 0 |}.

Definition initial_motion : motion_state := (MOTION_RIGHT, initial_report).

(** The motion state after [n] iterations of the loop of [ep_int_in_loop];
    each iteration steps, then writes the report to the endpoint and
    sleeps. *)
Fixpoint ep_int_in_loop (n : nat) : motion_state :=
  match n with
  | O => initial_motion
  | S n' => step (ep_int_in_loop n')
  end.

(** The clockwise successor of a direction. *)
Definition clockwise (d : motion_direction) : motion_direction :=
  match d with
  | MOTION_RIGHT => MOTION_DOWN
  | MOTION_DOWN => MOTION_LEFT
  | MOTION_LEFT => MOTION_UP
  | MOTION_UP => MOTION_RIGHT
  end.

Definition motion_direction_eqb (a b : motion_direction) : bool :=
  match a, b with
  | MOTION_RIGHT, MOTION_RIGHT | MOTION_DOWN, MOTION_DOWN
  | MOTION_LEFT, MOTION_LEFT | MOTION_UP, MOTION_UP => true
  | _, _ => false
  end.

(** The directions in force at the start of the [n] iterations that follow
    iteration [from]. *)
Definition directions (from n : nat) : list motion_direction :=
  map (fun k => fst (ep_int_in_loop k)) (seq from n).

(** Consecutive repetitions removed: the order in which directions are
    taken up. *)
Fixpoint runs (l : list motion_direction) : list motion_direction :=
  match l with
  | [] => []
  | a :: t =>
      match t with
      | [] => [a]
      | b :: _ => if motion_direction_eqb a b then runs t else a :: runs t
      end
  end.

(** ** Control plane *)

Section ControlPlane.

Variable env : environment.

Local Open Scope M_scope.

(** Every wrapper [usb_raw_*] makes its ioctl and exits the process on a
    negative return value. *)
Definition usb_raw_ioctl (c : call) : M Z :=
  fun w =>
    let rv := ioctl env (calls w) c in
    (if rv <? 0 then Exit else Ret rv, record_call w c rv).

Definition usb_raw_event_fetch : M Z := usb_raw_ioctl EVENT_FETCH.
Definition usb_raw_ep0_read (io : usb_raw_control_io) : M Z :=
  usb_raw_ioctl (EP0_READ io).
Definition usb_raw_ep0_write (io : usb_raw_control_io) : M Z :=
  usb_raw_ioctl (EP0_WRITE io).
Definition usb_raw_ep_enable (d : usb_endpoint_descriptor) : M Z :=
  usb_raw_ioctl (EP_ENABLE d).
Definition usb_raw_configure : M Z := usb_raw_ioctl CONFIGURE.
Definition usb_raw_vbus_draw (power : Z) : M Z := usb_raw_ioctl (VBUS_DRAW power).
Definition usb_raw_eps_info : M Z := usb_raw_ioctl EPS_INFO.
Definition usb_raw_ep0_stall : M Z := usb_raw_ioctl EP0_STALL.

(** [pthread_create(&ep_int_in_thread, ...)]: the thread id is stored, the
    return value is not looked at. *)
Definition pthread_create : M unit :=
  fun w =>
    let (rv, thread) := pthread_create_result env (calls w) in
    (Ret tt, record_call (set_ep_int_in_thread w thread)
                         (PTHREAD_CREATE thread) rv).

Definition zero_ep_info : usb_raw_ep_info :=
  {| info_addr := 0;
     caps := {| type_control := false; type_iso := false; type_bulk := false;
                type_int := false; dir_in := false; dir_out := false |};
     limits := {| maxpacket_limit := 0; max_streams := 0 |} |}.

(** The second loop of [process_eps_info], over the entries
    [info.eps[0 .. num-1]]. *)
Fixpoint assign_loop (eps : list usb_raw_ep_info) : M unit :=
  match eps with
  | [] => ret tt
  | info :: rest =>
      w <- get ;;
      r <- lift (assign_ep_address info (usb_endpoint w) (addr w)) ;;
      let '(_, ep, a) := r in
      modify (fun w => set_addr (set_usb_endpoint w ep) a) ;;;
      assign_loop rest
  end.

(** The table is cleared before the kernel fills it in: the entries the
    kernel leaves out read as zero. *)
Definition process_eps_info : M unit :=
  w0 <- get ;;
  let table := eps_table env (calls w0) in
  num <- usb_raw_eps_info ;;
  let info := map (fun i => nth i table zero_ep_info) (seq 0 (Z.to_nat num)) in
  assign_loop info ;;;
  w <- get ;;
  let int_in_addr := usb_endpoint_num (usb_endpoint w) in
  lift (assert (negb (int_in_addr =? 0))).

(** ** Control transfer dispatcher *)

Definition ep0_request (event : usb_raw_control_event)
    (io : usb_raw_control_io) : M (bool * usb_raw_control_io) :=
  let c := ctrl event in
  let ty := Z.land (bRequestType c) USB_TYPE_MASK in
  if ty =? USB_TYPE_STANDARD then
    if bRequest c =? USB_REQ_GET_DESCRIPTOR then
      let dt := Z.shiftr (wValue c) 8 in
      if dt =? USB_DT_DEVICE then
        ret (true,
             set_io_length
               (set_io_data io (memcpy (io_data io) 0 (device_bytes usb_device)
                                       (Z.to_nat sizeof_usb_device)))
               sizeof_usb_device)
      else if dt =? USB_DT_DEVICE_QUALIFIER then
        ret (true,
             set_io_length
               (set_io_data io
                  (memcpy (io_data io) 0 (qualifier_bytes usb_qualifier)
                          (Z.to_nat sizeof_usb_qualifier_descriptor)))
               sizeof_usb_qualifier_descriptor)
      else if dt =? USB_DT_CONFIG then
        w <- get ;;
        r <- lift (build_config w (io_data io) EP0_MAX_DATA) ;;
        let (data, total) := r in
        ret (true, set_io_length (set_io_data io data) (u32 total))
      else if dt =? USB_DT_STRING then
        lift (fill_string_descriptor (u8 (Z.land (wValue c) 0xff))
                                     (u16 (wIndex c)) io)
      else if dt =? HID_DT_REPORT then
        ret (true,
             set_io_length
               (set_io_data io (memcpy (io_data io) 0 usb_hid_report
                                       (Z.to_nat (sizeof usb_hid_report))))
               (sizeof usb_hid_report))
      else exit
    else if bRequest c =? USB_REQ_SET_CONFIGURATION then
      w <- get ;;
      rv <- usb_raw_ep_enable (usb_endpoint w) ;;
      modify (fun w => set_ep_int_in w rv) ;;;
      w <- get ;;
      usb_raw_vbus_draw (bMaxPower (usb_config w)) ;;;
      usb_raw_configure ;;;
      ret (true, set_io_length io 0)
    else if bRequest c =? USB_REQ_GET_INTERFACE then
      ret (true,
           set_io_length
             (set_io_data io (memcpy (io_data io) 0
                                     [u8 (bAlternateSetting usb_interface)] 1))
             1)
    else exit
  else if ty =? USB_TYPE_CLASS then
    if bRequest c =? HID_REQ_SET_REPORT then
      ret (true, set_io_length io 1)
    else if bRequest c =? HID_REQ_SET_IDLE then
      w <- get ;;
      (if ep_int_in_thread w =? 0 then pthread_create else ret tt) ;;;
      ret (true, set_io_length io 0)
    else if bRequest c =? HID_REQ_SET_PROTOCOL then
      ret (true, set_io_length io 0)
    else exit
  else if ty =? USB_TYPE_VENDOR then
    exit
  else exit.

(** ** Event loop *)

(** One iteration of the loop of [ep0_loop], for the event the kernel
    delivers. *)
Definition ep0_loop_body (event : usb_raw_control_event) : M unit :=
  usb_raw_event_fetch ;;;
  (if inner_type event =? USB_RAW_EVENT_CONNECT then process_eps_info else ret tt) ;;;
  if negb (inner_type event =? USB_RAW_EVENT_CONTROL) then ret tt
  else
    w <- get ;;
    let io := {| io_ep := 0; io_flags := 0; io_length := 0;
                 io_data := uninitialised env (calls w) |} in
    r <- ep0_request event io ;;
    let (reply, io) := r in
    if negb reply then
      usb_raw_ep0_stall ;;; ret tt
    else
      let io := if wLength (ctrl event) <? io_length io
                then set_io_length io (wLength (ctrl event)) else io in
      if negb (Z.land (bRequestType (ctrl event)) USB_DIR_IN =? 0)
      then usb_raw_ep0_write io ;;; ret tt
      else usb_raw_ep0_read io ;;; ret tt.

(** The loop, run over the events the kernel delivers in order.  The loop
    itself never ends: [Ret] says that the process is still running and
    waits for the next event, [Exit] and [Abort] that it has ended. *)
Fixpoint ep0_loop (events : list usb_raw_control_event) : M unit :=
  match events with
  | [] => ret tt
  | event :: rest => ep0_loop_body event ;;; ep0_loop rest
  end.

End ControlPlane.

(** ** Report generator: the reports on the wire *)

(** The bytes of the packed [struct pen_report]: the report id, the six
    one-bit fields from the least significant bit up, and the three 16-bit
    fields. *)
Definition pen_report_flags (r : pen_report) : Z :=
  (if tip r then 1 else 0) + (if barrel r then 2 else 0)
  + (if eraser r then 4 else 0) + (if invert r then 8 else 0)
  + (if xxx0 r then 16 else 0) + (if inrange r then 32 else 0).

Definition pen_report_bytes (r : pen_report) : list Z :=
  [u8 (id r); pen_report_flags r] ++ le16 (x r) ++ le16 (y r)
  ++ le16 (pressure r).

Definition sizeof_pen_report : Z := 8.

Record usb_raw_int_io := {
  int_ep : Z;
  int_flags : Z;
  int_length : Z;
  int_data : list Z
}.

(** The loop of [ep_int_in_loop] with its transfers.  [ep_int_in] is read
    once, before the loop; [rvs] are the values the successive
    [usb_raw_ep_write] ioctls return, one iteration for each.  The result
    says how the thread stands after them ([Exit]: a write failed and the
    process has exited), and lists the transfers made, oldest first.  The
    pause between two iterations is not modelled. *)
Fixpoint ep_int_in_iterations (io : usb_raw_int_io) (rvs : list Z)
    (s : motion_state) : result unit * list usb_raw_int_io :=
  match rvs with
  | [] => (Ret tt, [])
  | rv :: rest =>
      let s := step s in
      let io := {| int_ep := int_ep io; int_flags := int_flags io;
                   int_length := int_length io;
                   int_data := memcpy (int_data io) 0
                                 (pen_report_bytes (snd s))
                                 (Z.to_nat sizeof_pen_report) |} in
      if rv <? 0 then (Exit, [io])
      else let (r, ios) := ep_int_in_iterations io rest s in (r, io :: ios)
  end.

Definition ep_int_in_thread_run (ep_int_in : Z) (garbage : list Z)
    (rvs : list Z) : result unit * list usb_raw_int_io :=
  let io := {| int_ep := u16 ep_int_in; int_flags := 0; int_length := 8;
               int_data := garbage |} in
  ep_int_in_iterations io rvs initial_motion.

(** * Vocabulary of the properties *)

Definition set_wTotalLength (d : usb_config_descriptor) (v : Z)
  : usb_config_descriptor :=
  {| cfg_bLength := cfg_bLength d; cfg_bDescriptorType := cfg_bDescriptorType d;
     wTotalLength := v; bNumInterfaces := bNumInterfaces d;
     bConfigurationValue := bConfigurationValue d;
     iConfiguration := iConfiguration d;
     cfg_bmAttributes := cfg_bmAttributes d; bMaxPower := bMaxPower d |}.

(** The byte sum of the four descriptors [build_config] concatenates. *)
Definition config_blob_size (w : world) : Z :=
  sizeof (config_bytes (usb_config w)) + sizeof (interface_bytes usb_interface)
  + sizeof (hid_bytes usb_hid)
  + sizeof (firstn (Z.to_nat USB_DT_ENDPOINT_SIZE)
                   (endpoint_bytes (usb_endpoint w))).

(** The string table: the payload of each defined string id. *)
Definition string_table (id : Z) : option (list Z) :=
  if id =? STRING_ID_MANUFACTURER then Some manufacturer_en_us
  else if id =? STRING_ID_PRODUCT then Some product_en_us
  else if id =? STRING_ID_SERIAL then Some serial_en_us
  else None.

(** A control transfer buffer with nothing in it. *)
Definition blank_io : usb_raw_control_io :=
  {| io_ep := 0; io_flags := 0; io_length := 0;
     io_data := repeat 0 (Z.to_nat EP0_MAX_DATA) |}.

(** What holds of the motion state in each direction: the pen is on the side
    of the rectangle it is travelling along, on the grid of the step size,
    and has not yet reached the corner where it turns. *)
Definition on_path (s : motion_state) : Prop :=
  let (direction, report) := s in
  match direction with
  | MOTION_RIGHT =>
      y report = 2000 /\ 2000 <= x report < 14000 /\ x report mod 100 = 0
  | MOTION_DOWN =>
      x report = 14000 /\ 2000 <= y report < 7000 /\ y report mod 100 = 0
  | MOTION_LEFT =>
      y report = 7000 /\ 2000 < x report <= 14000 /\ x report mod 100 = 0
  | MOTION_UP =>
      x report = 2000 /\ 2000 < y report <= 7000 /\ y report mod 100 = 0
  end.

(** The number of iterations of one traversal of the rectangle. *)
Definition traversal : nat := 340.

(** One call of [assign_ep_address]: the capability entry, the endpoint
    descriptor before the call, the answer, and the descriptor after it. *)
Record assignment := {
  a_info : usb_raw_ep_info;
  a_before : usb_endpoint_descriptor;
  a_ok : bool;
  a_after : usb_endpoint_descriptor
}.

(** Successive calls of [assign_ep_address] within one process, the static
    counter carried from each call to the next. *)
Fixpoint assign_calls (reqs : list (usb_raw_ep_info * usb_endpoint_descriptor))
    (addr : Z) : result (list assignment * Z) :=
  match reqs with
  | [] => Ret ([], addr)
  | (info, ep) :: rest =>
      r <- assign_ep_address info ep addr ;;
      let '(ok, ep', addr') := r in
      r' <- assign_calls rest addr' ;;
      let (log, addr'') := r' in
      Ret ({| a_info := info; a_before := ep; a_ok := ok; a_after := ep' |}
             :: log, addr'')
  end.

(** The successful assignments against an "any address" entry. *)
Definition any_address_success (e : assignment) : bool :=
  a_ok e && (info_addr (a_info e) =? USB_RAW_EP_ADDR_ANY).

(** An environment in which every call succeeds with return value 0 and a
    created thread has the id 1. *)
Definition quiet_env : environment :=
  {| ioctl := fun _ _ => 0;
     eps_table := fun _ => [];
     pthread_create_result := fun _ => (0, 1);
     uninitialised := fun _ => repeat 0 (Z.to_nat EP0_MAX_DATA) |}.

(** An interrupt-capable IN endpoint of the controller. *)
Definition int_in_info (a : Z) : usb_raw_ep_info :=
  {| info_addr := a;
     caps := {| type_control := false; type_iso := false; type_bulk := true;
                type_int := true; dir_in := true; dir_out := false |};
     limits := {| maxpacket_limit := 64; max_streams := 0 |} |}.

(** Three calls on fresh interrupt-IN descriptors: against an "any address"
    entry, against an entry fixed at address 5, and against another "any
    address" entry; and what they give. *)
Definition sample_reqs : list (usb_raw_ep_info * usb_endpoint_descriptor) :=
  [ (int_in_info USB_RAW_EP_ADDR_ANY, usb_endpoint_init);
    (int_in_info 5, usb_endpoint_init);
    (int_in_info USB_RAW_EP_ADDR_ANY, usb_endpoint_init) ].

(** Sixteen calls on fresh interrupt-IN descriptors, each against an "any
    address" entry. *)
Definition sixteen_reqs : list (usb_raw_ep_info * usb_endpoint_descriptor) :=
  repeat (int_in_info USB_RAW_EP_ADDR_ANY, usb_endpoint_init) 16.

Definition sample_log : list assignment :=
  Eval vm_compute in
    match assign_calls sample_reqs 1 with
    | Ret (log, _) => log
    | _ => []
    end.

(** *** Classification of SETUP packets *)

Definition request_class (c : usb_ctrlrequest) : Z :=
  Z.land (bRequestType c) USB_TYPE_MASK.

Definition descriptor_type (c : usb_ctrlrequest) : Z := Z.shiftr (wValue c) 8.

Definition string_id (c : usb_ctrlrequest) : Z := Z.land (wValue c) 0xff.

Definition is_get_descriptor (c : usb_ctrlrequest) : bool :=
  (request_class c =? USB_TYPE_STANDARD) && (bRequest c =? USB_REQ_GET_DESCRIPTOR).

Definition is_string_request (c : usb_ctrlrequest) : bool :=
  is_get_descriptor c && (descriptor_type c =? USB_DT_STRING).

Definition is_set_configuration (c : usb_ctrlrequest) : bool :=
  (request_class c =? USB_TYPE_STANDARD)
  && (bRequest c =? USB_REQ_SET_CONFIGURATION).

Definition is_set_idle (c : usb_ctrlrequest) : bool :=
  (request_class c =? USB_TYPE_CLASS) && (bRequest c =? HID_REQ_SET_IDLE).

(** GET_DESCRIPTOR(STRING) in the language 0x0409 with a nonzero string id
    outside the defined set {1, 2, 3}. *)
Definition stall_shape (c : usb_ctrlrequest) : bool :=
  is_string_request c && (wIndex c =? LANG_EN_US)
  && negb (string_id c =? 0)
  && negb ((string_id c =? STRING_ID_MANUFACTURER)
           || (string_id c =? STRING_ID_PRODUCT)
           || (string_id c =? STRING_ID_SERIAL)).

(** The kinds of request the dispatcher has no case for. *)
Definition unknown_standard_request (c : usb_ctrlrequest) : bool :=
  (request_class c =? USB_TYPE_STANDARD)
  && negb ((bRequest c =? USB_REQ_GET_DESCRIPTOR)
           || (bRequest c =? USB_REQ_SET_CONFIGURATION)
           || (bRequest c =? USB_REQ_GET_INTERFACE)).

Definition unknown_descriptor_type (c : usb_ctrlrequest) : bool :=
  is_get_descriptor c
  && negb ((descriptor_type c =? USB_DT_DEVICE)
           || (descriptor_type c =? USB_DT_DEVICE_QUALIFIER)
           || (descriptor_type c =? USB_DT_CONFIG)
           || (descriptor_type c =? USB_DT_STRING)
           || (descriptor_type c =? HID_DT_REPORT)).

Definition unknown_class_request (c : usb_ctrlrequest) : bool :=
  (request_class c =? USB_TYPE_CLASS)
  && negb ((bRequest c =? HID_REQ_SET_REPORT)
           || (bRequest c =? HID_REQ_SET_IDLE)
           || (bRequest c =? HID_REQ_SET_PROTOCOL)).

Definition vendor_request (c : usb_ctrlrequest) : bool :=
  request_class c =? USB_TYPE_VENDOR.

Definition unknown_request_class (c : usb_ctrlrequest) : bool :=
  negb ((request_class c =? USB_TYPE_STANDARD)
        || (request_class c =? USB_TYPE_CLASS)
        || (request_class c =? USB_TYPE_VENDOR)).

Definition unrecognized (c : usb_ctrlrequest) : bool :=
  unknown_standard_request c || unknown_descriptor_type c
  || unknown_class_request c || vendor_request c || unknown_request_class c.

(** A string request whose (id, language) pairing is neither answered nor
    stalled: not (0, 0) and not a nonzero id in the language 0x0409. *)
Definition other_string_pairing (c : usb_ctrlrequest) : bool :=
  is_string_request c
  && negb ((string_id c =? 0) && (wIndex c =? 0))
  && negb (negb (string_id c =? 0) && (wIndex c =? LANG_EN_US)).

(** A control event carrying the given SETUP packet. *)
Definition control_event (c : usb_ctrlrequest) : usb_raw_control_event :=
  {| inner_type := USB_RAW_EVENT_CONTROL; inner_length := 8; ctrl := c |}.


Definition is_ep_enable (c : call) : bool :=
  match c with EP_ENABLE _ => true | _ => false end.

Definition is_pthread_create (c : call) : bool :=
  match c with PTHREAD_CREATE _ => true | _ => false end.

(** How many of the calls made so far satisfy [p]. *)
Definition count_calls (p : call -> bool) (h : history) : nat :=
  List.length (filter (fun e => p (fst e)) h).

(** The bytes an IN transfer of the buffer sends. *)
Definition transferred (io : usb_raw_control_io) : list Z :=
  firstn (Z.to_nat (io_length io)) (io_data io).

(** The transfer buffer an iteration of the loop starts with. *)
Definition fresh_io (env : environment) (w : world) : usb_raw_control_io :=
  {| io_ep := 0; io_flags := 0; io_length := 0;
     io_data := uninitialised env (calls w) |}.

(** The endpoint-enable calls made so far, in order. *)
Definition enables (h : history) : list call :=
  filter is_ep_enable (map fst h).

(** Sample requests: GET_DESCRIPTOR(STRING) for the undefined string id 4 in
    the language 0x0409; GET_DESCRIPTOR(INTERFACE), a descriptor sub-type
    the dispatcher has no case for; GET_DESCRIPTOR(DEVICE) asking for 8
    bytes; SET_CONFIGURATION(1); SET_IDLE. *)
Definition undefined_string_request : usb_ctrlrequest :=
  {| bRequestType := 0x80; bRequest := USB_REQ_GET_DESCRIPTOR;
     wValue := 0x0304; wIndex := LANG_EN_US; wLength := 255 |}.


Definition interface_descriptor_request : usb_ctrlrequest :=
  {| bRequestType := 0x80; bRequest := USB_REQ_GET_DESCRIPTOR;
     wValue := 0x0400; wIndex := 0; wLength := 9 |}.

Definition device_descriptor_request (wLength : Z) : usb_ctrlrequest :=
  {| bRequestType := 0x80; bRequest := USB_REQ_GET_DESCRIPTOR;
     wValue := 0x0100; wIndex := 0; wLength := wLength |}.

Definition set_configuration_request : usb_ctrlrequest :=
  {| bRequestType := 0x00; bRequest := USB_REQ_SET_CONFIGURATION;
     wValue := 1; wIndex := 0; wLength := 0 |}.

Definition set_idle_request : usb_ctrlrequest :=
  {| bRequestType := 0x21; bRequest := HID_REQ_SET_IDLE;
     wValue := 0; wIndex := 0; wLength := 0 |}.

(** A controller with one interrupt-capable IN endpoint that takes any
    address; every call succeeds, and a created thread has the id 1. *)
Definition one_endpoint_env : environment :=
  {| ioctl := fun _ c => match c with EPS_INFO => 1 | _ => 0 end;
     eps_table := fun _ => [int_in_info USB_RAW_EP_ADDR_ANY];
     pthread_create_result := fun _ => (0, 1);
     uninitialised := fun _ => repeat 0 (Z.to_nat EP0_MAX_DATA) |}.

Definition connect_event : usb_raw_control_event :=
  {| inner_type := USB_RAW_EVENT_CONNECT; inner_length := 0;
     ctrl := {| bRequestType := 0; bRequest := 0; wValue := 0; wIndex := 0;
                wLength := 0 |} |}.

(** *** Starting the report generator *)

(** The generator has been started at most once, and not at all while the
    thread handle is still zero. *)
Definition started_once (w : world) : Prop :=
  (count_calls is_pthread_create (calls w) <= 1)%nat /\
  (ep_int_in_thread w = 0 -> count_calls is_pthread_create (calls w) = 0%nat).

(** A computation that neither touches the thread handle nor creates a
    thread. *)
Definition leaves_generator {A : Type} (m : M A) : Prop :=
  forall w : world,
    ep_int_in_thread (snd (m w)) = ep_int_in_thread w /\
    count_calls is_pthread_create (calls (snd (m w)))
      = count_calls is_pthread_create (calls w).

Definition keeps_started_once {A : Type} (m : M A) : Prop :=
  forall w : world, started_once w -> started_once (snd (m w)).


(** * Proof automation *)

(** Take one more byte off the front of a buffer known to be long enough. *)
Ltac split_buffer data H :=
  destruct data as [| ? data];
  [ exfalso; cbn [List.length] in H; lia | ].

(** Decide the integer tests of the goal, one after the other. *)
Ltac case_tests :=
  repeat match goal with
    | |- context [Z.eqb ?a ?b] => destruct (Z.eqb_spec a b)
    | |- context [Z.ltb ?a ?b] => destruct (Z.ltb_spec a b)
    end.

(** Replace the request and descriptor codes by their values. *)
Ltac unfold_codes :=
  unfold USB_TYPE_MASK, USB_TYPE_STANDARD, USB_TYPE_CLASS, USB_TYPE_VENDOR,
    USB_REQ_GET_DESCRIPTOR, USB_REQ_SET_CONFIGURATION, USB_REQ_GET_INTERFACE,
    USB_DT_DEVICE, USB_DT_DEVICE_QUALIFIER, USB_DT_CONFIG, USB_DT_STRING,
    HID_DT_REPORT, HID_REQ_SET_REPORT, HID_REQ_SET_IDLE, HID_REQ_SET_PROTOCOL,
    LANG_EN_US, STRING_ID_MANUFACTURER, STRING_ID_PRODUCT, STRING_ID_SERIAL
    in *.

(** * Vocabulary of the further properties *)

(** Reading a report back from its bytes, as the host does. *)
Definition pen_report_unpack (b : list Z) : pen_report :=
  {| id := nth 0 b 0;
     tip := Z.testbit (nth 1 b 0) 0;
     barrel := Z.testbit (nth 1 b 0) 1;
     eraser := Z.testbit (nth 1 b 0) 2;
     invert := Z.testbit (nth 1 b 0) 3;
     xxx0 := Z.testbit (nth 1 b 0) 4;
     inrange := Z.testbit (nth 1 b 0) 5;
     x := read_le16 b 2;
     y := read_le16 b 4;
     pressure := read_le16 b 6 |}.

(** A report whose fields fit their types. *)
Definition wf_pen_report (r : pen_report) : Prop :=
  0 <= id r < 256 /\ 0 <= x r < 65536 /\ 0 <= y r < 65536 /\
  0 <= pressure r < 65536.

(** The writes made before the first one that fails, that one included. *)
Fixpoint writes_made (rvs : list Z) : nat :=
  match rvs with
  | [] => 0
  | rv :: rest => if rv <? 0 then 1 else S (writes_made rest)
  end.

(** The transfer of the iteration that follows [k] earlier ones. *)
Definition report_transfer (ep_int_in : Z) (k : nat) : usb_raw_int_io :=
  {| int_ep := u16 ep_int_in; int_flags := 0; int_length := 8;
     int_data := pen_report_bytes (snd (ep_int_in_loop (S k))) |}.

(** The chain of descriptors in the first [total] bytes of [data], as a host
    walks it: each descriptor starts with its length and its type, and the
    next one starts right after it.  [None] when a length is less than 2 or
    runs past the end. *)
Fixpoint descriptor_chain (fuel : nat) (data : list Z) (total : Z)
  : option (list (Z * Z)) :=
  match fuel with
  | O => if total =? 0 then Some [] else None
  | S fuel' =>
      if total =? 0 then Some []
      else
        let bLength := nth 0 data 0 in
        let bDescriptorType := nth 1 data 0 in
        if (bLength <? 2) || (total <? bLength) then None
        else
          match descriptor_chain fuel' (skipn (Z.to_nat bLength) data)
                  (total - bLength) with
          | Some rest => Some ((bLength, bDescriptorType) :: rest)
          | None => None
          end
  end.

(** The catalog as the program leaves it: [usb_config] as initialised, and
    [usb_endpoint] as initialised but for its address, which is a byte with
    the IN bit set. *)
Definition catalog_intact (w : world) : Prop :=
  usb_config w = usb_config_init /\
  usb_endpoint w
    = set_bEndpointAddress usb_endpoint_init (bEndpointAddress (usb_endpoint w))
  /\ 0 <= bEndpointAddress (usb_endpoint w) < 256
  /\ Z.land (bEndpointAddress (usb_endpoint w)) USB_DIR_IN = USB_DIR_IN.

(** GET_DESCRIPTOR(CONFIGURATION) asking for 255 bytes. *)
Definition config_descriptor_request : usb_ctrlrequest :=
  {| bRequestType := 0x80; bRequest := USB_REQ_GET_DESCRIPTOR;
     wValue := 0x0200; wIndex := 0; wLength := 255 |}.

(** The capability entry offers the direction and the transfer type the
    endpoint descriptor asks for. *)
Definition supports (info : usb_raw_ep_info) (ep : usb_endpoint_descriptor)
  : bool :=
  (negb (usb_endpoint_dir_in ep) || dir_in (caps info))
  && (negb (usb_endpoint_dir_out ep) || dir_out (caps info))
  && (((usb_endpoint_type ep =? USB_ENDPOINT_XFER_BULK) && type_bulk (caps info))
      || ((usb_endpoint_type ep =? USB_ENDPOINT_XFER_INT) && type_int (caps info))).

(** The endpoint descriptor is for a bulk or an interrupt endpoint. *)
Definition bulk_or_int (ep : usb_endpoint_descriptor) : bool :=
  (usb_endpoint_type ep =? USB_ENDPOINT_XFER_BULK)
  || (usb_endpoint_type ep =? USB_ENDPOINT_XFER_INT).

(** The address an entry gives: the counter's value for an "any address"
    entry, the entry's own address otherwise. *)
Definition offered_address (info : usb_raw_ep_info) (counter : Z) : Z :=
  if info_addr info =? USB_RAW_EP_ADDR_ANY then counter else info_addr info.

(** A controller that reports the given endpoint table, every call
    succeeding. *)
Definition table_env (table : list usb_raw_ep_info) : environment :=
  {| ioctl := fun _ c =>
       match c with EPS_INFO => Z.of_nat (List.length table) | _ => 0 end;
     eps_table := fun _ => table;
     pthread_create_result := fun _ => (0, 1);
     uninitialised := fun _ => repeat 0 (Z.to_nat EP0_MAX_DATA) |}.

(** An OUT-only bulk endpoint of the controller. *)
Definition bulk_out_info (a : Z) : usb_raw_ep_info :=
  {| info_addr := a;
     caps := {| type_control := false; type_iso := false; type_bulk := true;
                type_int := false; dir_in := false; dir_out := true |};
     limits := {| maxpacket_limit := 512; max_streams := 0 |} |}.

(** *** Framing *)

(** [m] leaves the reading [f] of the state as it was, however it ends. *)
Definition leaves {X A : Type} (f : world -> X) (m : M A) : Prop :=
  forall w : world, f (snd (m w)) = f w.

(** [m] keeps the property [P] of the state, however it ends. *)
Definition preserves {A : Type} (P : world -> Prop) (m : M A) : Prop :=
  forall w : world, P w -> P (snd (m w)).

(** [m] only adds calls to the history, all of them of the kind [P]. *)
Definition appends {A : Type} (P : call -> bool) (m : M A) : Prop :=
  forall w : world,
    exists l : history,
      calls (snd (m w)) = calls w ++ l /\
      Forall (fun e => P (fst e) = true) l.

(** The calls the dispatcher itself makes. *)
Definition dispatcher_call (c : call) : bool :=
  match c with
  | EP_ENABLE _ | VBUS_DRAW _ | CONFIGURE | PTHREAD_CREATE _ => true
  | _ => false
  end.

(** The descriptor catalog and the address counter. *)
Definition catalog (w : world)
  : usb_config_descriptor * usb_endpoint_descriptor * Z :=
  (usb_config w, usb_endpoint w, addr w).

(** A reading of the state that does not depend on the history. *)
Definition history_blind {X : Type} (f : world -> X) : Prop :=
  forall (w : world) (c : call) (rv : Z), f (record_call w c rv) = f w.

(** The answer of the loop to a control event: a transfer or a stall. *)
Definition is_ep0_action (c : call) : bool :=
  match c with
  | EP0_WRITE _ | EP0_READ _ | EP0_STALL => true
  | _ => false
  end.

Definition is_event_fetch (c : call) : bool :=
  match c with EVENT_FETCH => true | _ => false end.

Definition is_control (ev : usb_raw_control_event) : bool :=
  inner_type ev =? USB_RAW_EVENT_CONTROL.

(** Every ioctl of the history returned a value that is not negative. *)
Definition all_succeeded (h : history) : Prop :=
  Forall (fun e => is_pthread_create (fst e) = false -> 0 <= snd e) h.

(** What the program keeps true of its globals: the catalog is intact, and
    the address counter has been used at most once, for the endpoint. *)
Definition program_invariant (w : world) : Prop :=
  catalog_intact w /\
  (addr w = 1 \/ (addr w = 2 /\ usb_endpoint_num (usb_endpoint w) <> 0)).

Definition is_eps_info (c : call) : bool :=
  match c with EPS_INFO => true | _ => false end.

(** [m], started after ioctls that all succeeded, makes no call after one
    that fails: all ioctls but the last one succeeded, and the last one
    too if [m] returns. *)
Definition fails_fast {A : Type} (m : M A) : Prop :=
  forall w : world,
    all_succeeded (calls w) ->
    all_succeeded (removelast (calls (snd (m w)))) /\
    (forall a : A, fst (m w) = Ret a -> all_succeeded (calls (snd (m w)))).

(** A connect event, SET_CONFIGURATION, and GET_DESCRIPTOR(DEVICE). *)
Definition enumeration_events : list usb_raw_control_event :=
  [connect_event; control_event set_configuration_request;
   control_event (device_descriptor_request 18)].

(** The last call of the history is an ioctl that returned a negative
    value. *)
Definition last_call_failed (h : history) : Prop :=
  exists (h0 : history) (c : call) (rv : Z),
    h = h0 ++ [(c, rv)] /\ rv < 0 /\ is_pthread_create c = false.

(** The handle of the interrupt endpoint according to the history: the
    value returned by the latest endpoint enable that succeeded, -1 when
    there is none. *)
Fixpoint enabled_handle (h : history) (handle : Z) : Z :=
  match h with
  | [] => handle
  | (EP_ENABLE _, rv) :: rest =>
      enabled_handle rest (if rv <? 0 then handle else rv)
  | _ :: rest => enabled_handle rest handle
  end.

(** A connect event answered by a capable controller, then a request for a
    descriptor sub-type the dispatcher has no case for. *)
Definition fatal_events : list usb_raw_control_event :=
  [connect_event; control_event interface_descriptor_request].

(** The handle in [ep_int_in] is the one the history gives. *)
Definition handle_recorded (w : world) : Prop :=
  ep_int_in w = enabled_handle (calls w) (ep_int_in initial_world).

Definition not_ep_enable (c : call) : bool := negb (is_ep_enable c).

(** * Properties *)

(** ** Machine arithmetic *)

Lemma size_t_small (z : Z) : 0 <= z <= 2147483647 -> size_t z = z.
Proof. intros H. unfold size_t. apply Z.mod_small. lia. Qed.

Lemma wrap_int_small (z : Z) :
  -2147483648 <= z <= 2147483647 -> wrap_int z = z.
Proof. intros H. unfold wrap_int. rewrite Z.mod_small; lia. Qed.

Lemma u8_small (z : Z) : 0 <= z < 256 -> u8 z = z.
Proof. intros H. unfold u8. apply Z.mod_small. lia. Qed.

Lemma u16_small (z : Z) : 0 <= z < 65536 -> u16 z = z.
Proof. intros H. unfold u16. apply Z.mod_small. lia. Qed.

Lemma u32_small (z : Z) : 0 <= z < 4294967296 -> u32 z = z.
Proof. intros H. unfold u32. apply Z.mod_small. lia. Qed.

(** ** Descriptor catalog *)



Lemma config_blob_size_eq (w : world) : config_blob_size w = 34.
Proof. reflexivity. Qed.

Lemma build_config_blob (w : world) (data : list Z) (len : Z) :
  34 <= len <= 2147483647 ->
  len <= Z.of_nat (List.length data) ->
  build_config w data len =
  Ret (config_bytes (set_wTotalLength (usb_config w) 34)
         ++ interface_bytes usb_interface ++ hid_bytes usb_hid
         ++ firstn 7 (endpoint_bytes (usb_endpoint w))
         ++ skipn 34 data, 34).
Proof.
  intros Hlen Hbuf.
  unfold build_config.
  change sizeof_usb_config with 9. change sizeof_usb_interface with 9.
  change sizeof_usb_hid with 9. change USB_DT_ENDPOINT_SIZE with 7.
  rewrite (wrap_int_small (len - 9)) by lia.
  rewrite (wrap_int_small (len - 9 - 9)) by lia.
  rewrite (wrap_int_small (len - 9 - 9 - 9)) by lia.
  rewrite !size_t_small by lia.
  replace (9 <=? len) with true by (symmetry; apply Z.leb_le; lia).
  replace (9 <=? len - 9) with true by (symmetry; apply Z.leb_le; lia).
  replace (9 <=? len - 9 - 9) with true by (symmetry; apply Z.leb_le; lia).
  replace (7 <=? len - 9 - 9 - 9) with true by (symmetry; apply Z.leb_le; lia).
  assert (Hn : (34 <= List.length data)%nat) by lia.
  clear Hbuf Hlen.
  do 34 (split_buffer data Hn).
  reflexivity.
Qed.

(** C2.  For every state of the globals (whatever total length
    [usb_config] holds) and every caller buffer at least as large as the
    concatenation, [build_config] succeeds, returns the byte sum of the
    configuration, interface, HID-class and endpoint descriptor sizes, and
    the 16-bit total-length field of the assembled configuration header
    holds that same sum; the blob is the four descriptors in order, with
    the header's total length overwritten by the computed value. *)
Theorem build_config_wTotalLength (w : world) (data : list Z) (len : Z)
    (Hfit : config_blob_size w <= len)
    (Hint : len <= 2147483647)
    (Hbuf : len <= Z.of_nat (List.length data)) :
  exists blob : list Z,
    build_config w data len = Ret (blob, config_blob_size w) /\
    read_le16 blob 2 = config_blob_size w /\
    firstn (Z.to_nat (config_blob_size w)) blob =
      config_bytes (set_wTotalLength (usb_config w) (config_blob_size w))
      ++ interface_bytes usb_interface ++ hid_bytes usb_hid
      ++ firstn (Z.to_nat USB_DT_ENDPOINT_SIZE)
                (endpoint_bytes (usb_endpoint w)).
Proof.
  rewrite config_blob_size_eq in *.
  eexists. split; [ apply build_config_blob; lia | ].
  split; [ reflexivity | ].
  change (Z.to_nat 34) with 34%nat.
  reflexivity.
Qed.

Lemma build_config_wTotalLength_witness :
  exists blob : list Z,
    build_config initial_world (repeat 0 256) EP0_MAX_DATA =
      Ret (blob, config_blob_size initial_world) /\
    read_le16 blob 2 = config_blob_size initial_world /\
    firstn (Z.to_nat (config_blob_size initial_world)) blob =
      config_bytes (set_wTotalLength (usb_config initial_world)
                                     (config_blob_size initial_world))
      ++ interface_bytes usb_interface ++ hid_bytes usb_hid
      ++ firstn (Z.to_nat USB_DT_ENDPOINT_SIZE)
                (endpoint_bytes (usb_endpoint initial_world)).
Proof.
  apply (build_config_wTotalLength initial_world (repeat 0 256) EP0_MAX_DATA).
  - vm_compute. discriminate.
  - vm_compute. discriminate.
  - vm_compute. discriminate.
Defined.



(** C9, as stated, fails: string id 4 is not defined, and requested with
    the language id 0x0407 the operation does not answer "unsupported" but
    fails the assertion on the language. *)
Lemma fill_string_descriptor_undefined_id_aborts :
  string_table 4 = None /\
  fill_string_descriptor 4 0x0407 blank_io = Abort /\
  fill_string_descriptor 4 0x0407 blank_io <> Ret (false, blank_io).
Proof. repeat split. vm_compute. discriminate. Qed.

(** C9, amended.  For a request in the language 0x0409 with a nonzero id:
    when the id is defined, the descriptor is formatted with byte 0 equal to
    the payload byte length plus 2, byte 1 equal to the string-descriptor
    type tag, and the UTF-16 payload after them, and the transfer length is
    that of byte 0; when the id is not defined, the answer is "unsupported"
    ([false]) and the buffer is left as it was. *)
Theorem fill_string_descriptor_format (id lang : Z) (io : usb_raw_control_io)
    (Hid : 0 < id) (Hlang : lang = LANG_EN_US) :
  match string_table id with
  | Some payload =>
      exists io' : usb_raw_control_io,
        fill_string_descriptor id lang io = Ret (true, io') /\
        nth 0 (io_data io') 0 = sizeof payload + 2 /\
        nth 1 (io_data io') 0 = USB_DT_STRING /\
        firstn (List.length payload) (skipn 2 (io_data io')) = payload /\
        io_length io' = sizeof payload + 2
  | None => fill_string_descriptor id lang io = Ret (false, io)
  end.
Proof.
  subst lang. unfold string_table, fill_string_descriptor.
  replace ((id =? 0) && (LANG_EN_US =? 0)) with false
    by (symmetry; apply andb_false_intro2; reflexivity).
  replace (0 <? id) with true by (symmetry; apply Z.ltb_lt; exact Hid).
  rewrite Z.eqb_refl. cbn [assert bind].
  destruct (id =? STRING_ID_MANUFACTURER);
    [ eexists; repeat split; reflexivity | ].
  destruct (id =? STRING_ID_PRODUCT);
    [ eexists; repeat split; reflexivity | ].
  destruct (id =? STRING_ID_SERIAL);
    [ eexists; repeat split; reflexivity | ].
  reflexivity.
Qed.

Lemma fill_string_descriptor_format_witness :
  exists io' : usb_raw_control_io,
    fill_string_descriptor 3 LANG_EN_US blank_io = Ret (true, io') /\
    nth 0 (io_data io') 0 = sizeof serial_en_us + 2 /\
    nth 1 (io_data io') 0 = USB_DT_STRING /\
    firstn (List.length serial_en_us) (skipn 2 (io_data io')) = serial_en_us /\
    io_length io' = sizeof serial_en_us + 2.
Proof.
  exact (fill_string_descriptor_format 3 LANG_EN_US blank_io
           (eq_refl : (0 ?= 3) = Lt) eq_refl).
Defined.

(** ** Report generator *)

Lemma step_on_path (s : motion_state) : on_path s -> on_path (step s).
Proof.
  destruct s as [d r]. destruct d; unfold on_path, step;
    cbn [x y set_x set_y]; unfold STEPSIZE, MAX_X, MAX_Y, BORDER;
    intros (H1 & H2 & H3).
  - rewrite u16_small by lia.
    destruct (16000 - 2000 <=? x r + 100) eqn:E;
      [ apply Z.leb_le in E | apply Z.leb_gt in E ];
      cbn [x y set_x set_y]; Z.div_mod_to_equations; lia.
  - rewrite u16_small by lia.
    destruct (9000 - 2000 <=? y r + 100) eqn:E;
      [ apply Z.leb_le in E | apply Z.leb_gt in E ];
      cbn [x y set_x set_y]; Z.div_mod_to_equations; lia.
  - rewrite u16_small by lia.
    destruct (x r - 100 <=? 2000) eqn:E;
      [ apply Z.leb_le in E | apply Z.leb_gt in E ];
      cbn [x y set_x set_y]; Z.div_mod_to_equations; lia.
  - rewrite u16_small by lia.
    destruct (y r - 100 <=? 2000) eqn:E;
      [ apply Z.leb_le in E | apply Z.leb_gt in E ];
      cbn [x y set_x set_y]; Z.div_mod_to_equations; lia.
Qed.

Lemma ep_int_in_loop_on_path (n : nat) : on_path (ep_int_in_loop n).
Proof.
  induction n as [| n IH].
  - cbn. lia.
  - cbn [ep_int_in_loop]. apply step_on_path, IH.
Qed.

Lemma on_path_in_rectangle (s : motion_state) :
  on_path s ->
  2000 <= x (snd s) <= 14000 /\ 2000 <= y (snd s) <= 7000.
Proof.
  destruct s as [d r]. destruct d; cbn [on_path snd]; lia.
Qed.

Lemma step_direction (s : motion_state) :
  fst (step s) = fst s \/ fst (step s) = clockwise (fst s).
Proof.
  destruct s as [d r]. destruct d; unfold step;
    match goal with |- context [if ?c then _ else _] => destruct c end;
    cbn [fst clockwise]; auto.
Qed.

Lemma ep_int_in_loop_traversal : ep_int_in_loop traversal = initial_motion.
Proof. vm_compute. reflexivity. Qed.

Lemma ep_int_in_loop_periodic (k j : nat) :
  ep_int_in_loop (j + k * traversal) = ep_int_in_loop j.
Proof.
  induction k as [| k IHk].
  - rewrite Nat.mul_0_l, Nat.add_0_r. reflexivity.
  - replace (j + S k * traversal)%nat with ((j + k * traversal) + traversal)%nat
      by lia.
    rewrite <- IHk. generalize (j + k * traversal)%nat as m. intros m.
    induction m as [| m IHm].
    + rewrite Nat.add_0_l. apply ep_int_in_loop_traversal.
    + replace (S m + traversal)%nat with (S (m + traversal)) by lia.
      cbn [ep_int_in_loop]. rewrite IHm. reflexivity.
Qed.

Lemma seq_shift_by (c n a : nat) :
  map (fun j => (j + c)%nat) (seq a n) = seq (a + c) n.
Proof.
  revert a. induction n as [| n IHn]; intros a.
  - reflexivity.
  - cbn [seq map]. rewrite IHn. reflexivity.
Qed.

Lemma directions_periodic (k : nat) :
  directions (k * traversal) traversal = directions 0 traversal.
Proof.
  unfold directions.
  change (k * traversal)%nat with (0 + k * traversal)%nat.
  rewrite <- seq_shift_by, map_map.
  apply map_ext. intros j. f_equal. apply ep_int_in_loop_periodic.
Qed.

(** C3.  From the initial motion state (x = 2000, y = 2000, heading right),
    after any number of 100-unit steps the position lies in the rectangle
    [2000,14000] x [2000,7000]; a step either keeps the direction or turns
    to its clockwise successor (right, down, left, up, right); the motion
    returns to its start after every traversal of the rectangle; and during
    every traversal the directions are taken up in the order right, down,
    left, up, each exactly once. *)
Theorem motion_stays_on_rectangle (n k : nat) :
  fst initial_motion = MOTION_RIGHT /\
  x (snd initial_motion) = 2000 /\ y (snd initial_motion) = 2000 /\
  STEPSIZE = 100 /\
  (2000 <= x (snd (ep_int_in_loop n)) <= 14000 /\
   2000 <= y (snd (ep_int_in_loop n)) <= 7000) /\
  (fst (ep_int_in_loop (S n)) = fst (ep_int_in_loop n) \/
   fst (ep_int_in_loop (S n)) = clockwise (fst (ep_int_in_loop n))) /\
  ep_int_in_loop (n + k * traversal) = ep_int_in_loop n /\
  runs (directions (k * traversal) traversal) =
    [MOTION_RIGHT; MOTION_DOWN; MOTION_LEFT; MOTION_UP].
Proof.
  do 4 (split; [ reflexivity | ]).
  split; [ apply on_path_in_rectangle, ep_int_in_loop_on_path | ].
  split; [ cbn [ep_int_in_loop]; apply step_direction | ].
  split; [ apply ep_int_in_loop_periodic | ].
  rewrite directions_periodic. vm_compute. reflexivity.
Qed.

(** ** Endpoint negotiator *)

Lemma world_eta (w : world) :
  set_addr (set_usb_endpoint w (usb_endpoint w)) (addr w) = w.
Proof. destruct w. reflexivity. Qed.

Lemma assign_ep_address_assigned (info : usb_raw_ep_info)
    (ep : usb_endpoint_descriptor) (a : Z) :
  usb_endpoint_num ep <> 0 -> assign_ep_address info ep a = Ret (false, ep, a).
Proof.
  intros H. unfold assign_ep_address.
  apply Z.eqb_neq in H. rewrite H. reflexivity.
Qed.

Lemma assign_loop_assigned (eps : list usb_raw_ep_info) (w : world) :
  usb_endpoint_num (usb_endpoint w) <> 0 -> assign_loop eps w = (Ret tt, w).
Proof.
  intros H. induction eps as [| info rest IH].
  - reflexivity.
  - cbn [assign_loop]. unfold mbind, get, lift, modify.
    rewrite assign_ep_address_assigned by exact H.
    rewrite world_eta. exact IH.
Qed.

(** C7.  On an endpoint whose address is already nonzero the assignment
    operation answers [false] and leaves the endpoint descriptor and the
    address counter as they were; and a connect event that finds the
    endpoint already assigned changes neither, whatever table the
    controller reports: [process_eps_info] only makes its query (and the
    process exits when that query fails). *)
Theorem assign_ep_address_idempotent (env : environment)
    (info : usb_raw_ep_info) (w : world)
    (Hassigned : usb_endpoint_num (usb_endpoint w) <> 0) :
  assign_ep_address info (usb_endpoint w) (addr w)
    = Ret (false, usb_endpoint w, addr w) /\
  usb_endpoint (snd (process_eps_info env w)) = usb_endpoint w /\
  addr (snd (process_eps_info env w)) = addr w /\
  process_eps_info env w =
    (let rv := ioctl env (calls w) EPS_INFO in
     (if rv <? 0 then Exit else Ret tt, record_call w EPS_INFO rv)).
Proof.
  split; [ apply assign_ep_address_assigned, Hassigned | ].
  assert (E : process_eps_info env w =
              (let rv := ioctl env (calls w) EPS_INFO in
               (if rv <? 0 then Exit else Ret tt, record_call w EPS_INFO rv))).
  { unfold process_eps_info, mbind, get, usb_raw_eps_info, usb_raw_ioctl.
    cbv zeta. destruct (ioctl env (calls w) EPS_INFO <? 0); [ reflexivity | ].
    rewrite assign_loop_assigned by exact Hassigned.
    unfold lift, assert. cbn [usb_endpoint record_call].
    apply Z.eqb_neq in Hassigned. rewrite Hassigned. reflexivity. }
  rewrite E. cbv zeta. cbn [snd usb_endpoint addr record_call].
  repeat split.
Qed.

Lemma assign_ep_address_idempotent_witness :
  let w := set_usb_endpoint initial_world
             (set_bEndpointAddress usb_endpoint_init 0x81) in
  assign_ep_address (int_in_info USB_RAW_EP_ADDR_ANY) (usb_endpoint w) (addr w)
    = Ret (false, usb_endpoint w, addr w) /\
  usb_endpoint (snd (process_eps_info quiet_env w)) = usb_endpoint w /\
  addr (snd (process_eps_info quiet_env w)) = addr w /\
  process_eps_info quiet_env w =
    (let rv := ioctl quiet_env (calls w) EPS_INFO in
     (if rv <? 0 then Exit else Ret tt, record_call w EPS_INFO rv)).
Proof.
  intros w.
  apply (assign_ep_address_idempotent quiet_env
           (int_in_info USB_RAW_EP_ADDR_ANY) w).
  vm_compute. discriminate.
Defined.

Lemma assign_ep_address_cases (info : usb_raw_ep_info)
    (ep ep' : usb_endpoint_descriptor) (a a' : Z) (ok : bool) :
  assign_ep_address info ep a = Ret (ok, ep', a') ->
  (ok = false /\ ep' = ep /\ a' = a) \/
  (ok = true /\ usb_endpoint_num ep = 0 /\
   info_addr info = USB_RAW_EP_ADDR_ANY /\
   bEndpointAddress ep' = u8 (Z.lor (bEndpointAddress ep) a) /\
   a' = wrap_int (a + 1)) \/
  (ok = true /\ usb_endpoint_num ep = 0 /\
   info_addr info <> USB_RAW_EP_ADDR_ANY /\
   bEndpointAddress ep' = u8 (Z.lor (bEndpointAddress ep) (info_addr info)) /\
   a' = a).
Proof.
  unfold assign_ep_address.
  destruct (usb_endpoint_num ep =? 0) eqn:En; cbn [negb];
    [ apply Z.eqb_eq in En | intros [= <- <- <-]; auto ].
  destruct (usb_endpoint_dir_in ep && negb (dir_in (caps info)));
    [ intros [= <- <- <-]; auto | ].
  destruct (usb_endpoint_dir_out ep && negb (dir_out (caps info)));
    [ intros [= <- <- <-]; auto | ].
  assert (Hrest : forall supported : bool,
    (if negb supported then Ret (false, ep, a)
     else if info_addr info =? USB_RAW_EP_ADDR_ANY
     then Ret (true,
               set_bEndpointAddress ep (u8 (Z.lor (bEndpointAddress ep) a)),
               wrap_int (a + 1))
     else Ret (true,
               set_bEndpointAddress ep
                 (u8 (Z.lor (bEndpointAddress ep) (info_addr info))), a))
    = Ret (ok, ep', a') ->
    (ok = false /\ ep' = ep /\ a' = a) \/
    (ok = true /\ usb_endpoint_num ep = 0 /\
     info_addr info = USB_RAW_EP_ADDR_ANY /\
     bEndpointAddress ep' = u8 (Z.lor (bEndpointAddress ep) a) /\
     a' = wrap_int (a + 1)) \/
    (ok = true /\ usb_endpoint_num ep = 0 /\
     info_addr info <> USB_RAW_EP_ADDR_ANY /\
     bEndpointAddress ep' = u8 (Z.lor (bEndpointAddress ep) (info_addr info)) /\
     a' = a)).
  { intros supported. destruct supported; cbn [negb];
      [ | intros [= <- <- <-]; auto ].
    destruct (info_addr info =? USB_RAW_EP_ADDR_ANY) eqn:Ea;
      [ apply Z.eqb_eq in Ea | apply Z.eqb_neq in Ea ];
      intros [= <- <- <-]; [ right; left | right; right ]; auto. }
  destruct (usb_endpoint_type ep =? USB_ENDPOINT_XFER_BULK);
    [ exact (Hrest _) | ].
  destruct (usb_endpoint_type ep =? USB_ENDPOINT_XFER_INT);
    [ exact (Hrest _) | ].
  cbn. discriminate.
Qed.

Lemma endpoint_num_after_or (b v : Z) :
  0 <= v <= 15 -> Z.land b 15 = 0 -> Z.land (u8 (Z.lor b v)) 15 = v.
Proof.
  intros Hv Hb. unfold u8. change 256 with (2 ^ 8).
  rewrite <- Z.land_ones by lia. rewrite <- Z.land_assoc.
  change (Z.land (Z.ones 8) 15) with 15.
  rewrite Z.land_lor_distr_l, Hb, Z.lor_0_l.
  change 15 with (Z.ones 4). rewrite Z.land_ones by lia.
  apply Z.mod_small. change (2 ^ 4) with 16. lia.
Qed.

Lemma assign_calls_counter (reqs : list (usb_raw_ep_info * usb_endpoint_descriptor)) :
  forall (a a' : Z) (log : list assignment),
    assign_calls reqs a = Ret (log, a') ->
    -2147483648 <= a ->
    a + Z.of_nat (List.length reqs) <= 2147483647 ->
    a' = a + Z.of_nat (List.length (filter any_address_success log)) /\
    (forall (n : nat) (e : assignment),
        nth_error (filter any_address_success log) n = Some e ->
        usb_endpoint_num (a_before e) = 0 /\
        bEndpointAddress (a_after e) =
          u8 (Z.lor (bEndpointAddress (a_before e)) (a + Z.of_nat n))) /\
    (forall e : assignment,
        In e log -> a_ok e = true ->
        info_addr (a_info e) <> USB_RAW_EP_ADDR_ANY ->
        usb_endpoint_num (a_before e) = 0 /\
        bEndpointAddress (a_after e) =
          u8 (Z.lor (bEndpointAddress (a_before e)) (info_addr (a_info e)))).
Proof.
  induction reqs as [| [info ep] rest IH]; intros a a' log Hrun Hlo Hhi.
  - injection Hrun as <- <-. cbn [filter List.length].
    split; [ lia | ]. split.
    + intros n e He. destruct n; discriminate.
    + intros e [].
  - cbn [assign_calls] in Hrun. cbn [List.length] in Hhi.
    destruct (assign_ep_address info ep a) as [[[ok ep1] a1] | |] eqn:Ecall;
      cbn [bind] in Hrun; try discriminate.
    destruct (assign_calls rest a1) as [[log1 a2] | |] eqn:Erest;
      cbn [bind] in Hrun; try discriminate.
    injection Hrun as <- <-.
    apply assign_ep_address_cases in Ecall.
    destruct Ecall as [(-> & -> & ->) | [(-> & Hnum & Hany & Hb & ->)
                                        | (-> & Hnum & Hfix & Hb & ->)]].
    + (* refused *)
      destruct (IH a a2 log1 Erest Hlo ltac:(lia)) as (Ha & Hn & Hf).
      cbn [filter any_address_success a_ok andb].
      split; [ exact Ha | ]. split; [ exact Hn | ].
      intros e [<- | Hin] Hok Hfix; [ discriminate | exact (Hf e Hin Hok Hfix) ].
    + (* any address: the counter is consumed *)
      rewrite wrap_int_small in Erest by lia.
      destruct (IH (a + 1) a2 log1 Erest ltac:(lia) ltac:(lia))
        as (Ha & Hn & Hf).
      cbn [filter any_address_success a_ok a_info andb].
      rewrite Hany, Z.eqb_refl. cbn [List.length].
      split; [ lia | ]. split.
      * intros [| n] e He; cbn [nth_error] in He.
        -- injection He as <-. cbn [a_after a_before].
           split; [ exact Hnum | ]. rewrite Hb. f_equal. f_equal. lia.
        -- destruct (Hn n e He) as [H0 ->].
           split; [ exact H0 | ]. f_equal. f_equal. lia.
      * intros e [<- | Hin] Hok Hfix;
          [ contradiction | exact (Hf e Hin Hok Hfix) ].
    + (* fixed address: the counter is left alone *)
      destruct (IH a a2 log1 Erest Hlo ltac:(lia)) as (Ha & Hn & Hf).
      cbn [filter any_address_success a_ok a_info andb].
      apply Z.eqb_neq in Hfix. rewrite Hfix.
      split; [ exact Ha | ]. split; [ exact Hn | ].
      intros e [<- | Hin] Hok Hfix';
        [ split; [ exact Hnum | exact Hb ] | exact (Hf e Hin Hok Hfix') ].
Qed.

(** C8, as stated, fails: of sixteen successive assignments against "any
    address" entries, all successful, the sixteenth puts the counter value
    16 into an address byte whose endpoint-number field has four bits: the
    byte is 0x90 and the address received is 0, not 16. *)
Lemma sixteenth_assignment_has_number_zero :
  exists (log : list assignment) (e : assignment),
    assign_calls sixteen_reqs (addr initial_world) = Ret (log, 17) /\
    filter any_address_success log = log /\
    map (fun e => usb_endpoint_num (a_after e)) log =
      [1; 2; 3; 4; 5; 6; 7; 8; 9; 10; 11; 12; 13; 14; 15; 0] /\
    nth_error log 15 = Some e /\
    bEndpointAddress (a_after e) = 0x90 /\
    usb_endpoint_num (a_after e) <> 16.
Proof.
  destruct (assign_calls sixteen_reqs (addr initial_world))
    as [[log counter] | |] eqn:Erun; try (vm_compute in Erun; discriminate).
  vm_compute in Erun. injection Erun as <- <-.
  eexists. eexists.
  split; [ reflexivity | ].
  split; [ reflexivity | ].
  split; [ reflexivity | ].
  split; [ reflexivity | ].
  split; [ reflexivity | ].
  vm_compute. discriminate.
Qed.

(** C8, amended.  Over any succession of calls of the assignment operation within
    one process (the counter starting at 1), the n-th successful assignment
    against an "any address" entry puts the value n into the endpoint
    address: the values start at 1 and grow by exactly 1 per such
    assignment, and refused calls and fixed-address assignments consume
    none.  For n up to 15, the largest endpoint number there is, the
    endpoint number read back is n.  A successful assignment against an
    entry with a fixed address puts that controller-specified address into
    the endpoint address. *)
Theorem assign_ep_address_sequence
    (reqs : list (usb_raw_ep_info * usb_endpoint_descriptor))
    (log : list assignment) (counter : Z)
    (Hrun : assign_calls reqs (addr initial_world) = Ret (log, counter))
    (Hint : Z.of_nat (List.length reqs) < 2147483647) :
  addr initial_world = 1 /\
  counter = 1 + Z.of_nat (List.length (filter any_address_success log)) /\
  (forall (n : nat) (e : assignment),
      nth_error (filter any_address_success log) n = Some e ->
      bEndpointAddress (a_after e) =
        u8 (Z.lor (bEndpointAddress (a_before e)) (Z.of_nat (S n))) /\
      (Z.of_nat (S n) <= 15 -> usb_endpoint_num (a_after e) = Z.of_nat (S n))) /\
  (forall e : assignment,
      In e log -> a_ok e = true ->
      info_addr (a_info e) <> USB_RAW_EP_ADDR_ANY ->
      bEndpointAddress (a_after e) =
        u8 (Z.lor (bEndpointAddress (a_before e)) (info_addr (a_info e))) /\
      (0 <= info_addr (a_info e) <= 15 ->
       usb_endpoint_num (a_after e) = info_addr (a_info e))).
Proof.
  change (addr initial_world) with 1 in *.
  destruct (assign_calls_counter reqs 1 counter log Hrun ltac:(lia) ltac:(lia))
    as (Hc & Hn & Hf).
  split; [ reflexivity | ]. split; [ exact Hc | ]. split.
  - intros n e He. destruct (Hn n e He) as (H0 & Hb).
    replace (Z.of_nat (S n)) with (1 + Z.of_nat n) by lia.
    split; [ exact Hb | ].
    intros Hsmall. unfold usb_endpoint_num. rewrite Hb.
    apply endpoint_num_after_or; [ lia | exact H0 ].
  - intros e Hin Hok Hfix. destruct (Hf e Hin Hok Hfix) as (H0 & Hb).
    split; [ exact Hb | ].
    intros Hsmall. unfold usb_endpoint_num. rewrite Hb.
    apply endpoint_num_after_or; [ lia | exact H0 ].
Qed.

Lemma assign_ep_address_sequence_witness :
  addr initial_world = 1 /\
  3 = 1 + Z.of_nat (List.length (filter any_address_success sample_log)) /\
  (forall (n : nat) (e : assignment),
      nth_error (filter any_address_success sample_log) n = Some e ->
      bEndpointAddress (a_after e) =
        u8 (Z.lor (bEndpointAddress (a_before e)) (Z.of_nat (S n))) /\
      (Z.of_nat (S n) <= 15 -> usb_endpoint_num (a_after e) = Z.of_nat (S n))) /\
  (forall e : assignment,
      In e sample_log -> a_ok e = true ->
      info_addr (a_info e) <> USB_RAW_EP_ADDR_ANY ->
      bEndpointAddress (a_after e) =
        u8 (Z.lor (bEndpointAddress (a_before e)) (info_addr (a_info e))) /\
      (0 <= info_addr (a_info e) <= 15 ->
       usb_endpoint_num (a_after e) = info_addr (a_info e))).
Proof.
  apply (assign_ep_address_sequence sample_reqs sample_log 3).
  - vm_compute. reflexivity.
  - vm_compute. reflexivity.
Defined.

Example sample_log_addresses :
  map (fun e => (a_ok e, bEndpointAddress (a_after e))) sample_log =
  [(true, 0x81); (true, 0x85); (true, 0x82)].
Proof. reflexivity. Qed.

(** ** Control transfer dispatcher *)

Lemma land_255_range (v : Z) : 0 <= Z.land v 255 < 256.
Proof.
  change 255 with (Z.ones 8). rewrite Z.land_ones by lia.
  apply Z.mod_pos_bound. reflexivity.
Qed.

Lemma u8_land_255 (v : Z) : u8 (Z.land v 255) = Z.land v 255.
Proof. apply u8_small, land_255_range. Qed.

(** What [fill_string_descriptor] answers, by (id, language) pairing. *)
Lemma fill_string_descriptor_outcome (id lang : Z) (io : usb_raw_control_io) :
  0 <= id ->
  (fill_string_descriptor id lang io = Ret (false, io) /\
   id <> 0 /\ lang = LANG_EN_US /\ id <> 1 /\ id <> 2 /\ id <> 3) \/
  (fill_string_descriptor id lang io = Abort /\
   ~ (id = 0 /\ lang = 0) /\ (id = 0 \/ lang <> LANG_EN_US)) \/
  ((exists io', fill_string_descriptor id lang io = Ret (true, io')) /\
   ((id = 0 /\ lang = 0) \/
    (lang = LANG_EN_US /\ (id = 1 \/ id = 2 \/ id = 3)))).
Proof.
  intros Hid. unfold fill_string_descriptor. unfold_codes.
  case_tests; cbn [andb assert bind];
    try (left; repeat split; (reflexivity || lia));
    try (right; left; repeat split; (reflexivity || lia));
    try (right; right; split; [ eexists; reflexivity | lia ]).
Qed.

(** What the dispatcher answers to a string request: what
    [fill_string_descriptor] answers, the state untouched. *)
Lemma ep0_request_string (env : environment) (ev : usb_raw_control_event)
    (io : usb_raw_control_io) (w : world) :
  is_string_request (ctrl ev) = true ->
  0 <= wIndex (ctrl ev) < 65536 ->
  ep0_request env ev io w =
    (fill_string_descriptor (string_id (ctrl ev)) (wIndex (ctrl ev)) io, w).
Proof.
  unfold is_string_request, is_get_descriptor, request_class, descriptor_type,
    string_id, ep0_request.
  intros H Hidx. rewrite u8_land_255, u16_small by exact Hidx.
  apply andb_prop in H. destruct H as [H H3].
  apply andb_prop in H. destruct H as [H1 H2].
  rewrite H1, H2, H3.
  replace (Z.shiftr (wValue (ctrl ev)) 8 =? USB_DT_DEVICE) with false
    by (apply Z.eqb_eq in H3; rewrite H3; reflexivity).
  replace (Z.shiftr (wValue (ctrl ev)) 8 =? USB_DT_DEVICE_QUALIFIER) with false
    by (apply Z.eqb_eq in H3; rewrite H3; reflexivity).
  replace (Z.shiftr (wValue (ctrl ev)) 8 =? USB_DT_CONFIG) with false
    by (apply Z.eqb_eq in H3; rewrite H3; reflexivity).
  reflexivity.
Qed.

(** A request that is not a string request is never answered [false]:
    the dispatcher answers [true], or the process ends. *)
Lemma ep0_request_not_string (env : environment) (ev : usb_raw_control_event)
    (io : usb_raw_control_io) (w : world) :
  is_string_request (ctrl ev) = false ->
  forall io', fst (ep0_request env ev io w) <> Ret (false, io').
Proof.
  unfold is_string_request, is_get_descriptor, request_class, descriptor_type,
    ep0_request.
  unfold mbind, get, ret, lift, exit, modify, pthread_create,
    usb_raw_ep_enable, usb_raw_vbus_draw, usb_raw_configure, usb_raw_ioctl.
  cbv beta zeta. unfold_codes.
  intros H io'. revert H.
  case_tests; cbn [andb negb fst bind]; intros Hreq;
    try discriminate Hreq; try discriminate;
    try (destruct (pthread_create_result env (calls w)) as [rv thread];
         cbn [fst]; discriminate).
Qed.

(** The requests the dispatcher has no case for end the process with
    [exit], the state untouched. *)
Lemma ep0_request_unrecognized (env : environment) (ev : usb_raw_control_event)
    (io : usb_raw_control_io) (w : world) :
  unrecognized (ctrl ev) = true -> ep0_request env ev io w = (Exit, w).
Proof.
  unfold unrecognized, unknown_standard_request, unknown_descriptor_type,
    unknown_class_request, vendor_request, unknown_request_class,
    is_get_descriptor, request_class, descriptor_type, ep0_request.
  unfold_codes.
  case_tests; cbn [andb orb negb]; intros Hreq; try discriminate Hreq;
    try reflexivity; congruence.
Qed.

(** C10.  The dispatcher answers [false] (the stall outcome) exactly for a
    GET_DESCRIPTOR(STRING) request in the language 0x0409 with a nonzero
    string id outside {1, 2, 3}, and then leaves buffer and state as they
    were.  Every request it has no case for (unknown standard request code,
    unknown GET_DESCRIPTOR sub-type, unknown class request, any vendor
    request, unknown request-type class) ends the process with [exit].  A
    string request with any other (id, language) pairing that is not
    answered fails an assertion. *)
Theorem ep0_request_stall_shape (env : environment)
    (ev : usb_raw_control_event) (io : usb_raw_control_io) (w : world)
    (Hwf : wf_ctrlrequest (ctrl ev)) :
  ((exists io', fst (ep0_request env ev io w) = Ret (false, io'))
   <-> stall_shape (ctrl ev) = true) /\
  (stall_shape (ctrl ev) = true ->
   ep0_request env ev io w = (Ret (false, io), w)) /\
  (unrecognized (ctrl ev) = true -> ep0_request env ev io w = (Exit, w)) /\
  (other_string_pairing (ctrl ev) = true ->
   ep0_request env ev io w = (Abort, w)).
Proof.
  destruct Hwf as (_ & _ & _ & Hidx & _).
  assert (Hexit := ep0_request_unrecognized env ev io w).
  destruct (is_string_request (ctrl ev)) eqn:Hs.
  - rewrite (ep0_request_string env ev io w Hs Hidx) in *.
    clear Hexit. unfold unrecognized, unknown_standard_request,
      unknown_descriptor_type, unknown_class_request, vendor_request,
      unknown_request_class, stall_shape, other_string_pairing.
    rewrite Hs. unfold is_string_request in Hs.
    apply andb_prop in Hs. destruct Hs as [Hg Hd]. rewrite Hg.
    unfold is_get_descriptor in Hg.
    apply andb_prop in Hg. destruct Hg as [Hc Hr].
    apply Z.eqb_eq in Hc, Hr, Hd. rewrite Hc, Hr, Hd.
    assert (Hid := land_255_range (wValue (ctrl ev))).
    fold (string_id (ctrl ev)) in Hid.
    destruct (fill_string_descriptor_outcome
                (string_id (ctrl ev)) (wIndex (ctrl ev)) io ltac:(lia))
      as [(E & H0 & Hl & H1 & H2 & H3)
         | [(E & Hn & Ho) | ((io1 & E) & Hv)]];
      rewrite E; unfold_codes; cbn [fst andb orb negb Z.eqb Pos.eqb].
    + repeat split; case_tests; cbn [andb orb negb]; intros;
        try reflexivity; try discriminate; try lia; eauto.
    + repeat split; case_tests; cbn [andb orb negb]; intros;
        try reflexivity; try discriminate; try lia;
        try (destruct H as [io2 H]; discriminate).
    + repeat split; case_tests; cbn [andb orb negb]; intros;
        try reflexivity; try discriminate; try lia;
        try (destruct H as [io2 H]; discriminate).
  - unfold stall_shape, other_string_pairing. rewrite Hs. cbn [andb].
    repeat split; intros; try discriminate; try (apply Hexit; assumption).
    destruct H as [io' H].
    exfalso. exact (ep0_request_not_string env ev io w Hs io' H).
Qed.

Lemma ep0_request_stall_shape_witness :
  (exists io',
      fst (ep0_request quiet_env (control_event undefined_string_request)
             blank_io initial_world) = Ret (false, io')) /\
  ep0_request quiet_env (control_event undefined_string_request)
    blank_io initial_world = (Ret (false, blank_io), initial_world).
Proof.
  assert (Hwf : wf_ctrlrequest (ctrl (control_event undefined_string_request))).
  { unfold wf_ctrlrequest. cbn. unfold USB_REQ_GET_DESCRIPTOR, LANG_EN_US. lia. }
  destruct (ep0_request_stall_shape quiet_env
              (control_event undefined_string_request) blank_io initial_world
              Hwf) as (Hiff & Hstall & _ & _).
  split.
  - apply Hiff. reflexivity.
  - apply Hstall. reflexivity.
Defined.

Example stall_for_undefined_string :
  stall_shape undefined_string_request = true /\
  ep0_request quiet_env (control_event undefined_string_request)
    blank_io initial_world = (Ret (false, blank_io), initial_world).
Proof. split; reflexivity. Qed.

Example abort_for_other_language :
  ep0_request quiet_env
    (control_event {| bRequestType := 0x80; bRequest := USB_REQ_GET_DESCRIPTOR;
                      wValue := 0x0301; wIndex := 0x0407; wLength := 255 |})
    blank_io initial_world = (Abort, initial_world).
Proof. reflexivity. Qed.

Example exit_for_vendor_request :
  ep0_request quiet_env
    (control_event {| bRequestType := 0xC0; bRequest := 1;
                      wValue := 0; wIndex := 0; wLength := 0 |})
    blank_io initial_world = (Exit, initial_world).
Proof. reflexivity. Qed.

(** ** Event loop *)


(** One iteration of the loop on a control event, step by step. *)
Lemma ep0_loop_body_control (env : environment) (ev : usb_raw_control_event)
    (w : world) :
  inner_type ev = USB_RAW_EVENT_CONTROL ->
  ep0_loop_body env ev w =
    let rv := ioctl env (calls w) EVENT_FETCH in
    let w1 := record_call w EVENT_FETCH rv in
    if rv <? 0 then (Exit, w1)
    else
      match ep0_request env ev (fresh_io env w1) w1 with
      | (Ret (false, _), w2) =>
          let rv2 := ioctl env (calls w2) EP0_STALL in
          (if rv2 <? 0 then Exit else Ret tt, record_call w2 EP0_STALL rv2)
      | (Ret (true, io), w2) =>
          let io_t := if wLength (ctrl ev) <? io_length io
                      then set_io_length io (wLength (ctrl ev)) else io in
          let xfer := if Z.land (bRequestType (ctrl ev)) USB_DIR_IN =? 0
                      then EP0_READ io_t else EP0_WRITE io_t in
          let rv3 := ioctl env (calls w2) xfer in
          (if rv3 <? 0 then Exit else Ret tt, record_call w2 xfer rv3)
      | (Exit, w2) => (Exit, w2)
      | (Abort, w2) => (Abort, w2)
      end.
Proof.
  intros Hctl. unfold ep0_loop_body. rewrite Hctl.
  change (USB_RAW_EVENT_CONTROL =? USB_RAW_EVENT_CONNECT) with false.
  change (negb (USB_RAW_EVENT_CONTROL =? USB_RAW_EVENT_CONTROL)) with false.
  unfold mbind at 1. unfold usb_raw_event_fetch, usb_raw_ioctl. cbv zeta.
  destruct (ioctl env (calls w) EVENT_FETCH <? 0); [ reflexivity | ].
  unfold mbind, ret, get. fold (fresh_io env (record_call w EVENT_FETCH
                                   (ioctl env (calls w) EVENT_FETCH))).
  destruct (ep0_request env ev _ _) as [[[[] io] | |] w2]; cbn [negb].
  - unfold usb_raw_ep0_write, usb_raw_ep0_read, usb_raw_ioctl.
    destruct (Z.land (bRequestType (ctrl ev)) USB_DIR_IN =? 0); cbn [negb];
      match goal with
      | |- context [ioctl env ?h ?c <? 0] => destruct (ioctl env h c <? 0)
      end; reflexivity.
  - unfold usb_raw_ep0_stall, usb_raw_ioctl.
    destruct (ioctl env (calls w2) EP0_STALL <? 0); reflexivity.
  - reflexivity.
  - reflexivity.
Qed.


Lemma count_calls_app (p : call -> bool) (h1 h2 : history) :
  count_calls p (h1 ++ h2) = (count_calls p h1 + count_calls p h2)%nat.
Proof. unfold count_calls. rewrite filter_app. apply length_app. Qed.


Lemma set_io_length_same (io : usb_raw_control_io) :
  set_io_length io (io_length io) = io.
Proof. destruct io. reflexivity. Qed.

Lemma ep0_request_device (env : environment) (ev : usb_raw_control_event)
    (io : usb_raw_control_io) (w : world) :
  is_get_descriptor (ctrl ev) = true ->
  descriptor_type (ctrl ev) = USB_DT_DEVICE ->
  ep0_request env ev io w =
    (Ret (true,
          set_io_length
            (set_io_data io (device_bytes usb_device ++ skipn 18 (io_data io)))
            18), w).
Proof.
  unfold is_get_descriptor, request_class, descriptor_type, ep0_request.
  intros Hg Hd. apply andb_prop in Hg. destruct Hg as [Hc Hr].
  rewrite Hc, Hr, Hd. reflexivity.
Qed.

(** C1.  In an iteration of the loop in which the dispatcher computes a
    response of length L for a request declaring wLength, the one transfer
    issued has the length min(wLength, L): it is cut down to wLength when
    wLength < L and is never longer than L; the buffer is the one the
    dispatcher filled and the direction is that of the request.  For
    GET_DESCRIPTOR(DEVICE) the response is the 18-byte device descriptor:
    with wLength = 18 the transfer sends exactly these 18 bytes, with
    wLength = 8 only the first 8 of them. *)
Theorem ep0_loop_transfer_length (env : environment)
    (ev : usb_raw_control_event) (w w2 : world) (io : usb_raw_control_io)
    (Hctl : inner_type ev = USB_RAW_EVENT_CONTROL)
    (Hfetch : 0 <= ioctl env (calls w) EVENT_FETCH)
    (Hreply :
       let w1 := record_call w EVENT_FETCH (ioctl env (calls w) EVENT_FETCH) in
       ep0_request env ev (fresh_io env w1) w1 = (Ret (true, io), w2)) :
  let io_t := set_io_length io (Z.min (wLength (ctrl ev)) (io_length io)) in
  let xfer := if Z.land (bRequestType (ctrl ev)) USB_DIR_IN =? 0
              then EP0_READ io_t else EP0_WRITE io_t in
  let rv := ioctl env (calls w2) xfer in
  ep0_loop_body env ev w
    = (if rv <? 0 then Exit else Ret tt, record_call w2 xfer rv) /\
  io_length io_t = Z.min (wLength (ctrl ev)) (io_length io) /\
  io_length io_t <= io_length io /\
  (wLength (ctrl ev) < io_length io -> io_length io_t = wLength (ctrl ev)) /\
  io_data io_t = io_data io /\
  (is_get_descriptor (ctrl ev) = true ->
   descriptor_type (ctrl ev) = USB_DT_DEVICE ->
   io_length io = sizeof (device_bytes usb_device) /\
   sizeof (device_bytes usb_device) = 18 /\
   (wLength (ctrl ev) = 18 -> transferred io_t = device_bytes usb_device) /\
   (wLength (ctrl ev) = 8 ->
    transferred io_t = firstn 8 (device_bytes usb_device))).
Proof.
  cbv zeta in Hreply |- *.
  split; [ | split; [ reflexivity | split; [ cbn [io_length set_io_length]; lia
         | split; [ cbn [io_length set_io_length]; lia
         | split; [ reflexivity | ] ] ] ] ].
  - rewrite (ep0_loop_body_control env ev w Hctl). cbv zeta.
    apply Z.ltb_ge in Hfetch. rewrite Hfetch, Hreply.
    destruct (Z.ltb_spec (wLength (ctrl ev)) (io_length io)) as [Hlt | Hge].
    + rewrite Z.min_l by lia. reflexivity.
    + rewrite Z.min_r by lia. rewrite set_io_length_same. reflexivity.
  - intros Hg Hd. rewrite (ep0_request_device env ev _ _ Hg Hd) in Hreply.
    injection Hreply as <- <-.
    split; [ reflexivity | ]. split; [ reflexivity | ].
    split; intros ->; reflexivity.
Qed.

Lemma ep0_loop_transfer_length_witness :
  let ev := control_event (device_descriptor_request 8) in
  let io := set_io_length
              (set_io_data blank_io
                 (device_bytes usb_device ++ skipn 18 (io_data blank_io))) 18 in
  let w2 := record_call initial_world EVENT_FETCH 0 in
  let io_t := set_io_length io 8 in
  ep0_loop_body quiet_env ev initial_world
    = (Ret tt, record_call w2 (EP0_WRITE io_t) 0) /\
  transferred io_t = firstn 8 (device_bytes usb_device).
Proof.
  intros ev io w2 io_t.
  destruct (ep0_loop_transfer_length quiet_env ev initial_world w2 io)
    as (Hbody & _ & _ & _ & _ & Hdev).
  - reflexivity.
  - cbn. lia.
  - reflexivity.
  - split.
    + exact Hbody.
    + destruct (Hdev eq_refl eq_refl) as (_ & _ & _ & H8).
      apply H8. reflexivity.
Defined.

Example device_descriptor_first_8_bytes :
  exists io_t : usb_raw_control_io,
    ep0_loop quiet_env [control_event (device_descriptor_request 8)]
      initial_world
    = (Ret tt,
       record_call (record_call initial_world EVENT_FETCH 0) (EP0_WRITE io_t) 0)
    /\ io_length io_t = 8
    /\ transferred io_t = [18; 1; 0; 2; 0; 0; 0; 64].
Proof. eexists. repeat split. Qed.

Example device_descriptor_all_18_bytes :
  exists io_t : usb_raw_control_io,
    ep0_loop quiet_env [control_event (device_descriptor_request 18)]
      initial_world
    = (Ret tt,
       record_call (record_call initial_world EVENT_FETCH 0) (EP0_WRITE io_t) 0)
    /\ io_length io_t = 18
    /\ transferred io_t =
         [18; 1; 0; 2; 0; 0; 0; 64; 0x6a; 0x05; 0xab; 0xff; 0; 0; 1; 2; 3; 1].
Proof. eexists. repeat split. Qed.

(** ** Configuration *)

Lemma ep0_request_set_configuration (env : environment)
    (ev : usb_raw_control_event) (io : usb_raw_control_io) (w : world) :
  is_set_configuration (ctrl ev) = true ->
  ep0_request env ev io w =
    let c1 := EP_ENABLE (usb_endpoint w) in
    let rv1 := ioctl env (calls w) c1 in
    let w1 := record_call w c1 rv1 in
    if rv1 <? 0 then (Exit, w1)
    else
      let w1' := set_ep_int_in w1 rv1 in
      let c2 := VBUS_DRAW (bMaxPower (usb_config w)) in
      let rv2 := ioctl env (calls w1') c2 in
      let w2 := record_call w1' c2 rv2 in
      if rv2 <? 0 then (Exit, w2)
      else
        let rv3 := ioctl env (calls w2) CONFIGURE in
        let w3 := record_call w2 CONFIGURE rv3 in
        if rv3 <? 0 then (Exit, w3) else (Ret (true, set_io_length io 0), w3).
Proof.
  unfold is_set_configuration, request_class, ep0_request.
  intros H. apply andb_prop in H. destruct H as [Hc Hr].
  rewrite Hc. apply Z.eqb_eq in Hr. rewrite Hr.
  change (USB_REQ_SET_CONFIGURATION =? USB_REQ_GET_DESCRIPTOR) with false.
  change (USB_REQ_SET_CONFIGURATION =? USB_REQ_SET_CONFIGURATION) with true.
  cbv iota.
  unfold mbind, get, modify, ret, usb_raw_ep_enable, usb_raw_vbus_draw,
    usb_raw_configure, usb_raw_ioctl.
  cbv zeta.
  destruct (ioctl env (calls w) (EP_ENABLE (usb_endpoint w)) <? 0);
    [ reflexivity | ].
  cbn [usb_config set_ep_int_in record_call calls].
  match goal with
  | |- context [ioctl env ?h (VBUS_DRAW ?p) <? 0] =>
      destruct (ioctl env h (VBUS_DRAW p) <? 0)
  end; [ reflexivity | ].
  cbn [calls record_call].
  match goal with
  | |- context [ioctl env ?h CONFIGURE <? 0] =>
      destruct (ioctl env h CONFIGURE <? 0)
  end; reflexivity.
Qed.

Lemma enables_app (h1 h2 : history) :
  enables (h1 ++ h2) = enables h1 ++ enables h2.
Proof. unfold enables. rewrite map_app. apply filter_app. Qed.

(** What one iteration of the loop does on a SET_CONFIGURATION request. *)
Lemma set_configuration_body (env : environment) (ev : usb_raw_control_event)
    (w : world) :
  inner_type ev = USB_RAW_EVENT_CONTROL ->
  is_set_configuration (ctrl ev) = true ->
  let r := ep0_loop_body env ev w in
  usb_endpoint (snd r) = usb_endpoint w /\
  addr (snd r) = addr w /\
  (fst r = Ret tt ->
   enables (calls (snd r)) = enables (calls w) ++ [EP_ENABLE (usb_endpoint w)]) /\
  (0 <= ioctl env (calls w) EVENT_FETCH ->
   ioctl env (calls (record_call w EVENT_FETCH (ioctl env (calls w) EVENT_FETCH)))
     (EP_ENABLE (usb_endpoint w)) < 0 ->
   fst r = Exit).
Proof.
  intros Hctl Hsc. cbv zeta.
  rewrite (ep0_loop_body_control env ev w Hctl). cbv zeta.
  rewrite (ep0_request_set_configuration env ev _ _ Hsc). cbv zeta.
  cbn [usb_endpoint usb_config set_ep_int_in record_call calls].
  destruct (Z.ltb_spec (ioctl env (calls w) EVENT_FETCH) 0) as [Hf | Hf];
    [ cbn [fst snd usb_endpoint addr record_call];
      repeat split; (discriminate || lia) | ].
  match goal with
  | |- context [ioctl env ?h (EP_ENABLE ?d) <? 0] =>
      destruct (Z.ltb_spec (ioctl env h (EP_ENABLE d)) 0) as [He | He]
  end;
    [ cbn [fst snd usb_endpoint addr record_call];
      repeat split; (discriminate || lia) | ].
  match goal with
  | |- context [ioctl env ?h (VBUS_DRAW ?p) <? 0] =>
      destruct (Z.ltb_spec (ioctl env h (VBUS_DRAW p)) 0) as [Hv | Hv]
  end;
    [ cbn [fst snd usb_endpoint addr record_call set_ep_int_in];
      repeat split; (discriminate || lia) | ].
  match goal with
  | |- context [ioctl env ?h CONFIGURE <? 0] =>
      destruct (Z.ltb_spec (ioctl env h CONFIGURE) 0) as [Hc | Hc]
  end;
    [ cbn [fst snd usb_endpoint addr record_call set_ep_int_in];
      repeat split; (discriminate || lia) | ].
  cbn [io_length set_io_length record_call calls].
  destruct (Z.land (bRequestType (ctrl ev)) USB_DIR_IN =? 0);
    match goal with
    | |- context [ioctl env ?h ?c <? 0] =>
        match c with
        | EP0_READ _ => destruct (ioctl env h c <? 0)
        | EP0_WRITE _ => destruct (ioctl env h c <? 0)
        end
    end;
    cbn [fst snd usb_endpoint addr record_call set_ep_int_in calls];
    repeat split; try discriminate; try lia;
    intros _; rewrite !enables_app; cbn; rewrite !app_nil_r; reflexivity.
Qed.

(** C5, as stated, fails: after a connect event and two SET_CONFIGURATION
    requests one after the other, with a controller that accepts every
    call, the process is still running and has issued the endpoint-enable
    operation twice, both times for the endpoint at address 0x81. *)
Lemma second_set_configuration_enables_again :
  let r := ep0_loop one_endpoint_env
             [connect_event; control_event set_configuration_request;
              control_event set_configuration_request] initial_world in
  fst r = Ret tt /\
  enables (calls (snd r)) =
    [EP_ENABLE (set_bEndpointAddress usb_endpoint_init 0x81);
     EP_ENABLE (set_bEndpointAddress usb_endpoint_init 0x81)].
Proof. split; reflexivity. Qed.

(** C5, amended.  Every SET_CONFIGURATION request that is handled issues
    the endpoint-enable operation for the interrupt-IN endpoint, whether or
    not the endpoint is enabled already: when two such requests have been
    handled one after the other, the operation has been issued twice, both
    times with the same endpoint descriptor.  Handling the requests
    allocates no address: the endpoint descriptor and the address counter
    are left as they were.  If the controller refuses the second enable,
    the process exits. *)
Theorem set_configuration_twice (env : environment)
    (ev1 ev2 : usb_raw_control_event) (w : world)
    (Hctl1 : inner_type ev1 = USB_RAW_EVENT_CONTROL)
    (Hsc1 : is_set_configuration (ctrl ev1) = true)
    (Hctl2 : inner_type ev2 = USB_RAW_EVENT_CONTROL)
    (Hsc2 : is_set_configuration (ctrl ev2) = true) :
  let r := ep0_loop env [ev1; ev2] w in
  (fst r = Ret tt ->
   enables (calls (snd r)) =
     enables (calls w)
     ++ [EP_ENABLE (usb_endpoint w); EP_ENABLE (usb_endpoint w)]) /\
  usb_endpoint (snd r) = usb_endpoint w /\
  addr (snd r) = addr w /\
  (let r1 := ep0_loop_body env ev1 w in
   let w1 := record_call (snd r1) EVENT_FETCH
               (ioctl env (calls (snd r1)) EVENT_FETCH) in
   fst r1 = Ret tt ->
   0 <= ioctl env (calls (snd r1)) EVENT_FETCH ->
   ioctl env (calls w1) (EP_ENABLE (usb_endpoint w)) < 0 ->
   fst r = Exit).
Proof.
  cbv zeta. cbn [ep0_loop]. unfold mbind, ret.
  destruct (set_configuration_body env ev1 w Hctl1 Hsc1) as (He1 & Ha1 & Hn1 & _).
  destruct (ep0_loop_body env ev1 w) as [[[] | |] w1] eqn:E1;
    cbn [fst snd] in *;
    try (repeat split; (discriminate || assumption || (intros; discriminate))).
  destruct (set_configuration_body env ev2 w1 Hctl2 Hsc2) as (He2 & Ha2 & Hn2 & Hx2).
  rewrite He1 in *.
  destruct (ep0_loop_body env ev2 w1) as [[[] | |] w2] eqn:E2;
    cbn [fst snd] in *.
  - split; [ | split; [ congruence | split; [ congruence | ] ] ].
    + intros _. rewrite (Hn2 eq_refl), (Hn1 eq_refl), <- app_assoc. reflexivity.
    + intros _ Hf Hr. discriminate (Hx2 Hf Hr).
  - split; [ discriminate | split; [ congruence | split; [ congruence | ] ] ].
    reflexivity.
  - split; [ discriminate | split; [ congruence | split; [ congruence | ] ] ].
    intros _ Hf Hr. discriminate (Hx2 Hf Hr).
Qed.

Lemma set_configuration_twice_witness :
  let ev := control_event set_configuration_request in
  let r := ep0_loop quiet_env [ev; ev] initial_world in
  enables (calls (snd r)) =
    [EP_ENABLE (usb_endpoint initial_world);
     EP_ENABLE (usb_endpoint initial_world)] /\
  usb_endpoint (snd r) = usb_endpoint initial_world /\
  addr (snd r) = addr initial_world.
Proof.
  intros ev r.
  destruct (set_configuration_twice quiet_env ev ev initial_world)
    as (Hen & Hep & Haddr & _); try reflexivity.
  split; [ | split ].
  - apply Hen. reflexivity.
  - exact Hep.
  - exact Haddr.
Defined.

(** ** Starting the report generator *)

Section Generator.

Variable env : environment.

(** The thread library hands out nonzero thread ids. *)
Hypothesis thread_id_nonzero :
  forall h : history, snd (pthread_create_result env h) <> 0.

Lemma leaves_generator_keeps {A : Type} (m : M A) :
  leaves_generator m -> keeps_started_once m.
Proof.
  intros Hm w [H1 H0]. destruct (Hm w) as [Ht Hc].
  unfold started_once. rewrite Ht, Hc. split; assumption.
Qed.

Lemma leaves_generator_ret {A : Type} (a : A) : leaves_generator (ret a).
Proof. intros w. split; reflexivity. Qed.

Lemma leaves_generator_exit {A : Type} : leaves_generator (@exit A).
Proof. intros w. split; reflexivity. Qed.

Lemma leaves_generator_get : leaves_generator get.
Proof. intros w. split; reflexivity. Qed.

Lemma leaves_generator_lift {A : Type} (r : result A) : leaves_generator (lift r).
Proof. intros w. split; reflexivity. Qed.

Lemma leaves_generator_bind {A B : Type} (m : M A) (k : A -> M B) :
  leaves_generator m -> (forall a, leaves_generator (k a)) ->
  leaves_generator (mbind m k).
Proof.
  intros Hm Hk w. unfold mbind. destruct (Hm w) as [Ht Hc].
  destruct (m w) as [[a | |] w']; cbn [snd] in *.
  - destruct (Hk a w') as [Ht' Hc']. split; congruence.
  - split; assumption.
  - split; assumption.
Qed.

Lemma leaves_generator_ioctl (c : call) :
  is_pthread_create c = false -> leaves_generator (usb_raw_ioctl env c).
Proof.
  intros Hc w. unfold usb_raw_ioctl. cbn [snd record_call calls ep_int_in_thread].
  split; [ reflexivity | ].
  rewrite count_calls_app. unfold count_calls at 2. cbn [filter fst].
  rewrite Hc. cbn. lia.
Qed.

Lemma leaves_generator_assign_loop (eps : list usb_raw_ep_info) :
  leaves_generator (assign_loop eps).
Proof.
  induction eps as [| info rest IH].
  - apply leaves_generator_ret.
  - cbn [assign_loop].
    apply leaves_generator_bind; [ apply leaves_generator_get | intros w0 ].
    apply leaves_generator_bind; [ apply leaves_generator_lift | intros [[ok ep] a] ].
    apply leaves_generator_bind; [ | intros _; exact IH ].
    intros w. split; reflexivity.
Qed.

Lemma leaves_generator_process_eps_info :
  leaves_generator (process_eps_info env).
Proof.
  unfold process_eps_info.
  apply leaves_generator_bind; [ apply leaves_generator_get | intros w0 ].
  apply leaves_generator_bind;
    [ apply leaves_generator_ioctl; reflexivity | intros num ].
  apply leaves_generator_bind;
    [ apply leaves_generator_assign_loop | intros _ ].
  apply leaves_generator_bind; [ apply leaves_generator_get | intros w1 ].
  apply leaves_generator_lift.
Qed.

Lemma keeps_started_once_bind {A B : Type} (m : M A) (k : A -> M B) :
  keeps_started_once m -> (forall a, keeps_started_once (k a)) ->
  keeps_started_once (mbind m k).
Proof.
  intros Hm Hk w Hw. unfold mbind. specialize (Hm w Hw).
  destruct (m w) as [[a | |] w']; cbn [snd] in *.
  - apply Hk, Hm.
  - exact Hm.
  - exact Hm.
Qed.

(** What the dispatcher does on SET_IDLE. *)
Lemma ep0_request_set_idle (ev : usb_raw_control_event)
    (io : usb_raw_control_io) (w : world) :
  is_set_idle (ctrl ev) = true ->
  ep0_request env ev io w =
    if ep_int_in_thread w =? 0
    then (Ret (true, set_io_length io 0),
          record_call
            (set_ep_int_in_thread w (snd (pthread_create_result env (calls w))))
            (PTHREAD_CREATE (snd (pthread_create_result env (calls w))))
            (fst (pthread_create_result env (calls w))))
    else (Ret (true, set_io_length io 0), w).
Proof.
  unfold is_set_idle, request_class, ep0_request.
  intros H. apply andb_prop in H. destruct H as [Hc Hr].
  apply Z.eqb_eq in Hc, Hr. rewrite Hc, Hr.
  change (USB_TYPE_CLASS =? USB_TYPE_STANDARD) with false.
  change (USB_TYPE_CLASS =? USB_TYPE_CLASS) with true.
  change (HID_REQ_SET_IDLE =? HID_REQ_SET_REPORT) with false.
  change (HID_REQ_SET_IDLE =? HID_REQ_SET_IDLE) with true.
  cbv iota. unfold mbind, get, ret, pthread_create.
  destruct (ep_int_in_thread w =? 0); [ | reflexivity ].
  destruct (pthread_create_result env (calls w)) as [rv thread].
  reflexivity.
Qed.

Lemma keeps_started_once_ep0_request (ev : usb_raw_control_event)
    (io : usb_raw_control_io) :
  keeps_started_once (ep0_request env ev io).
Proof.
  destruct (is_set_idle (ctrl ev)) eqn:Hidle.
  - intros w [H1 H0]. rewrite (ep0_request_set_idle ev io w Hidle).
    destruct (Z.eqb_spec (ep_int_in_thread w) 0) as [Hz | Hnz];
      [ | split; assumption ].
    cbn [snd]. unfold started_once.
    cbn [calls record_call set_ep_int_in_thread ep_int_in_thread].
    rewrite count_calls_app, (H0 Hz). cbn. split; [ lia | ].
    intros Hzero. exfalso. exact (thread_id_nonzero (calls w) Hzero).
  - apply leaves_generator_keeps. revert Hidle.
    unfold is_set_idle, request_class, ep0_request.
    repeat match goal with
      | |- context [if ?c then _ else _] => destruct c
      end;
      cbn [andb]; intros Hidle; try discriminate Hidle;
      repeat first
        [ apply leaves_generator_ret
        | apply leaves_generator_exit
        | apply leaves_generator_get
        | apply leaves_generator_lift
        | apply leaves_generator_ioctl; reflexivity
        | apply leaves_generator_bind; [ | intros ? ]
        | (intros w; split; reflexivity) ].
Qed.

Lemma keeps_started_once_ep0_loop_body (ev : usb_raw_control_event) :
  keeps_started_once (ep0_loop_body env ev).
Proof.
  unfold ep0_loop_body.
  apply keeps_started_once_bind;
    [ apply leaves_generator_keeps, leaves_generator_ioctl; reflexivity
    | intros _ ].
  apply keeps_started_once_bind.
  { apply leaves_generator_keeps.
    destruct (inner_type ev =? USB_RAW_EVENT_CONNECT);
      [ apply leaves_generator_process_eps_info | apply leaves_generator_ret ]. }
  intros _.
  destruct (negb (inner_type ev =? USB_RAW_EVENT_CONTROL));
    [ apply leaves_generator_keeps, leaves_generator_ret | ].
  apply keeps_started_once_bind;
    [ apply leaves_generator_keeps, leaves_generator_get | intros w0 ].
  apply keeps_started_once_bind;
    [ apply keeps_started_once_ep0_request | intros [reply io] ].
  apply leaves_generator_keeps.
  destruct (negb reply).
  - apply leaves_generator_bind;
      [ apply leaves_generator_ioctl; reflexivity
      | intros _; apply leaves_generator_ret ].
  - destruct (negb (Z.land (bRequestType (ctrl ev)) USB_DIR_IN =? 0));
      (apply leaves_generator_bind;
       [ apply leaves_generator_ioctl; reflexivity
       | intros _; apply leaves_generator_ret ]).
Qed.

Lemma keeps_started_once_ep0_loop (events : list usb_raw_control_event) :
  keeps_started_once (ep0_loop env events).
Proof.
  induction events as [| ev rest IH].
  - apply leaves_generator_keeps, leaves_generator_ret.
  - cbn [ep0_loop]. apply keeps_started_once_bind;
      [ apply keeps_started_once_ep0_loop_body | intros _; exact IH ].
Qed.

(** C6.  Over any succession of events handled from the start of the
    process, however many SET_IDLE requests it holds, the generator thread
    is created at most once.  The start is guarded by the thread handle: a
    SET_IDLE that finds the handle zero creates the thread and stores its
    id; every SET_IDLE that finds it nonzero is acknowledged with an empty
    response and changes nothing. *)
Theorem set_idle_starts_generator_once :
  (forall events : list usb_raw_control_event,
      (count_calls is_pthread_create
         (calls (snd (ep0_loop env events initial_world))) <= 1)%nat) /\
  (forall (ev : usb_raw_control_event) (io : usb_raw_control_io) (w : world),
      is_set_idle (ctrl ev) = true ->
      ep_int_in_thread w = 0 ->
      ep0_request env ev io w =
        (Ret (true, set_io_length io 0),
         record_call
           (set_ep_int_in_thread w (snd (pthread_create_result env (calls w))))
           (PTHREAD_CREATE (snd (pthread_create_result env (calls w))))
           (fst (pthread_create_result env (calls w)))) /\
      ep_int_in_thread (snd (ep0_request env ev io w)) <> 0) /\
  (forall (ev : usb_raw_control_event) (io : usb_raw_control_io) (w : world),
      is_set_idle (ctrl ev) = true ->
      ep_int_in_thread w <> 0 ->
      ep0_request env ev io w = (Ret (true, set_io_length io 0), w)).
Proof.
  split; [ | split ].
  - intros events.
    apply (keeps_started_once_ep0_loop events initial_world).
    split; [ cbn; lia | reflexivity ].
  - intros ev io w Hidle Hz.
    rewrite (ep0_request_set_idle ev io w Hidle), Hz.
    split; [ reflexivity | apply thread_id_nonzero ].
  - intros ev io w Hidle Hnz.
    rewrite (ep0_request_set_idle ev io w Hidle).
    apply Z.eqb_neq in Hnz. rewrite Hnz. reflexivity.
Qed.

End Generator.

Lemma set_idle_starts_generator_once_witness :
  let idle := control_event set_idle_request in
  let started := set_ep_int_in_thread initial_world 1 in
  (count_calls is_pthread_create
     (calls (snd (ep0_loop quiet_env [idle; idle; idle] initial_world))) <= 1)%nat
  /\ ep0_request quiet_env idle blank_io started
      = (Ret (true, set_io_length blank_io 0), started).
Proof.
  intros idle started.
  destruct (set_idle_starts_generator_once quiet_env) as (Honce & _ & Hlater).
  - intros h. cbn. lia.
  - split.
    + apply Honce.
    + apply Hlater; [ reflexivity | cbn; lia ].
Defined.

Example three_set_idle_one_thread :
  let idle := control_event set_idle_request in
  let r := ep0_loop quiet_env [idle; idle; idle] initial_world in
  fst r = Ret tt /\
  filter is_pthread_create (map fst (calls (snd r))) = [PTHREAD_CREATE 1] /\
  map fst (calls (snd r)) =
    [EVENT_FETCH; PTHREAD_CREATE 1;
     EP0_READ (set_io_length (fresh_io quiet_env initial_world) 0);
     EVENT_FETCH;
     EP0_READ (set_io_length (fresh_io quiet_env initial_world) 0);
     EVENT_FETCH;
     EP0_READ (set_io_length (fresh_io quiet_env initial_world) 0)].
Proof. repeat split. Qed.

(** * Further properties *)

(** ** Report generator: reports and transfers *)

Lemma read_le16_le16 (v : Z) (pre post : list Z) :
  0 <= v < 65536 ->
  read_le16 (pre ++ le16 v ++ post) (List.length pre) = v.
Proof.
  intros Hv. unfold read_le16.
  rewrite app_nth2 by lia. rewrite Nat.sub_diag.
  replace (S (List.length pre)) with (List.length pre + 1)%nat by lia.
  rewrite app_nth2_plus. cbn [le16 app nth].
  change 255 with (Z.ones 8). rewrite !Z.land_ones by lia.
  rewrite Z.shiftr_div_pow2 by lia. change (2 ^ 8) with 256.
  Z.div_mod_to_equations. lia.
Qed.

(** X1.  A report packs into 8 bytes, the size of the interrupt endpoint's
    packets, and unpacking the bytes gives the report back. *)
Theorem pen_report_round_trip (r : pen_report) (Hwf : wf_pen_report r) :
  sizeof (pen_report_bytes r) = sizeof_pen_report /\
  sizeof_pen_report = EP_MAX_PACKET_INT /\
  Forall (fun b => 0 <= b < 256) (pen_report_bytes r) /\
  pen_report_unpack (pen_report_bytes r) = r.
Proof.
  destruct Hwf as (Hid & Hx & Hy & Hp).
  split; [ reflexivity | ]. split; [ reflexivity | ]. split.
  - unfold pen_report_bytes, le16. cbn [app].
    repeat constructor;
      try (apply land_255_range);
      try (unfold u8; apply Z.mod_pos_bound; lia);
      unfold pen_report_flags;
      destruct (tip r), (barrel r), (eraser r), (invert r), (xxx0 r),
        (inrange r); lia.
  - unfold pen_report_unpack.
    assert (Ex : read_le16 (pen_report_bytes r) 2 = x r)
      by (exact (read_le16_le16 (x r) [_; _] _ Hx)).
    assert (Ey : read_le16 (pen_report_bytes r) 4 = y r)
      by (exact (read_le16_le16 (y r) [_; _; _; _] _ Hy)).
    assert (Ep : read_le16 (pen_report_bytes r) 6 = pressure r).
    { replace (pen_report_bytes r)
        with ([u8 (id r); pen_report_flags r; Z.land (x r) 255;
               Z.land (Z.shiftr (x r) 8) 255; Z.land (y r) 255;
               Z.land (Z.shiftr (y r) 8) 255] ++ le16 (pressure r) ++ [])
        by reflexivity.
      exact (read_le16_le16 (pressure r) _ _ Hp). }
    rewrite Ex, Ey, Ep.
    cbn [pen_report_bytes app nth]. rewrite u8_small by exact Hid.
    unfold pen_report_flags.
    destruct r as [i t b e v z n rx ry rp]. cbn [tip barrel eraser invert xxx0
      inrange id x y pressure].
    destruct t, b, e, v, z, n; reflexivity.
Qed.

Lemma pen_report_round_trip_witness :
  pen_report_unpack (pen_report_bytes (snd (ep_int_in_loop 1)))
    = snd (ep_int_in_loop 1).
Proof.
  apply (pen_report_round_trip (snd (ep_int_in_loop 1))).
  unfold wf_pen_report. cbn. lia.
Defined.

Lemma step_keeps_fields (s : motion_state) :
  id (snd (step s)) = id (snd s) /\
  pen_report_flags (snd (step s)) = pen_report_flags (snd s) /\
  pressure (snd (step s)) = pressure (snd s).
Proof.
  destruct s as [d r]. destruct d; unfold step;
    match goal with |- context [if ?c then _ else _] => destruct c end;
    repeat split.
Qed.

Lemma ep_int_in_loop_fields (n : nat) :
  id (snd (ep_int_in_loop n)) = 6 /\
  pen_report_flags (snd (ep_int_in_loop n)) = 32 /\
  pressure (snd (ep_int_in_loop n)) = 0.
Proof.
  induction n as [| n IH].
  - repeat split.
  - cbn [ep_int_in_loop].
    destruct (step_keeps_fields (ep_int_in_loop n)) as (Hi & Hf & Hp).
    destruct IH as (IHi & IHf & IHp).
    rewrite Hi, Hf, Hp. auto.
Qed.

(** X2.  Every report the generator produces carries the report id 6, the
    in-range flag and no other, and the pressure 0; its bytes 2..3 and 4..5
    read back as a position inside the rectangle [2000,14000] x
    [2000,7000]. *)
Theorem generator_report_bytes (n : nat) :
  let r := snd (ep_int_in_loop n) in
  pen_report_bytes r = [6; 32] ++ le16 (x r) ++ le16 (y r) ++ [0; 0] /\
  2000 <= read_le16 (pen_report_bytes r) 2 <= 14000 /\
  2000 <= read_le16 (pen_report_bytes r) 4 <= 7000.
Proof.
  cbv zeta.
  destruct (ep_int_in_loop_fields n) as (Hi & Hf & Hp).
  destruct (on_path_in_rectangle _ (ep_int_in_loop_on_path n)) as (Hx & Hy).
  set (r := snd (ep_int_in_loop n)) in *.
  assert (Ex : read_le16 (pen_report_bytes r) 2 = x r)
    by (exact (read_le16_le16 (x r) [_; _] _ ltac:(lia))).
  assert (Ey : read_le16 (pen_report_bytes r) 4 = y r)
    by (exact (read_le16_le16 (y r) [_; _; _; _] _ ltac:(lia))).
  rewrite Ex, Ey. split; [ | split; assumption ].
  unfold pen_report_bytes. rewrite Hi, Hf, Hp. reflexivity.
Qed.

(** X3.  Each iteration moves the pen by exactly the step size, along one
    axis: the 16-bit coordinates never wrap around. *)
Theorem step_moves_by_stepsize (n : nat) :
  let r := snd (ep_int_in_loop n) in
  let r' := snd (ep_int_in_loop (S n)) in
  (x r' = x r /\ Z.abs (y r' - y r) = STEPSIZE) \/
  (y r' = y r /\ Z.abs (x r' - x r) = STEPSIZE).
Proof.
  cbv zeta. cbn [ep_int_in_loop].
  assert (Hp := ep_int_in_loop_on_path n).
  destruct (ep_int_in_loop n) as [d r]. unfold STEPSIZE.
  destruct d; unfold on_path in Hp; destruct Hp as (H1 & H2 & H3);
    unfold step, STEPSIZE;
    match goal with |- context [if ?c then _ else _] => destruct c end;
    cbn [snd x y set_x set_y]; rewrite u16_small by lia; lia.
Qed.

Lemma memcpy_whole (dst src : list Z) (n : nat) :
  List.length dst = n -> List.length src = n -> memcpy dst 0 src n = src.
Proof.
  intros Hd Hs. unfold memcpy. cbn [firstn Nat.add app].
  rewrite <- Hs at 1. rewrite firstn_all.
  rewrite skipn_all2 by lia. apply app_nil_r.
Qed.

Lemma ep_int_in_iterations_writes (ep_int_in : Z) (rvs : list Z) :
  forall (k : nat) (data : list Z),
    List.length data = 8%nat ->
    ep_int_in_iterations
      {| int_ep := u16 ep_int_in; int_flags := 0; int_length := 8;
         int_data := data |} rvs (ep_int_in_loop k)
    = (if existsb (fun rv => rv <? 0) rvs then Exit else Ret tt,
       map (report_transfer ep_int_in) (seq k (writes_made rvs))).
Proof.
  induction rvs as [| rv rest IH]; intros k data Hdata.
  - reflexivity.
  - cbn [ep_int_in_iterations existsb writes_made int_ep int_flags int_length
         int_data].
    change (step (ep_int_in_loop k)) with (ep_int_in_loop (S k)).
    change (Z.to_nat sizeof_pen_report) with 8%nat.
    rewrite (memcpy_whole data (pen_report_bytes (snd (ep_int_in_loop (S k))))
               8 Hdata eq_refl).
    destruct (rv <? 0); cbn [orb].
    + reflexivity.
    + rewrite IH by reflexivity. reflexivity.
Qed.

(** X4.  The generator thread makes one 8-byte write per iteration to the
    endpoint handle it read at its start; the k-th write carries the report
    after k steps (the start position itself is not reported), and nothing
    else is left in the buffer.  The thread goes on as long as the writes
    succeed; the first write that fails is the last one, and the process
    exits. *)
Theorem ep_int_in_thread_writes (ep_int_in : Z) (garbage rvs : list Z)
    (Hbuf : List.length garbage = Z.to_nat EP_MAX_PACKET_INT) :
  ep_int_in_thread_run ep_int_in garbage rvs
  = (if existsb (fun rv => rv <? 0) rvs then Exit else Ret tt,
     map (report_transfer ep_int_in) (seq 0 (writes_made rvs))) /\
  (writes_made rvs <= List.length rvs)%nat /\
  (forall io, In io (snd (ep_int_in_thread_run ep_int_in garbage rvs)) ->
     int_length io = sizeof (int_data io)).
Proof.
  assert (E := ep_int_in_iterations_writes ep_int_in rvs 0 garbage Hbuf).
  unfold ep_int_in_thread_run. change initial_motion with (ep_int_in_loop 0).
  rewrite E. split; [ reflexivity | ]. split.
  - clear. induction rvs as [| rv rest IH]; cbn [writes_made List.length];
      [ lia | destruct (rv <? 0); lia ].
  - cbn [snd]. intros io Hin. apply in_map_iff in Hin.
    destruct Hin as (k & <- & _). reflexivity.
Qed.

Lemma ep_int_in_thread_writes_witness :
  ep_int_in_thread_run 0 (repeat 0 8) [8; 8; -1; 8]
  = (Exit, map (report_transfer 0) (seq 0 3)).
Proof.
  apply (ep_int_in_thread_writes 0 (repeat 0 8) [8; 8; -1; 8]).
  reflexivity.
Defined.

(** ** Descriptor catalog: further properties *)

Lemma build_config_total (w : world) (data : list Z) (len : Z) :
  -2147483621 <= len <= 2147483647 ->
  (len < 34 -> build_config w data len = Abort) /\
  (34 <= len -> exists blob, build_config w data len = Ret (blob, 34)).
Proof.
  intros Hint. unfold build_config.
  change sizeof_usb_config with 9. change sizeof_usb_interface with 9.
  change sizeof_usb_hid with 9. change USB_DT_ENDPOINT_SIZE with 7.
  rewrite (wrap_int_small (len - 9)) by lia.
  rewrite (wrap_int_small (len - 9 - 9)) by lia.
  rewrite (wrap_int_small (len - 9 - 9 - 9)) by lia.
  assert (Hsz : forall z : Z,
             -2147483648 <= z <= 2147483647 ->
             (9 <=? size_t z) = negb ((0 <=? z) && (z <? 9))).
  { intros z Hz. unfold size_t.
    destruct (Z.leb_spec 0 z), (Z.ltb_spec z 9); cbn [andb negb];
      [ apply Z.leb_gt | apply Z.leb_le | apply Z.leb_le | apply Z.leb_le ];
      Z.div_mod_to_equations; lia. }
  rewrite !Hsz by lia.
  destruct (Z.leb_spec 0 len), (Z.ltb_spec len 9); cbn [andb negb assert bind];
    try (split; [ reflexivity | lia ]);
    destruct (Z.leb_spec 0 (len - 9)), (Z.ltb_spec (len - 9) 9);
    cbn [andb negb assert bind]; try lia;
    try (split; [ reflexivity | lia ]);
    destruct (Z.leb_spec 0 (len - 9 - 9)), (Z.ltb_spec (len - 9 - 9) 9);
    cbn [andb negb assert bind]; try lia;
    try (split; [ reflexivity | lia ]);
    destruct (Z.leb_spec 7 (len - 9 - 9 - 9));
    cbn [assert bind]; try lia;
    try (split; [ reflexivity | lia ]);
    (split; [ lia | intros _; eexists; reflexivity ]).
Qed.

(** X5.  [build_config] fails an assertion exactly when the length it is
    given is less than the 34 bytes of the concatenation, and it never
    exits.  That holds for a negative length too: it passes the three
    comparisons with a [sizeof], which are made in [size_t], and is caught
    by the last one, which compares [int]s.  (The lengths taken are those
    whose remainders stay in the range of [int].) *)
Theorem build_config_aborts_iff (w : world) (data : list Z) (len : Z)
    (Hint : -2147483621 <= len <= 2147483647) :
  (build_config w data len = Abort <-> len < config_blob_size w) /\
  build_config w data len <> Exit /\
  (config_blob_size w <= len ->
   exists blob, build_config w data len = Ret (blob, config_blob_size w)).
Proof.
  rewrite config_blob_size_eq.
  destruct (build_config_total w data len Hint) as [Hab Hok].
  split; [ split | split ].
  - intros E. destruct (Z.ltb_spec len 34) as [Hlt | Hge]; [ exact Hlt | ].
    destruct (Hok Hge) as [blob Hb]. rewrite Hb in E. discriminate.
  - exact Hab.
  - destruct (Z.ltb_spec len 34) as [Hlt | Hge].
    + rewrite (Hab Hlt). discriminate.
    + destruct (Hok Hge) as [blob Hb]. rewrite Hb. discriminate.
  - exact Hok.
Qed.

Lemma build_config_aborts_iff_witness :
  build_config initial_world (repeat 0 256) 33 = Abort /\
  build_config initial_world (repeat 0 256) (-1) = Abort.
Proof.
  split.
  - destruct (build_config_aborts_iff initial_world (repeat 0 256) 33)
      as ((_ & Habort) & _); [ lia | ].
    apply Habort. rewrite config_blob_size_eq. lia.
  - destruct (build_config_aborts_iff initial_world (repeat 0 256) (-1))
      as ((_ & Habort) & _); [ lia | ].
    apply Habort. rewrite config_blob_size_eq. lia.
Defined.

Lemma ep0_request_config (env : environment) (ev : usb_raw_control_event)
    (io : usb_raw_control_io) (w : world) :
  is_get_descriptor (ctrl ev) = true ->
  descriptor_type (ctrl ev) = USB_DT_CONFIG ->
  (EP0_MAX_DATA <= Z.of_nat (List.length (io_data io))) ->
  ep0_request env ev io w =
    (Ret (true,
          set_io_length
            (set_io_data io
               (config_bytes (set_wTotalLength (usb_config w) 34)
                  ++ interface_bytes usb_interface ++ hid_bytes usb_hid
                  ++ firstn 7 (endpoint_bytes (usb_endpoint w))
                  ++ skipn 34 (io_data io)))
            34), w).
Proof.
  unfold is_get_descriptor, request_class, descriptor_type, ep0_request.
  intros Hg Hd Hbuf. apply andb_prop in Hg. destruct Hg as [Hc Hr].
  rewrite Hc, Hr, Hd.
  change (USB_DT_CONFIG =? USB_DT_DEVICE) with false.
  change (USB_DT_CONFIG =? USB_DT_DEVICE_QUALIFIER) with false.
  change (USB_DT_CONFIG =? USB_DT_CONFIG) with true.
  cbv iota. unfold mbind, get, lift, ret.
  rewrite (build_config_blob w (io_data io) EP0_MAX_DATA)
    by (unfold EP0_MAX_DATA in *; lia).
  reflexivity.
Qed.

(** X6.  The answer to GET_DESCRIPTOR(CONFIGURATION), with the catalog as the
    program leaves it and the 256-byte transfer buffer: a response of 34
    bytes whose header declares these 34 bytes; walking the descriptors by
    their length bytes gives configuration, interface, HID class and
    endpoint descriptor and ends exactly at the declared total; the header
    counts one interface, the interface one endpoint; the endpoint
    descriptor carries the address negotiated so far; the HID class
    descriptor declares the length of the report descriptor.  The buffer
    keeps its size and nothing is written behind the blob. *)
Theorem config_descriptor_well_formed (env : environment)
    (ev : usb_raw_control_event) (io : usb_raw_control_io) (w : world)
    (Hget : is_get_descriptor (ctrl ev) = true)
    (Hcfg : descriptor_type (ctrl ev) = USB_DT_CONFIG)
    (Hcat : catalog_intact w)
    (Hbuf : EP0_MAX_DATA <= Z.of_nat (List.length (io_data io))) :
  exists io' : usb_raw_control_io,
    ep0_request env ev io w = (Ret (true, io'), w) /\
    io_length io' = 34 /\
    read_le16 (io_data io') 2 = io_length io' /\
    descriptor_chain (Z.to_nat (io_length io')) (io_data io') (io_length io')
      = Some [(9, USB_DT_CONFIG); (9, USB_DT_INTERFACE); (9, HID_DT_HID);
              (7, USB_DT_ENDPOINT)] /\
    nth 4 (io_data io') 0 = 1 /\
    nth 13 (io_data io') 0 = 1 /\
    nth 29 (io_data io') 0 = bEndpointAddress (usb_endpoint w) /\
    read_le16 (io_data io') 25 = sizeof usb_hid_report /\
    List.length (io_data io') = List.length (io_data io) /\
    skipn 34 (io_data io') = skipn 34 (io_data io).
Proof.
  destruct Hcat as (Hconfig & Hep & Hbyte & _).
  eexists. split; [ apply ep0_request_config; assumption | ].
  rewrite Hconfig, Hep.
  cbn [io_length io_data set_io_length set_io_data].
  split; [ reflexivity | ]. split; [ reflexivity | ].
  split; [ reflexivity | ]. split; [ reflexivity | ].
  split; [ reflexivity | ].
  split; [ cbn; apply u8_small; exact Hbyte | ].
  split; [ reflexivity | ]. split.
  - change (config_bytes (set_wTotalLength usb_config_init 34)
            ++ interface_bytes usb_interface ++ hid_bytes usb_hid
            ++ firstn 7
                 (endpoint_bytes
                    (set_bEndpointAddress usb_endpoint_init
                       (bEndpointAddress (usb_endpoint w))))
            ++ skipn 34 (io_data io))
      with (firstn 34
              (config_bytes (set_wTotalLength usb_config_init 34)
               ++ interface_bytes usb_interface ++ hid_bytes usb_hid
               ++ firstn 7
                    (endpoint_bytes
                       (set_bEndpointAddress usb_endpoint_init
                          (bEndpointAddress (usb_endpoint w)))))
            ++ skipn 34 (io_data io)).
    rewrite length_app, length_skipn.
    cbn [firstn config_bytes interface_bytes hid_bytes endpoint_bytes le16 app
         List.length].
    unfold EP0_MAX_DATA in Hbuf. lia.
  - reflexivity.
Qed.

Lemma config_descriptor_well_formed_witness :
  exists io' : usb_raw_control_io,
    ep0_request quiet_env (control_event config_descriptor_request)
      blank_io initial_world = (Ret (true, io'), initial_world) /\
    io_length io' = 34 /\
    read_le16 (io_data io') 2 = io_length io' /\
    descriptor_chain (Z.to_nat (io_length io')) (io_data io') (io_length io')
      = Some [(9, USB_DT_CONFIG); (9, USB_DT_INTERFACE); (9, HID_DT_HID);
              (7, USB_DT_ENDPOINT)] /\
    nth 4 (io_data io') 0 = 1 /\
    nth 13 (io_data io') 0 = 1 /\
    nth 29 (io_data io') 0 = bEndpointAddress (usb_endpoint initial_world) /\
    read_le16 (io_data io') 25 = sizeof usb_hid_report /\
    List.length (io_data io') = List.length (io_data blank_io) /\
    skipn 34 (io_data io') = skipn 34 (io_data blank_io).
Proof.
  apply (config_descriptor_well_formed quiet_env
           (control_event config_descriptor_request) blank_io initial_world).
  - reflexivity.
  - reflexivity.
  - unfold catalog_intact.
    split; [ reflexivity | split; [ reflexivity | split; [ change (0 <= 128 < 256); lia | ] ] ].
    reflexivity.
  - vm_compute. discriminate.
Defined.

Lemma memcpy_length (dst src : list Z) (off n : nat) :
  (off + n <= List.length dst)%nat -> (n <= List.length src)%nat ->
  List.length (memcpy dst off src n) = List.length dst.
Proof.
  intros Hd Hs. unfold memcpy.
  rewrite !length_app, !length_firstn, length_skipn. lia.
Qed.

(** The length of a buffer after a chain of in-bounds copies. *)
Ltac memcpy_lengths :=
  repeat match goal with
    | |- context [Pos.to_nat ?p] =>
        let n := eval vm_compute in (Pos.to_nat p) in
        change (Pos.to_nat p) with n
    end;
  repeat match goal with
    | |- context [List.length (memcpy ?d ?o ?s ?n)] =>
        rewrite (memcpy_length d s o n);
        [ | memcpy_lengths; lia | first [ vm_compute; lia | cbn; lia ] ]
    end.

Lemma memcpy_skipn (dst src : list Z) (off n m : nat) :
  (off + n <= List.length dst)%nat -> (n <= List.length src)%nat ->
  (off + n <= m)%nat ->
  skipn m (memcpy dst off src n) = skipn m dst.
Proof.
  intros Hd Hs Hm. unfold memcpy.
  rewrite skipn_app, length_firstn, skipn_app, length_firstn.
  rewrite (skipn_all2 (firstn off dst)) by (rewrite length_firstn; lia).
  rewrite (skipn_all2 (firstn n src)) by (rewrite length_firstn; lia).
  cbn [app]. rewrite skipn_skipn. f_equal. lia.
Qed.

Lemma memcpy_nth_before (dst src : list Z) (off n k : nat) :
  (k < off)%nat -> (off <= List.length dst)%nat ->
  nth k (memcpy dst off src n) 0 = nth k dst 0.
Proof.
  intros Hk Hd. unfold memcpy.
  rewrite app_nth1 by (rewrite length_firstn; lia).
  rewrite <- (firstn_skipn off dst) at 2.
  rewrite app_nth1 by (rewrite length_firstn; lia). reflexivity.
Qed.

Lemma fill_string_descriptor_layout (id lang : Z)
    (io io' : usb_raw_control_io)
    (Hbuf : EP0_MAX_DATA <= Z.of_nat (List.length (io_data io)))
    (Hans : fill_string_descriptor id lang io = Ret (true, io')) :
  io_length io' = nth 0 (io_data io') 0 /\
  nth 1 (io_data io') 0 = USB_DT_STRING /\
  4 <= io_length io' <= 34 /\
  Z.even (io_length io') = true /\
  List.length (io_data io') = List.length (io_data io) /\
  skipn (Z.to_nat (io_length io')) (io_data io')
    = skipn (Z.to_nat (io_length io')) (io_data io) /\
  (id = 0 -> firstn 4 (io_data io') = [4; USB_DT_STRING; 0x09; 0x04]).
Proof.
  unfold EP0_MAX_DATA in Hbuf.
  assert (Hfmt : forall data : list Z,
    (2 <= List.length data <= 32)%nat ->
    Nat.even (List.length data) = true ->
    io' = set_io_length
            (set_io_data io
               (memcpy (memcpy (memcpy (io_data io) 0
                                  [u8 (sizeof data + 2)] 1)
                          1 [u8 USB_DT_STRING] 1)
                  2 data (Z.to_nat (sizeof data))))
            (char_to_u32
               (nth 0 (memcpy (memcpy (memcpy (io_data io) 0
                                         [u8 (sizeof data + 2)] 1)
                                 1 [u8 USB_DT_STRING] 1)
                         2 data (Z.to_nat (sizeof data))) 0)) ->
    io_length io' = nth 0 (io_data io') 0 /\
    nth 1 (io_data io') 0 = USB_DT_STRING /\
    4 <= io_length io' <= 34 /\
    Z.even (io_length io') = true /\
    List.length (io_data io') = List.length (io_data io) /\
    skipn (Z.to_nat (io_length io')) (io_data io')
      = skipn (Z.to_nat (io_length io')) (io_data io) /\
    firstn (2 + List.length data) (io_data io')
      = [sizeof data + 2; USB_DT_STRING] ++ data).
  { intros data Hlen Heven ->.
    cbn [io_length io_data set_io_length set_io_data].
    unfold sizeof. rewrite Nat2Z.id.
    set (n := List.length data) in *.
    assert (Hb0 : u8 (Z.of_nat n + 2) = Z.of_nat n + 2) by (apply u8_small; lia).
    rewrite Hb0.
    set (d0 := memcpy (io_data io) 0 [Z.of_nat n + 2] 1).
    set (d1 := memcpy d0 1 [u8 USB_DT_STRING] 1).
    set (d2 := memcpy d1 2 data n).
    assert (L0 : List.length d0 = List.length (io_data io))
      by (apply memcpy_length; cbn [List.length]; lia).
    assert (L1 : List.length d1 = List.length (io_data io))
      by (unfold d1; rewrite memcpy_length; cbn [List.length]; lia).
    assert (L2 : List.length d2 = List.length (io_data io))
      by (unfold d2; rewrite memcpy_length; lia).
    assert (N0 : nth 0 d2 0 = Z.of_nat n + 2).
    { unfold d2. rewrite memcpy_nth_before by lia.
      unfold d1. rewrite memcpy_nth_before by lia. reflexivity. }
    assert (N1 : nth 1 d2 0 = USB_DT_STRING).
    { unfold d2. rewrite memcpy_nth_before by lia.
      unfold d1, memcpy. destruct d0 as [| a d0']; [ cbn in L0; lia | ].
      reflexivity. }
    assert (Hlenv : char_to_u32 (nth 0 d2 0) = Z.of_nat n + 2).
    { rewrite N0. unfold char_to_u32.
      destruct (Z.leb_spec 128 (Z.of_nat n + 2)); [ lia | ].
      apply u32_small. lia. }
    rewrite Hlenv.
    split; [ symmetry; exact N0 | ]. split; [ exact N1 | ].
    split; [ lia | ]. split.
    { replace (Z.of_nat n + 2) with (Z.of_nat (n + 2)) by lia.
      rewrite Z.even_spec. apply Nat.even_spec in Heven.
      destruct Heven as [k Hk]. exists (Z.of_nat k + 1). lia. }
    split; [ exact L2 | ]. split.
    { replace (Z.to_nat (Z.of_nat n + 2)) with (2 + n)%nat by lia.
      unfold d2. rewrite memcpy_skipn by lia.
      unfold d1. rewrite memcpy_skipn by (cbn [List.length]; lia).
      unfold d0. rewrite memcpy_skipn by (cbn [List.length]; lia).
      reflexivity. }
    unfold d2, memcpy at 1.
    assert (F2 : firstn 2 d1 = [Z.of_nat n + 2; USB_DT_STRING]).
    { unfold d1, memcpy at 1. unfold d0, memcpy at 1.
      cbn [firstn app Nat.add]. reflexivity. }
    rewrite F2. subst n. rewrite firstn_all.
    rewrite firstn_app. cbn [List.length].
    rewrite firstn_all2 by (cbn [List.length]; lia).
    replace (2 + List.length data - 2)%nat with (List.length data) by lia.
    rewrite firstn_app, firstn_all, Nat.sub_diag. cbn [firstn app].
    rewrite app_nil_r. reflexivity. }
  unfold fill_string_descriptor in Hans.
  destruct ((id =? 0) && (lang =? 0)) eqn:E0; cbn [bind] in Hans.
  - injection Hans as Hio'. symmetry in Hio'.
    destruct (Hfmt languages ltac:(cbn; lia) eq_refl Hio')
      as (H1 & H2 & H3 & H4 & H5 & H6 & H7).
    repeat (split; [ assumption | ]). intros _. exact H7.
  - destruct (0 <? id) eqn:Epos; cbn [assert bind] in Hans;
      [ | discriminate ].
    destruct (lang =? LANG_EN_US); cbn [assert bind] in Hans;
      [ | discriminate ].
    assert (Hnz : id = 0 -> False) by (apply Z.ltb_lt in Epos; lia).
    destruct (id =? STRING_ID_MANUFACTURER);
      [ injection Hans as Hio'; symmetry in Hio';
        destruct (Hfmt manufacturer_en_us ltac:(cbn; lia) eq_refl Hio')
          as (H1 & H2 & H3 & H4 & H5 & H6 & _);
        repeat (split; [ assumption | ]); intros Hz; destruct (Hnz Hz) | ].
    destruct (id =? STRING_ID_PRODUCT);
      [ injection Hans as Hio'; symmetry in Hio';
        destruct (Hfmt product_en_us ltac:(cbn; lia) eq_refl Hio')
          as (H1 & H2 & H3 & H4 & H5 & H6 & _);
        repeat (split; [ assumption | ]); intros Hz; destruct (Hnz Hz) | ].
    destruct (id =? STRING_ID_SERIAL);
      [ injection Hans as Hio'; symmetry in Hio';
        destruct (Hfmt serial_en_us ltac:(cbn; lia) eq_refl Hio')
          as (H1 & H2 & H3 & H4 & H5 & H6 & _);
        repeat (split; [ assumption | ]); intros Hz; destruct (Hnz Hz) | ].
    discriminate.
Qed.

(** X7.  Whenever [fill_string_descriptor] answers, for the language table as
    for a string: the transfer length is the descriptor's own length byte,
    an even number from 4 to 34; the second byte is the string-descriptor
    type; the buffer keeps its size and nothing is written behind the
    descriptor.  The language table is the one language 0x0409. *)
Theorem fill_string_descriptor_answer (id lang : Z)
    (io io' : usb_raw_control_io)
    (Hbuf : EP0_MAX_DATA <= Z.of_nat (List.length (io_data io)))
    (Hans : fill_string_descriptor id lang io = Ret (true, io')) :
  io_length io' = nth 0 (io_data io') 0 /\
  nth 1 (io_data io') 0 = USB_DT_STRING /\
  4 <= io_length io' <= 34 /\
  Z.even (io_length io') = true /\
  List.length (io_data io') = List.length (io_data io) /\
  skipn (Z.to_nat (io_length io')) (io_data io')
    = skipn (Z.to_nat (io_length io')) (io_data io) /\
  (id = 0 -> firstn 4 (io_data io') = [4; USB_DT_STRING; 0x09; 0x04]).
Proof.
  destruct (fill_string_descriptor_layout id lang io io' Hbuf Hans)
    as (H1 & H2 & H3 & H4 & H5 & H6 & H7).
  repeat (split; [ assumption | ]). exact H7.
Qed.

Lemma fill_string_descriptor_answer_witness :
  exists io' : usb_raw_control_io,
    fill_string_descriptor 0 0 blank_io = Ret (true, io') /\
    io_length io' = 4 /\
    firstn 4 (io_data io') = [4; USB_DT_STRING; 0x09; 0x04].
Proof.
  eexists. split; [ reflexivity | ].
  destruct (fill_string_descriptor_answer 0 0 blank_io _
              ltac:(vm_compute; discriminate) eq_refl)
    as (_ & _ & _ & _ & _ & _ & Hlang).
  split; [ reflexivity | apply Hlang; reflexivity ].
Defined.

(** ** Endpoint negotiator: further properties *)

Lemma assign_ep_address_bulk_or_int (info : usb_raw_ep_info)
    (ep : usb_endpoint_descriptor) (a : Z) :
  usb_endpoint_num ep = 0 ->
  bulk_or_int ep = true ->
  assign_ep_address info ep a =
    if supports info ep
    then Ret (true,
              set_bEndpointAddress ep
                (u8 (Z.lor (bEndpointAddress ep) (offered_address info a))),
              if info_addr info =? USB_RAW_EP_ADDR_ANY
              then wrap_int (a + 1) else a)
    else Ret (false, ep, a).
Proof.
  unfold assign_ep_address, supports, bulk_or_int, offered_address.
  intros Hun Hty. rewrite Hun. cbn [Z.eqb negb].
  destruct (usb_endpoint_dir_in ep), (usb_endpoint_dir_out ep),
    (dir_in (caps info)), (dir_out (caps info));
    cbn [negb andb orb]; try reflexivity;
    destruct (usb_endpoint_type ep =? USB_ENDPOINT_XFER_BULK) eqn:Eb;
    destruct (usb_endpoint_type ep =? USB_ENDPOINT_XFER_INT) eqn:Ei;
    cbn [orb andb] in *; try discriminate Hty;
    try (apply Z.eqb_eq in Eb, Ei; rewrite Eb in Ei; discriminate Ei);
    cbn [bind];
    try (destruct (type_bulk (caps info)); cbn [negb andb orb];
         destruct (info_addr info =? USB_RAW_EP_ADDR_ANY); reflexivity);
    try (destruct (type_int (caps info)); cbn [negb andb orb];
         destruct (info_addr info =? USB_RAW_EP_ADDR_ANY); reflexivity).
Qed.

(** X8.  On an unassigned bulk or interrupt endpoint, [assign_ep_address]
    succeeds exactly when the capability entry offers the endpoint's
    direction and transfer type, and it never fails an assertion; a refusal
    changes nothing, a success changes the address byte only.  On an
    unassigned endpoint of another transfer type (control, isochronous)
    whose direction the entry offers, the assertion fails. *)
Theorem assign_ep_address_supported (info : usb_raw_ep_info)
    (ep : usb_endpoint_descriptor) (a : Z)
    (Hun : usb_endpoint_num ep = 0) :
  (bulk_or_int ep = true ->
   assign_ep_address info ep a =
     if supports info ep
     then Ret (true,
               set_bEndpointAddress ep
                 (u8 (Z.lor (bEndpointAddress ep) (offered_address info a))),
               if info_addr info =? USB_RAW_EP_ADDR_ANY
               then wrap_int (a + 1) else a)
     else Ret (false, ep, a)) /\
  (bulk_or_int ep = false ->
   (negb (usb_endpoint_dir_in ep) || dir_in (caps info))
   && (negb (usb_endpoint_dir_out ep) || dir_out (caps info)) = true ->
   assign_ep_address info ep a = Abort).
Proof.
  unfold assign_ep_address, supports, bulk_or_int, offered_address.
  rewrite Hun. cbn [Z.eqb negb].
  destruct (usb_endpoint_dir_in ep), (usb_endpoint_dir_out ep),
    (dir_in (caps info)), (dir_out (caps info));
    cbn [negb andb orb];
    (split; [ intros Hty | intros Hty Hdir; try discriminate Hdir ]);
    try reflexivity;
    destruct (usb_endpoint_type ep =? USB_ENDPOINT_XFER_BULK) eqn:Eb;
    destruct (usb_endpoint_type ep =? USB_ENDPOINT_XFER_INT) eqn:Ei;
    cbn [orb andb] in *; try discriminate Hty; try reflexivity;
    try (apply Z.eqb_eq in Eb, Ei; rewrite Eb in Ei; discriminate Ei);
    cbn [bind];
    try (destruct (type_bulk (caps info)); cbn [negb andb orb];
         destruct (info_addr info =? USB_RAW_EP_ADDR_ANY); reflexivity);
    try (destruct (type_int (caps info)); cbn [negb andb orb];
         destruct (info_addr info =? USB_RAW_EP_ADDR_ANY); reflexivity).
Qed.

Lemma assign_ep_address_supported_witness :
  assign_ep_address (bulk_out_info 2) usb_endpoint_init 1
    = Ret (false, usb_endpoint_init, 1) /\
  assign_ep_address (int_in_info 5) usb_endpoint_init 1
    = Ret (true, set_bEndpointAddress usb_endpoint_init 0x85, 1).
Proof.
  split.
  - apply (assign_ep_address_supported (bulk_out_info 2) usb_endpoint_init 1);
      reflexivity.
  - apply (assign_ep_address_supported (int_in_info 5) usb_endpoint_init 1);
      reflexivity.
Defined.

Lemma table_entries_from (table pre : list usb_raw_ep_info) :
  map (fun i => nth i (pre ++ table) zero_ep_info)
      (seq (List.length pre) (List.length table)) = table.
Proof.
  revert pre. induction table as [| info rest IH]; intros pre.
  - reflexivity.
  - cbn [List.length seq map]. rewrite app_nth2 by lia.
    rewrite Nat.sub_diag. cbn [nth]. f_equal.
    specialize (IH (pre ++ [info])).
    rewrite <- app_assoc, length_app in IH. cbn [List.length app] in IH.
    replace (List.length pre + 1)%nat with (S (List.length pre)) in IH by lia.
    exact IH.
Qed.

Lemma table_entries (table : list usb_raw_ep_info) :
  map (fun i => nth i table zero_ep_info) (seq 0 (List.length table)) = table.
Proof. exact (table_entries_from table []). Qed.

Lemma assign_loop_app (l1 l2 : list usb_raw_ep_info) (w : world) :
  assign_loop (l1 ++ l2) w =
    match assign_loop l1 w with
    | (Ret _, w') => assign_loop l2 w'
    | (Exit, w') => (Exit, w')
    | (Abort, w') => (Abort, w')
    end.
Proof.
  revert w. induction l1 as [| info rest IH]; intros w.
  - reflexivity.
  - cbn [app assign_loop]. unfold mbind, get, lift, modify.
    destruct (assign_ep_address info (usb_endpoint w) (addr w))
      as [[[ok ep] a] | |]; [ | reflexivity | reflexivity ].
    apply IH.
Qed.

Lemma assign_loop_unsupported (l : list usb_raw_ep_info) (w : world) :
  usb_endpoint_num (usb_endpoint w) = 0 ->
  bulk_or_int (usb_endpoint w) = true ->
  Forall (fun info => supports info (usb_endpoint w) = false) l ->
  assign_loop l w = (Ret tt, w).
Proof.
  intros Hun Hty Hall. induction Hall as [| info rest Hinfo _ IH].
  - reflexivity.
  - cbn [assign_loop]. unfold mbind, get, lift, modify.
    rewrite (assign_ep_address_bulk_or_int info _ _ Hun Hty), Hinfo.
    rewrite world_eta. exact IH.
Qed.

(** X9.  The first capable entry wins.  On a connect event with the endpoint
    still unassigned, [process_eps_info] passes over the entries that do not
    offer the endpoint's direction and transfer type and takes the address
    of the first one that does (an endpoint number from 1 to 15): the
    counter's value for an "any address" entry, which then advances by one,
    or the entry's fixed address.  The entries after it change nothing, and
    the assertion on the result holds. *)
Theorem process_eps_info_first_match (env : environment) (w : world)
    (pre post : list usb_raw_ep_info) (info : usb_raw_ep_info)
    (Hun : usb_endpoint_num (usb_endpoint w) = 0)
    (Hty : bulk_or_int (usb_endpoint w) = true)
    (Htable : eps_table env (calls w) = pre ++ info :: post)
    (Hnum : ioctl env (calls w) EPS_INFO
            = Z.of_nat (List.length (pre ++ info :: post)))
    (Hpre : Forall (fun i => supports i (usb_endpoint w) = false) pre)
    (Hinfo : supports info (usb_endpoint w) = true)
    (Hnumber : 1 <= offered_address info (addr w) <= 15) :
  let r := process_eps_info env w in
  fst r = Ret tt /\
  usb_endpoint (snd r)
    = set_bEndpointAddress (usb_endpoint w)
        (u8 (Z.lor (bEndpointAddress (usb_endpoint w))
                   (offered_address info (addr w)))) /\
  usb_endpoint_num (usb_endpoint (snd r)) = offered_address info (addr w) /\
  addr (snd r) = (if info_addr info =? USB_RAW_EP_ADDR_ANY
                  then wrap_int (addr w + 1) else addr w) /\
  calls (snd r) = calls w ++ [(EPS_INFO, ioctl env (calls w) EPS_INFO)].
Proof.
  assert (Hnum' : usb_endpoint_num
                    (set_bEndpointAddress (usb_endpoint w)
                       (u8 (Z.lor (bEndpointAddress (usb_endpoint w))
                                  (offered_address info (addr w)))))
                  = offered_address info (addr w)).
  { unfold usb_endpoint_num. cbn [bEndpointAddress set_bEndpointAddress].
    apply endpoint_num_after_or; [ lia | exact Hun ]. }
  assert (E : process_eps_info env w =
    (Ret tt,
     set_addr
       (set_usb_endpoint
          (record_call w EPS_INFO (ioctl env (calls w) EPS_INFO))
          (set_bEndpointAddress (usb_endpoint w)
             (u8 (Z.lor (bEndpointAddress (usb_endpoint w))
                        (offered_address info (addr w))))))
       (if info_addr info =? USB_RAW_EP_ADDR_ANY
        then wrap_int (addr w + 1) else addr w))).
  { unfold process_eps_info.
    unfold mbind at 1, get at 1. unfold mbind at 1.
    unfold usb_raw_eps_info, usb_raw_ioctl. cbv zeta.
    rewrite Htable, Hnum.
    replace (Z.of_nat (List.length (pre ++ info :: post)) <? 0) with false
      by (symmetry; apply Z.ltb_ge; lia).
    rewrite Nat2Z.id, table_entries.
    set (w1 := record_call w EPS_INFO _).
    unfold mbind at 1. rewrite assign_loop_app.
    rewrite (assign_loop_unsupported pre w1 Hun Hty Hpre).
    cbn [assign_loop]. unfold mbind at 1 2 3, get at 1, lift at 1, modify.
    change (usb_endpoint w1) with (usb_endpoint w).
    change (addr w1) with (addr w).
    rewrite (assign_ep_address_bulk_or_int info _ _ Hun Hty), Hinfo.
    rewrite assign_loop_assigned
      by (cbn [usb_endpoint set_addr set_usb_endpoint]; rewrite Hnum'; lia).
    unfold mbind, get, lift, assert.
    cbn [usb_endpoint set_addr set_usb_endpoint].
    rewrite Hnum'.
    replace (offered_address info (addr w) =? 0) with false
      by (symmetry; apply Z.eqb_neq; lia).
    reflexivity. }
  cbv zeta. rewrite E.
  cbn [fst snd usb_endpoint addr calls set_addr set_usb_endpoint record_call].
  split; [ reflexivity | ]. split; [ reflexivity | ].
  split; [ exact Hnum' | ]. split; reflexivity.
Qed.

Lemma process_eps_info_first_match_witness :
  let env := table_env [bulk_out_info 2; int_in_info USB_RAW_EP_ADDR_ANY;
                        int_in_info 7] in
  let r := process_eps_info env initial_world in
  fst r = Ret tt /\
  usb_endpoint (snd r) = set_bEndpointAddress usb_endpoint_init 0x81 /\
  addr (snd r) = 2.
Proof.
  intros env r.
  destruct (process_eps_info_first_match env initial_world
              [bulk_out_info 2] [int_in_info 7]
              (int_in_info USB_RAW_EP_ADDR_ANY))
    as (H1 & H2 & _ & H4 & _); try reflexivity.
  - repeat constructor.
  - cbn. lia.
  - split; [ exact H1 | split; [ exact H2 | exact H4 ] ].
Defined.

Lemma entries_unsupported (table : list usb_raw_ep_info)
    (ep : usb_endpoint_descriptor) (n : nat) :
  Forall (fun info => supports info ep = false) table ->
  Forall (fun info => supports info ep = false)
         (map (fun i => nth i table zero_ep_info) (seq 0 n)).
Proof.
  intros Hall. apply Forall_forall. intros info Hin.
  apply in_map_iff in Hin. destruct Hin as (i & <- & _).
  destruct (nth_in_or_default i table zero_ep_info) as [Hin | ->].
  - exact (proj1 (Forall_forall _ _) Hall _ Hin).
  - unfold supports. cbn [caps zero_ep_info type_bulk type_int].
    rewrite !andb_false_r. cbn [orb]. rewrite ?andb_false_r. reflexivity.
Qed.

(** X10.  No capable entry is fatal.  When the endpoint is unassigned and no
    entry of the controller's table offers its direction and transfer type
    (an empty table included), [process_eps_info] leaves the endpoint and
    the counter alone and fails its assertion; when the query itself fails,
    the process exits. *)
Theorem process_eps_info_no_match (env : environment) (w : world)
    (Hun : usb_endpoint_num (usb_endpoint w) = 0)
    (Hty : bulk_or_int (usb_endpoint w) = true)
    (Hnone : Forall (fun i => supports i (usb_endpoint w) = false)
                    (eps_table env (calls w))) :
  process_eps_info env w
  = (if ioctl env (calls w) EPS_INFO <? 0 then Exit else Abort,
     record_call w EPS_INFO (ioctl env (calls w) EPS_INFO)).
Proof.
  unfold process_eps_info.
  unfold mbind at 1, get at 1. unfold mbind at 1.
  unfold usb_raw_eps_info, usb_raw_ioctl. cbv zeta.
  destruct (ioctl env (calls w) EPS_INFO <? 0); [ reflexivity | ].
  set (w1 := record_call w EPS_INFO _).
  unfold mbind at 1.
  rewrite (assign_loop_unsupported _ w1 Hun Hty)
    by (apply entries_unsupported; exact Hnone).
  unfold mbind, get, lift, assert.
  change (usb_endpoint w1) with (usb_endpoint w). rewrite Hun. reflexivity.
Qed.

Lemma process_eps_info_no_match_witness :
  process_eps_info (table_env [bulk_out_info 2]) initial_world
  = (Abort, record_call initial_world EPS_INFO 1).
Proof.
  apply (process_eps_info_no_match (table_env [bulk_out_info 2]) initial_world).
  - reflexivity.
  - reflexivity.
  - repeat constructor.
Defined.

(** ** Framing *)

Lemma leaves_ret {X A : Type} (f : world -> X) (a : A) : leaves f (ret a).
Proof. intros w. reflexivity. Qed.

Lemma leaves_exit {X A : Type} (f : world -> X) : leaves f (@exit A).
Proof. intros w. reflexivity. Qed.

Lemma leaves_get {X : Type} (f : world -> X) : leaves f get.
Proof. intros w. reflexivity. Qed.

Lemma leaves_lift {X A : Type} (f : world -> X) (r : result A) :
  leaves f (lift r).
Proof. intros w. reflexivity. Qed.

Lemma leaves_bind {X A B : Type} (f : world -> X) (m : M A) (k : A -> M B) :
  leaves f m -> (forall a, leaves f (k a)) -> leaves f (mbind m k).
Proof.
  intros Hm Hk w. unfold mbind. specialize (Hm w).
  destruct (m w) as [[a | |] w']; cbn [snd] in *.
  - rewrite Hk. exact Hm.
  - exact Hm.
  - exact Hm.
Qed.

Lemma leaves_ioctl {X : Type} (f : world -> X) (env : environment) (c : call) :
  history_blind f -> leaves f (usb_raw_ioctl env c).
Proof. intros Hf w. unfold usb_raw_ioctl. cbn [snd]. apply Hf. Qed.

Lemma preserves_leaves {X A : Type} (f : world -> X) (P : world -> Prop)
    (m : M A) :
  (forall w w', f w' = f w -> P w -> P w') -> leaves f m -> preserves P m.
Proof. intros HP Hm w Hw. exact (HP w _ (Hm w) Hw). Qed.

Lemma preserves_bind {A B : Type} (P : world -> Prop) (m : M A) (k : A -> M B) :
  preserves P m -> (forall a, preserves P (k a)) -> preserves P (mbind m k).
Proof.
  intros Hm Hk w Hw. unfold mbind. specialize (Hm w Hw).
  destruct (m w) as [[a | |] w']; cbn [snd] in *.
  - apply Hk, Hm.
  - exact Hm.
  - exact Hm.
Qed.

Lemma appends_ret {A : Type} (P : call -> bool) (a : A) : appends P (ret a).
Proof. intros w. exists []. split; [ symmetry; apply app_nil_r | constructor ]. Qed.

Lemma appends_exit {A : Type} (P : call -> bool) : appends P (@exit A).
Proof. intros w. exists []. split; [ symmetry; apply app_nil_r | constructor ]. Qed.

Lemma appends_get (P : call -> bool) : appends P get.
Proof. intros w. exists []. split; [ symmetry; apply app_nil_r | constructor ]. Qed.

Lemma appends_lift {A : Type} (P : call -> bool) (r : result A) :
  appends P (lift r).
Proof. intros w. exists []. split; [ symmetry; apply app_nil_r | constructor ]. Qed.

Lemma appends_modify (P : call -> bool) (g : world -> world) :
  (forall w, calls (g w) = calls w) -> appends P (modify g).
Proof.
  intros Hg w. exists []. cbn [modify snd]. rewrite Hg.
  split; [ symmetry; apply app_nil_r | constructor ].
Qed.

Lemma appends_bind {A B : Type} (P : call -> bool) (m : M A) (k : A -> M B) :
  appends P m -> (forall a, appends P (k a)) -> appends P (mbind m k).
Proof.
  intros Hm Hk w. unfold mbind. destruct (Hm w) as (l1 & E1 & F1).
  destruct (m w) as [[a | |] w']; cbn [snd] in *;
    try (exists l1; split; assumption).
  destruct (Hk a w') as (l2 & E2 & F2).
  exists (l1 ++ l2). rewrite E2, E1, app_assoc.
  split; [ reflexivity | apply Forall_app; split; assumption ].
Qed.

Lemma appends_ioctl (P : call -> bool) (env : environment) (c : call) :
  P c = true -> appends P (usb_raw_ioctl env c).
Proof.
  intros Hc w. unfold usb_raw_ioctl. cbn [snd calls record_call].
  eexists. split; [ reflexivity | ]. repeat constructor. exact Hc.
Qed.

Lemma appends_weaken {A : Type} (P Q : call -> bool) (m : M A) :
  (forall c, P c = true -> Q c = true) -> appends P m -> appends Q m.
Proof.
  intros HPQ Hm w. destruct (Hm w) as (l & E & F). exists l.
  split; [ exact E | ]. eapply Forall_impl; [ | exact F ].
  intros e. apply HPQ.
Qed.

Lemma appends_pthread_create (env : environment) :
  appends dispatcher_call (pthread_create env).
Proof.
  intros w. unfold pthread_create.
  destruct (pthread_create_result env (calls w)) as [rv thread].
  cbn [snd calls record_call set_ep_int_in_thread].
  eexists. split; [ reflexivity | ]. repeat constructor.
Qed.

Lemma leaves_pthread_create {X : Type} (f : world -> X) (env : environment) :
  history_blind f ->
  (forall w t, f (set_ep_int_in_thread w t) = f w) ->
  leaves f (pthread_create env).
Proof.
  intros Hh Ht w. unfold pthread_create.
  destruct (pthread_create_result env (calls w)) as [rv thread].
  cbn [snd]. rewrite Hh. apply Ht.
Qed.

Lemma catalog_history_blind : history_blind catalog.
Proof. intros w c rv. reflexivity. Qed.

(** The dispatcher's own steps: the catalog and the counter are not
    touched, and the calls made are the dispatcher's. *)
Lemma ep0_request_frame (env : environment) (ev : usb_raw_control_event)
    (io : usb_raw_control_io) :
  leaves catalog (ep0_request env ev io) /\
  appends dispatcher_call (ep0_request env ev io).
Proof.
  unfold ep0_request.
  repeat match goal with
    | |- context [if ?c then _ else _] => destruct c
    end;
    (split;
     [ repeat first
         [ apply leaves_ret
         | apply leaves_exit
         | apply leaves_get
         | apply leaves_lift
         | apply leaves_pthread_create;
           [ apply catalog_history_blind | reflexivity ]
         | apply leaves_ioctl; apply catalog_history_blind
         | apply leaves_bind; [ | intros ? ]
         | match goal with
           | |- context [if ?c then _ else _] => destruct c
           end
         | (intros w; reflexivity) ]
     | repeat first
         [ apply appends_ret
         | apply appends_exit
         | apply appends_get
         | apply appends_lift
         | apply appends_pthread_create
         | apply appends_ioctl; reflexivity
         | apply appends_modify; reflexivity
         | apply appends_bind; [ | intros ? ]
         | match goal with
           | |- context [if ?c then _ else _] => destruct c
           end ] ]).
Qed.

(** ** Control transfer dispatcher: further properties *)

Lemma ep0_request_pure (env : environment) (ev : usb_raw_control_event)
    (io : usb_raw_control_io) (w : world) :
  is_set_configuration (ctrl ev) = false ->
  is_set_idle (ctrl ev) = false ->
  snd (ep0_request env ev io w) = w.
Proof.
  unfold is_set_configuration, is_set_idle, request_class, ep0_request.
  unfold mbind, get, ret, lift, exit. unfold_codes.
  case_tests; cbn [andb snd]; intros Hsc Hsi;
    try discriminate Hsc; try discriminate Hsi; try reflexivity.
Qed.

(** X11.  The dispatcher never touches the descriptor catalog or the address
    counter, and the only calls it makes are the endpoint enable, the power
    declaration and the configure call of SET_CONFIGURATION and the thread
    creation of SET_IDLE: it issues no transfer and no stall itself.  Every
    other request is answered (or rejected) without any call and without
    any change of the state. *)
Theorem ep0_request_changes (env : environment) (ev : usb_raw_control_event)
    (io : usb_raw_control_io) (w : world) :
  catalog (snd (ep0_request env ev io w)) = catalog w /\
  (exists l : history,
      calls (snd (ep0_request env ev io w)) = calls w ++ l /\
      Forall (fun e => dispatcher_call (fst e) = true) l) /\
  (is_set_configuration (ctrl ev) = false ->
   is_set_idle (ctrl ev) = false ->
   snd (ep0_request env ev io w) = w).
Proof.
  destruct (ep0_request_frame env ev io) as [Hleaves Happends].
  split; [ apply Hleaves | ]. split; [ apply Happends | ].
  apply ep0_request_pure.
Qed.

(** X12.  A response never outgrows the transfer buffer: whenever the dispatcher
    answers, the length it sets is between 0 and 81 (the HID report
    descriptor is the longest response), the 256-byte buffer keeps its
    size, and the endpoint and flags of the transfer are left at 0 as the
    loop set them. *)
Theorem ep0_request_response_bounds (env : environment)
    (ev : usb_raw_control_event) (io io' : usb_raw_control_io) (w : world)
    (Hbuf : EP0_MAX_DATA <= Z.of_nat (List.length (io_data io)))
    (Hans : fst (ep0_request env ev io w) = Ret (true, io')) :
  0 <= io_length io' <= sizeof usb_hid_report /\
  sizeof usb_hid_report <= EP0_MAX_DATA /\
  List.length (io_data io') = List.length (io_data io) /\
  io_ep io' = io_ep io /\ io_flags io' = io_flags io.
Proof.
  split; [ | split; [ vm_compute; discriminate | ] ].
  - revert Hans.
    destruct (is_string_request (ctrl ev)) eqn:Hs.
    + unfold is_string_request, is_get_descriptor, request_class,
        descriptor_type in Hs.
      apply andb_prop in Hs. destruct Hs as [Hg Hd].
      apply andb_prop in Hg. destruct Hg as [Hc Hr].
      unfold ep0_request. rewrite Hc, Hr.
      apply Z.eqb_eq in Hd. rewrite Hd.
      change (USB_DT_STRING =? USB_DT_DEVICE) with false.
      change (USB_DT_STRING =? USB_DT_DEVICE_QUALIFIER) with false.
      change (USB_DT_STRING =? USB_DT_CONFIG) with false.
      change (USB_DT_STRING =? USB_DT_STRING) with true.
      cbv iota. unfold lift. cbn [fst]. intros Hans.
      destruct (fill_string_descriptor_layout _ _ io io' Hbuf Hans)
        as (_ & _ & Hlen & _).
      change (sizeof usb_hid_report) with 81. lia.
    + revert Hs.
      unfold is_string_request, is_get_descriptor, request_class,
        descriptor_type, ep0_request.
      unfold mbind, get, ret, lift, exit, modify, pthread_create,
        usb_raw_ep_enable, usb_raw_vbus_draw, usb_raw_configure,
        usb_raw_ioctl.
      cbv beta zeta. unfold_codes.
      case_tests; cbn [andb negb fst bind]; intros Hs;
        try discriminate Hs; intros Hans; try discriminate Hans;
        try (destruct (pthread_create_result env (calls w)) as [rv thread];
             cbn [fst] in Hans);
        injection Hans as <-;
        cbn [io_length set_io_length set_io_data];
        change (sizeof usb_hid_report) with 81; try lia;
        vm_compute; split; discriminate.
  - revert Hans.
    destruct (is_string_request (ctrl ev)) eqn:Hs.
    + unfold is_string_request, is_get_descriptor, request_class,
        descriptor_type in Hs.
      apply andb_prop in Hs. destruct Hs as [Hg Hd].
      apply andb_prop in Hg. destruct Hg as [Hc Hr].
      unfold ep0_request. rewrite Hc, Hr.
      apply Z.eqb_eq in Hd. rewrite Hd.
      change (USB_DT_STRING =? USB_DT_DEVICE) with false.
      change (USB_DT_STRING =? USB_DT_DEVICE_QUALIFIER) with false.
      change (USB_DT_STRING =? USB_DT_CONFIG) with false.
      change (USB_DT_STRING =? USB_DT_STRING) with true.
      cbv iota. unfold lift. cbn [fst]. intros Hans.
      destruct (fill_string_descriptor_layout _ _ io io' Hbuf Hans)
        as (_ & _ & _ & _ & Hlen & _).
      split; [ exact Hlen | ].
      unfold fill_string_descriptor in Hans.
      destruct ((_ =? 0) && (_ =? 0)); cbn [bind] in Hans;
        [ injection Hans as <-; split; reflexivity | ].
      destruct (0 <? _); cbn [assert bind] in Hans; [ | discriminate ].
      destruct (_ =? LANG_EN_US); cbn [assert bind] in Hans; [ | discriminate ].
      repeat match type of Hans with
        | context [if ?c then _ else _] => destruct c
        end; cbn [bind] in Hans; try discriminate;
        injection Hans as <-; split; reflexivity.
    + unfold EP0_MAX_DATA in Hbuf. revert Hs.
      unfold is_string_request, is_get_descriptor, request_class,
        descriptor_type, ep0_request.
      unfold mbind, get, ret, lift, exit, modify, pthread_create,
        usb_raw_ep_enable, usb_raw_vbus_draw, usb_raw_configure,
        usb_raw_ioctl.
      cbv beta zeta. unfold_codes.
      case_tests; cbn [andb negb fst bind]; intros Hs;
        try discriminate Hs; intros Hans; try discriminate Hans;
        try (destruct (pthread_create_result env (calls w)) as [rv thread];
             cbn [fst] in Hans);
        injection Hans as <-;
        cbn [io_length io_data io_ep io_flags set_io_length set_io_data];
        (split; [ | split; reflexivity ]);
        try reflexivity;
        memcpy_lengths; reflexivity.
Qed.

Lemma ep0_request_response_bounds_witness :
  let io' := set_io_length
               (set_io_data blank_io
                  (memcpy (io_data blank_io) 0 usb_hid_report
                     (Z.to_nat (sizeof usb_hid_report))))
               (sizeof usb_hid_report) in
  0 <= io_length io' <= sizeof usb_hid_report /\
  sizeof usb_hid_report <= EP0_MAX_DATA /\
  List.length (io_data io') = List.length (io_data blank_io) /\
  io_ep io' = io_ep blank_io /\ io_flags io' = io_flags blank_io.
Proof.
  intros io'.
  apply (ep0_request_response_bounds quiet_env
           (control_event {| bRequestType := 0x81;
                             bRequest := USB_REQ_GET_DESCRIPTOR;
                             wValue := 0x2200; wIndex := 0; wLength := 81 |})
           blank_io io' initial_world).
  - vm_compute. discriminate.
  - reflexivity.
Defined.

(** ** Event loop: what a whole run keeps true *)

Lemma in_bit_kept (b v : Z) :
  Z.land b USB_DIR_IN = USB_DIR_IN ->
  Z.land (u8 (Z.lor b v)) USB_DIR_IN = USB_DIR_IN.
Proof.
  intros Hb. unfold u8, USB_DIR_IN in *. change 256 with (2 ^ 8).
  rewrite <- Z.land_ones by lia. rewrite <- Z.land_assoc.
  change (Z.land (Z.ones 8) 128) with 128.
  rewrite Z.land_lor_distr_l, Hb.
  apply Z.bits_inj'. intros n Hn.
  rewrite Z.lor_spec, Z.land_spec.
  destruct (Z.testbit 128 n); [ reflexivity | ].
  rewrite andb_false_r. reflexivity.
Qed.

Lemma program_invariant_catalog (w w' : world) :
  catalog w' = catalog w -> program_invariant w -> program_invariant w'.
Proof.
  unfold catalog, program_invariant, catalog_intact.
  intros [= Hc He Ha]. rewrite Hc, He, Ha. exact (fun H => H).
Qed.

Lemma assign_step_invariant (info : usb_raw_ep_info) (w : world)
    (ok : bool) (ep : usb_endpoint_descriptor) (a : Z) :
  program_invariant w ->
  assign_ep_address info (usb_endpoint w) (addr w) = Ret (ok, ep, a) ->
  program_invariant (set_addr (set_usb_endpoint w ep) a).
Proof.
  intros Hinv Hcall.
  destruct (Z.eq_dec (usb_endpoint_num (usb_endpoint w)) 0) as [Hun | Has].
  - destruct Hinv as ((Hcfg & Hep & Hbyte & Hin) & Hcount).
    assert (Hty : bulk_or_int (usb_endpoint w) = true)
      by (rewrite Hep; reflexivity).
    rewrite (assign_ep_address_bulk_or_int info _ _ Hun Hty) in Hcall.
    destruct (supports info (usb_endpoint w)).
    + injection Hcall as _ <- <-.
      unfold program_invariant, catalog_intact.
      cbn [usb_config usb_endpoint addr set_addr set_usb_endpoint
           bEndpointAddress set_bEndpointAddress].
      split; [ split; [ exact Hcfg | split; [ | split ] ] | ].
      * rewrite Hep at 1. reflexivity.
      * unfold u8. apply Z.mod_pos_bound. lia.
      * apply in_bit_kept, Hin.
      * destruct Hcount as [H1 | [_ Hne]]; [ | contradiction ].
        unfold offered_address.
        destruct (info_addr info =? USB_RAW_EP_ADDR_ANY); [ | left; exact H1 ].
        right. rewrite H1. split; [ reflexivity | ].
        unfold usb_endpoint_num.
        cbn [bEndpointAddress set_bEndpointAddress].
        rewrite endpoint_num_after_or; [ discriminate | lia | exact Hun ].
    + injection Hcall as _ <- <-. rewrite world_eta.
      split; [ split; [ exact Hcfg | split; [ exact Hep | split ] ] | ];
        assumption.
  - rewrite (assign_ep_address_assigned info _ _ Has) in Hcall.
    injection Hcall as _ <- <-. rewrite world_eta. exact Hinv.
Qed.

Lemma assign_loop_invariant (l : list usb_raw_ep_info) :
  preserves program_invariant (assign_loop l).
Proof.
  induction l as [| info rest IH]; intros w Hinv.
  - exact Hinv.
  - cbn [assign_loop]. unfold mbind, get, lift, modify.
    destruct (assign_ep_address info (usb_endpoint w) (addr w))
      as [[[ok ep] a] | |] eqn:Hcall; cbn [snd]; [ | exact Hinv | exact Hinv ].
    apply IH. exact (assign_step_invariant info w ok ep a Hinv Hcall).
Qed.

Lemma preserves_catalog_only {A : Type} (m : M A) :
  leaves catalog m -> preserves program_invariant m.
Proof. apply preserves_leaves. exact program_invariant_catalog. Qed.

Lemma process_eps_info_invariant (env : environment) :
  preserves program_invariant (process_eps_info env).
Proof.
  unfold process_eps_info.
  apply preserves_bind;
    [ apply preserves_catalog_only, leaves_get | intros w0 ].
  apply preserves_bind;
    [ apply preserves_catalog_only, leaves_ioctl, catalog_history_blind
    | intros num ].
  apply preserves_bind; [ apply assign_loop_invariant | intros _ ].
  apply preserves_bind;
    [ apply preserves_catalog_only, leaves_get | intros w1 ].
  apply preserves_catalog_only, leaves_lift.
Qed.

Lemma ep0_loop_body_invariant (env : environment)
    (ev : usb_raw_control_event) :
  preserves program_invariant (ep0_loop_body env ev).
Proof.
  unfold ep0_loop_body.
  apply preserves_bind;
    [ apply preserves_catalog_only, leaves_ioctl, catalog_history_blind
    | intros _ ].
  apply preserves_bind.
  { destruct (inner_type ev =? USB_RAW_EVENT_CONNECT);
      [ apply process_eps_info_invariant
      | apply preserves_catalog_only, leaves_ret ]. }
  intros _.
  destruct (negb (inner_type ev =? USB_RAW_EVENT_CONTROL));
    [ apply preserves_catalog_only, leaves_ret | ].
  apply preserves_bind;
    [ apply preserves_catalog_only, leaves_get | intros w0 ].
  apply preserves_bind;
    [ apply preserves_catalog_only, ep0_request_frame | intros [reply io] ].
  apply preserves_catalog_only.
  destruct (negb reply).
  - apply leaves_bind;
      [ apply leaves_ioctl, catalog_history_blind
      | intros _; apply leaves_ret ].
  - destruct (negb (Z.land (bRequestType (ctrl ev)) USB_DIR_IN =? 0));
      (apply leaves_bind;
       [ apply leaves_ioctl, catalog_history_blind
       | intros _; apply leaves_ret ]).
Qed.

Lemma ep0_loop_invariant (env : environment)
    (events : list usb_raw_control_event) :
  preserves program_invariant (ep0_loop env events).
Proof.
  induction events as [| ev rest IH].
  - intros w Hw. exact Hw.
  - cbn [ep0_loop]. apply preserves_bind;
      [ apply ep0_loop_body_invariant | intros _; exact IH ].
Qed.

(** X13.  Whatever events arrive and whatever the controller answers, the
    catalog stays as initialised but for the endpoint address: the
    configuration descriptor is never modified, the endpoint stays an
    interrupt IN endpoint with 8-byte packets, its address stays a byte,
    and the address counter is used at most once in the life of the
    process (it is 1, or it is 2 and the endpoint is assigned). *)
Theorem ep0_loop_keeps_catalog (env : environment)
    (events : list usb_raw_control_event) :
  let w := snd (ep0_loop env events initial_world) in
  usb_config w = usb_config_init /\
  usb_endpoint w
    = set_bEndpointAddress usb_endpoint_init (bEndpointAddress (usb_endpoint w))
  /\ 0 <= bEndpointAddress (usb_endpoint w) < 256
  /\ usb_endpoint_dir_in (usb_endpoint w) = true
  /\ usb_endpoint_type (usb_endpoint w) = USB_ENDPOINT_XFER_INT
  /\ wMaxPacketSize (usb_endpoint w) = sizeof_pen_report
  /\ (addr w = 1 \/ (addr w = 2 /\ usb_endpoint_num (usb_endpoint w) <> 0)).
Proof.
  cbv zeta.
  assert (Hinit : program_invariant initial_world).
  { split; [ | left; reflexivity ].
    split; [ reflexivity | split; [ reflexivity | split ] ];
      [ change (0 <= 128 < 256); lia | reflexivity ]. }
  destruct (ep0_loop_invariant env events initial_world Hinit)
    as ((Hcfg & Hep & Hbyte & Hin) & Hcount).
  split; [ exact Hcfg | ]. split; [ exact Hep | ]. split; [ exact Hbyte | ].
  split; [ unfold usb_endpoint_dir_in;
           change USB_ENDPOINT_DIR_MASK with USB_DIR_IN;
           rewrite Hin; reflexivity | ].
  split; [ rewrite Hep; reflexivity | ].
  split; [ rewrite Hep; reflexivity | exact Hcount ].
Qed.

Lemma appends_assign_loop (P : call -> bool) (l : list usb_raw_ep_info) :
  appends P (assign_loop l).
Proof.
  induction l as [| info rest IH].
  - apply appends_ret.
  - cbn [assign_loop].
    apply appends_bind; [ apply appends_get | intros w0 ].
    apply appends_bind; [ apply appends_lift | intros [[ok ep] a] ].
    apply appends_bind; [ apply appends_modify; reflexivity | intros _ ].
    exact IH.
Qed.

Lemma appends_process_eps_info (env : environment) :
  appends is_eps_info (process_eps_info env).
Proof.
  unfold process_eps_info.
  apply appends_bind; [ apply appends_get | intros w0 ].
  apply appends_bind; [ apply appends_ioctl; reflexivity | intros num ].
  apply appends_bind; [ apply appends_assign_loop | intros _ ].
  apply appends_bind; [ apply appends_get | intros w1 ].
  apply appends_lift.
Qed.

Lemma count_calls_none (p P : call -> bool) (l : history) :
  (forall c, P c = true -> p c = false) ->
  Forall (fun e => P (fst e) = true) l ->
  count_calls p l = 0%nat.
Proof.
  intros HPp Hall. unfold count_calls.
  induction Hall as [| e rest He _ IH]; [ reflexivity | ].
  cbn [filter]. rewrite (HPp _ He). exact IH.
Qed.

(** One iteration of the loop on an event that is no control event. *)
Lemma ep0_loop_body_other (env : environment) (ev : usb_raw_control_event)
    (w : world) :
  inner_type ev <> USB_RAW_EVENT_CONTROL ->
  ep0_loop_body env ev w =
    let rv := ioctl env (calls w) EVENT_FETCH in
    let w1 := record_call w EVENT_FETCH rv in
    if rv <? 0 then (Exit, w1)
    else if inner_type ev =? USB_RAW_EVENT_CONNECT
         then process_eps_info env w1
         else (Ret tt, w1).
Proof.
  intros Hoth. unfold ep0_loop_body.
  apply Z.eqb_neq in Hoth. rewrite Hoth. cbn [negb].
  unfold mbind at 1. unfold usb_raw_event_fetch, usb_raw_ioctl. cbv zeta.
  destruct (ioctl env (calls w) EVENT_FETCH <? 0); [ reflexivity | ].
  unfold mbind, ret.
  destruct (inner_type ev =? USB_RAW_EVENT_CONNECT); [ | reflexivity ].
  destruct (process_eps_info env _) as [[[] | |] w2]; reflexivity.
Qed.

Lemma ep0_loop_body_counts (env : environment) (ev : usb_raw_control_event)
    (w : world) :
  fst (ep0_loop_body env ev w) = Ret tt ->
  count_calls is_ep0_action (calls (snd (ep0_loop_body env ev w)))
    = (count_calls is_ep0_action (calls w)
       + (if is_control ev then 1 else 0))%nat /\
  count_calls is_event_fetch (calls (snd (ep0_loop_body env ev w)))
    = (count_calls is_event_fetch (calls w) + 1)%nat.
Proof.
  unfold is_control.
  destruct (Z.eqb_spec (inner_type ev) USB_RAW_EVENT_CONTROL) as [Hctl | Hoth].
  - rewrite (ep0_loop_body_control env ev w Hctl). cbv zeta.
    destruct (ioctl env (calls w) EVENT_FETCH <? 0); [ discriminate | ].
    set (w1 := record_call w EVENT_FETCH _).
    destruct (ep0_request_frame env ev (fresh_io env w1)) as [_ Happ].
    destruct (Happ w1) as (l & El & Fl).
    assert (Hep0 : count_calls is_ep0_action l = 0%nat)
      by (apply (count_calls_none _ dispatcher_call);
          [ intros []; (discriminate || reflexivity) | exact Fl ]).
    assert (Hfetch : count_calls is_event_fetch l = 0%nat)
      by (apply (count_calls_none _ dispatcher_call);
          [ intros []; (discriminate || reflexivity) | exact Fl ]).
    destruct (ep0_request env ev (fresh_io env w1) w1)
      as [[[[] io] | |] w2]; cbn [snd] in El; try discriminate.
    + destruct (Z.land (bRequestType (ctrl ev)) USB_DIR_IN =? 0);
        cbn [fst snd calls record_call]; intros _;
        rewrite El; subst w1; cbn [calls record_call];
        rewrite !count_calls_app, Hep0, Hfetch; cbn; lia.
    + cbn [fst snd calls record_call]. intros _.
      rewrite El. subst w1. cbn [calls record_call].
      rewrite !count_calls_app, Hep0, Hfetch. cbn. lia.
  - rewrite (ep0_loop_body_other env ev w Hoth). cbv zeta.
    destruct (ioctl env (calls w) EVENT_FETCH <? 0); [ discriminate | ].
    set (w1 := record_call w EVENT_FETCH _).
    destruct (inner_type ev =? USB_RAW_EVENT_CONNECT).
    + destruct (appends_process_eps_info env w1) as (l & El & Fl).
      assert (Hep0 : count_calls is_ep0_action l = 0%nat)
        by (apply (count_calls_none _ is_eps_info);
            [ intros []; (discriminate || reflexivity) | exact Fl ]).
      assert (Hfetch : count_calls is_event_fetch l = 0%nat)
        by (apply (count_calls_none _ is_eps_info);
            [ intros []; (discriminate || reflexivity) | exact Fl ]).
      intros _. rewrite El. subst w1. cbn [calls record_call].
      rewrite !count_calls_app, Hep0, Hfetch. cbn. lia.
    + cbn [fst snd]. intros _. subst w1. cbn [calls record_call].
      rewrite !count_calls_app. cbn. lia.
Qed.

(** X14.  One answer per request.  While the loop is running, it has fetched
    every event delivered so far and has answered each control event with
    exactly one transfer or stall on the control endpoint; connect events
    and events of other types get no answer. *)
Theorem ep0_loop_one_answer_per_request (env : environment)
    (events : list usb_raw_control_event) (w : world)
    (Hrun : fst (ep0_loop env events w) = Ret tt) :
  count_calls is_ep0_action (calls (snd (ep0_loop env events w)))
    = (count_calls is_ep0_action (calls w)
       + List.length (filter is_control events))%nat /\
  count_calls is_event_fetch (calls (snd (ep0_loop env events w)))
    = (count_calls is_event_fetch (calls w) + List.length events)%nat.
Proof.
  revert w Hrun. induction events as [| ev rest IH]; intros w Hrun.
  - cbn. lia.
  - cbn [ep0_loop] in Hrun |- *. unfold mbind in Hrun |- *.
    assert (Hbody := ep0_loop_body_counts env ev w).
    destruct (ep0_loop_body env ev w) as [[[] | |] w1];
      cbn [fst snd] in *; try discriminate.
    destruct (Hbody eq_refl) as [Hb1 Hb2].
    destruct (IH w1 Hrun) as [H1 H2].
    rewrite H1, H2, Hb1, Hb2. cbn [filter List.length].
    destruct (is_control ev); cbn [List.length]; lia.
Qed.

Lemma ep0_loop_one_answer_per_request_witness :
  let r := ep0_loop one_endpoint_env enumeration_events initial_world in
  count_calls is_ep0_action (calls (snd r)) = 2%nat /\
  count_calls is_event_fetch (calls (snd r)) = 3%nat.
Proof.
  exact (ep0_loop_one_answer_per_request one_endpoint_env enumeration_events
           initial_world eq_refl).
Defined.

(** *** Failing fast *)

Lemma in_removelast (h : history) (e : call * Z) :
  In e (removelast h) -> In e h.
Proof.
  induction h as [| a t IH]; [ intros [] | ].
  destruct t as [| b t']; [ intros [] | ].
  change (removelast (a :: b :: t')) with (a :: removelast (b :: t')).
  intros [<- | He]; [ left; reflexivity | right; apply IH, He ].
Qed.

Lemma all_succeeded_removelast (h : history) :
  all_succeeded h -> all_succeeded (removelast h).
Proof.
  unfold all_succeeded. rewrite !Forall_forall.
  intros H e He. apply H, in_removelast, He.
Qed.

Lemma fails_fast_quiet {A : Type} (m : M A) :
  leaves calls m -> fails_fast m.
Proof.
  intros Hm w Hw. rewrite (Hm w).
  split; [ apply all_succeeded_removelast, Hw | intros _ _; exact Hw ].
Qed.

Lemma fails_fast_bind {A B : Type} (m : M A) (k : A -> M B) :
  fails_fast m -> (forall a, fails_fast (k a)) -> fails_fast (mbind m k).
Proof.
  intros Hm Hk w Hw. unfold mbind. destruct (Hm w Hw) as [Hlast Hret].
  destruct (m w) as [[a | |] w']; cbn [fst snd] in *.
  - apply Hk. exact (Hret a eq_refl).
  - split; [ exact Hlast | discriminate ].
  - split; [ exact Hlast | discriminate ].
Qed.

Lemma fails_fast_ioctl (env : environment) (c : call) :
  fails_fast (usb_raw_ioctl env c).
Proof.
  intros w Hw. unfold usb_raw_ioctl. cbn [fst snd calls record_call].
  rewrite removelast_last. split; [ exact Hw | ].
  intros a Ha. apply Forall_app. split; [ exact Hw | ].
  constructor; [ | constructor ]. cbn [fst snd]. intros _.
  destruct (Z.ltb_spec (ioctl env (calls w) c) 0); [ discriminate | lia ].
Qed.

Lemma fails_fast_pthread_create (env : environment) :
  fails_fast (pthread_create env).
Proof.
  intros w Hw. unfold pthread_create.
  destruct (pthread_create_result env (calls w)) as [rv thread].
  cbn [fst snd calls record_call set_ep_int_in_thread].
  rewrite removelast_last. split; [ exact Hw | ].
  intros _ _. apply Forall_app. split; [ exact Hw | ].
  constructor; [ | constructor ]. cbn [fst]. discriminate.
Qed.

Lemma leaves_calls_assign_loop (l : list usb_raw_ep_info) :
  leaves calls (assign_loop l).
Proof.
  induction l as [| info rest IH].
  - apply leaves_ret.
  - cbn [assign_loop].
    apply leaves_bind; [ apply leaves_get | intros w0 ].
    apply leaves_bind; [ apply leaves_lift | intros [[ok ep] a] ].
    apply leaves_bind; [ intros w; reflexivity | intros _; exact IH ].
Qed.

Ltac fails_fast_steps :=
  repeat first
    [ apply fails_fast_ioctl
    | apply fails_fast_pthread_create
    | apply fails_fast_quiet, leaves_ret
    | apply fails_fast_quiet, leaves_exit
    | apply fails_fast_quiet, leaves_get
    | apply fails_fast_quiet, leaves_lift
    | apply fails_fast_quiet, leaves_calls_assign_loop
    | (apply fails_fast_quiet; intros w; reflexivity)
    | apply fails_fast_bind; [ | intros ? ]
    | match goal with
      | |- context [if ?c then _ else _] => destruct c
      | |- fails_fast (let (_, _) := ?r in _) => destruct r
      end ].

Lemma fails_fast_ep0_request (env : environment) (ev : usb_raw_control_event)
    (io : usb_raw_control_io) :
  fails_fast (ep0_request env ev io).
Proof.
  unfold ep0_request, usb_raw_ep_enable, usb_raw_vbus_draw, usb_raw_configure.
  fails_fast_steps.
Qed.

Lemma fails_fast_ep0_loop_body (env : environment)
    (ev : usb_raw_control_event) :
  fails_fast (ep0_loop_body env ev).
Proof.
  unfold ep0_loop_body, process_eps_info, usb_raw_event_fetch,
    usb_raw_eps_info, usb_raw_ep0_stall, usb_raw_ep0_write, usb_raw_ep0_read.
  apply fails_fast_bind; [ apply fails_fast_ioctl | intros _ ].
  apply fails_fast_bind; [ fails_fast_steps | intros _ ].
  destruct (negb (inner_type ev =? USB_RAW_EVENT_CONTROL));
    [ apply fails_fast_quiet, leaves_ret | ].
  apply fails_fast_bind; [ apply fails_fast_quiet, leaves_get | intros w0 ].
  apply fails_fast_bind; [ apply fails_fast_ep0_request | intros [reply io] ].
  fails_fast_steps.
Qed.

Lemma fails_fast_ep0_loop (env : environment)
    (events : list usb_raw_control_event) :
  fails_fast (ep0_loop env events).
Proof.
  induction events as [| ev rest IH].
  - apply fails_fast_quiet, leaves_ret.
  - cbn [ep0_loop]. apply fails_fast_bind;
      [ apply fails_fast_ep0_loop_body | intros _; exact IH ].
Qed.

Lemma ep0_loop_app (env : environment)
    (l1 l2 : list usb_raw_control_event) (w : world) :
  ep0_loop env (l1 ++ l2) w =
    match ep0_loop env l1 w with
    | (Ret _, w') => ep0_loop env l2 w'
    | (Exit, w') => (Exit, w')
    | (Abort, w') => (Abort, w')
    end.
Proof.
  revert w. induction l1 as [| ev rest IH]; intros w.
  - reflexivity.
  - cbn [app ep0_loop]. unfold mbind.
    destruct (ep0_loop_body env ev w) as [[[] | |] w1];
      [ apply IH | reflexivity | reflexivity ].
Qed.

(** X15.  The loop fails fast.  In any run from the start of the process, every
    ioctl but the last one made returned a value that is not negative: no
    call follows a failed one (the return value of the thread creation
    alone is not looked at).  As long as the loop is running, the last one
    succeeded too; and once the process has exited or aborted, events that
    arrive later change nothing. *)
Theorem ep0_loop_fails_fast (env : environment)
    (events more : list usb_raw_control_event) :
  let r := ep0_loop env events initial_world in
  all_succeeded (removelast (calls (snd r))) /\
  (fst r = Ret tt -> all_succeeded (calls (snd r))) /\
  (fst r <> Ret tt -> ep0_loop env (events ++ more) initial_world = r).
Proof.
  cbv zeta.
  destruct (fails_fast_ep0_loop env events initial_world) as [Hlast Hret];
    [ constructor | ].
  split; [ exact Hlast | ]. split; [ apply Hret | ].
  rewrite ep0_loop_app.
  destruct (ep0_loop env events initial_world) as [[[] | |] w'];
    cbn [fst]; intros Hne; [ contradiction | reflexivity | reflexivity ].
Qed.

(** ** Event loop: what ends the process *)

Lemma fill_string_descriptor_never_exits (id lang : Z)
    (io : usb_raw_control_io) :
  fill_string_descriptor id lang io <> Exit.
Proof.
  unfold fill_string_descriptor.
  destruct ((id =? 0) && (lang =? 0)); cbn [bind]; [ discriminate | ].
  destruct (0 <? id); cbn [assert bind]; [ | discriminate ].
  destruct (lang =? LANG_EN_US); cbn [assert bind]; [ | discriminate ].
  destruct (id =? STRING_ID_MANUFACTURER); [ discriminate | ].
  destruct (id =? STRING_ID_PRODUCT); [ discriminate | ].
  destruct (id =? STRING_ID_SERIAL); discriminate.
Qed.

Lemma last_call_failed_record (w : world) (c : call) (rv : Z) :
  rv < 0 -> is_pthread_create c = false ->
  last_call_failed (calls (record_call w c rv)).
Proof. intros Hrv Hc. exists (calls w), c, rv. repeat split; assumption. Qed.

Lemma ep0_request_exit_cause (env : environment) (ev : usb_raw_control_event)
    (io : usb_raw_control_io) (w : world) :
  fst (ep0_request env ev io w) = Exit ->
  unrecognized (ctrl ev) = true \/
  last_call_failed (calls (snd (ep0_request env ev io w))).
Proof.
  destruct (is_set_configuration (ctrl ev)) eqn:Hsc.
  - rewrite (ep0_request_set_configuration env ev io w Hsc). cbv zeta.
    repeat match goal with
      | |- context [ioctl env ?h ?c <? 0] =>
          destruct (Z.ltb_spec (ioctl env h c) 0)
      end; cbn [fst snd]; intros Hexit; try discriminate Hexit;
      right; apply last_call_failed_record; (assumption || reflexivity).
  - destruct (is_string_request (ctrl ev)) eqn:Hs.
    + unfold is_string_request, is_get_descriptor, request_class,
        descriptor_type in Hs.
      apply andb_prop in Hs. destruct Hs as [Hg Hd].
      apply andb_prop in Hg. destruct Hg as [Hc Hr].
      unfold ep0_request. rewrite Hc, Hr.
      apply Z.eqb_eq in Hd. rewrite Hd.
      change (USB_DT_STRING =? USB_DT_DEVICE) with false.
      change (USB_DT_STRING =? USB_DT_DEVICE_QUALIFIER) with false.
      change (USB_DT_STRING =? USB_DT_CONFIG) with false.
      change (USB_DT_STRING =? USB_DT_STRING) with true.
      cbv iota. unfold lift. cbn [fst]. intros Hexit.
      destruct (fill_string_descriptor_never_exits _ _ _ Hexit).
    + left. revert Hsc Hs H.
      unfold unrecognized, unknown_standard_request, unknown_descriptor_type,
        unknown_class_request, vendor_request, unknown_request_class,
        is_set_configuration, is_string_request, is_get_descriptor,
        request_class, descriptor_type, ep0_request.
      unfold mbind, get, ret, lift, exit, pthread_create. unfold_codes.
      case_tests; cbn [andb orb negb fst bind]; intros Hsc Hs Hexit;
        try discriminate Hsc; try discriminate Hs; try discriminate Hexit;
        try reflexivity; try congruence;
        destruct (pthread_create_result env (calls w)); discriminate Hexit.
Qed.

Lemma ep0_request_abort_cause (env : environment) (ev : usb_raw_control_event)
    (io : usb_raw_control_io) (w : world) :
  0 <= wIndex (ctrl ev) < 65536 ->
  fst (ep0_request env ev io w) = Abort ->
  other_string_pairing (ctrl ev) = true.
Proof.
  intros Hidx.
  destruct (is_string_request (ctrl ev)) eqn:Hs.
  - rewrite (ep0_request_string env ev io w Hs Hidx). cbn [fst].
    unfold other_string_pairing. rewrite Hs.
    assert (Hid := land_255_range (wValue (ctrl ev))).
    fold (string_id (ctrl ev)) in Hid.
    destruct (fill_string_descriptor_outcome
                (string_id (ctrl ev)) (wIndex (ctrl ev)) io ltac:(lia))
      as [(E & _) | [(E & Hn & Ho) | ((io1 & E) & _)]];
      rewrite E; intros Habort; try discriminate Habort.
    unfold LANG_EN_US in *.
    destruct (Z.eqb_spec (string_id (ctrl ev)) 0),
      (Z.eqb_spec (wIndex (ctrl ev)) 0),
      (Z.eqb_spec (wIndex (ctrl ev)) 1033); cbn [andb negb];
      try reflexivity; lia.
  - revert Hs.
    unfold is_string_request, is_get_descriptor, request_class,
      descriptor_type, ep0_request.
    unfold mbind, get, ret, lift, exit, modify, pthread_create,
      usb_raw_ep_enable, usb_raw_vbus_draw, usb_raw_configure, usb_raw_ioctl.
    cbv beta zeta. unfold_codes.
    case_tests; cbn [andb negb fst bind]; intros Hs;
      try discriminate Hs; intros Habort; try discriminate Habort;
      destruct (pthread_create_result env (calls w)); discriminate Habort.
Qed.

Lemma assign_ep_address_returns (info : usb_raw_ep_info) (w : world) :
  program_invariant w ->
  exists r, assign_ep_address info (usb_endpoint w) (addr w) = Ret r.
Proof.
  intros ((_ & Hep & _) & _).
  destruct (Z.eq_dec (usb_endpoint_num (usb_endpoint w)) 0) as [Hun | Has].
  - assert (Hty : bulk_or_int (usb_endpoint w) = true)
      by (rewrite Hep; reflexivity).
    rewrite (assign_ep_address_bulk_or_int info _ _ Hun Hty).
    destruct (supports info (usb_endpoint w)); eexists; reflexivity.
  - rewrite (assign_ep_address_assigned info _ _ Has). eexists. reflexivity.
Qed.

Lemma assign_loop_returns (l : list usb_raw_ep_info) (w : world) :
  program_invariant w -> fst (assign_loop l w) = Ret tt.
Proof.
  revert w. induction l as [| info rest IH]; intros w Hinv.
  - reflexivity.
  - cbn [assign_loop]. unfold mbind, get, lift, modify.
    destruct (assign_ep_address_returns info w Hinv) as [[[ok ep] a] Hcall].
    rewrite Hcall. apply IH.
    exact (assign_step_invariant info w ok ep a Hinv Hcall).
Qed.

Lemma process_eps_info_fatal_cause (env : environment) (w : world) :
  program_invariant w ->
  (fst (process_eps_info env w) = Exit ->
   last_call_failed (calls (snd (process_eps_info env w)))) /\
  (fst (process_eps_info env w) = Abort ->
   usb_endpoint_num (usb_endpoint (snd (process_eps_info env w))) = 0).
Proof.
  intros Hinv.
  assert (E : process_eps_info env w =
    let rv := ioctl env (calls w) EPS_INFO in
    let w1 := record_call w EPS_INFO rv in
    if rv <? 0 then (Exit, w1)
    else
      let w2 := snd (assign_loop
                       (map (fun i => nth i (eps_table env (calls w))
                                          zero_ep_info)
                            (seq 0 (Z.to_nat rv))) w1) in
      (if usb_endpoint_num (usb_endpoint w2) =? 0 then Abort else Ret tt, w2)).
  { unfold process_eps_info.
    unfold mbind at 1, get at 1. unfold mbind at 1.
    unfold usb_raw_eps_info, usb_raw_ioctl. cbv zeta.
    destruct (ioctl env (calls w) EPS_INFO <? 0); [ reflexivity | ].
    unfold mbind at 1.
    assert (Hret := assign_loop_returns
              (map (fun i => nth i (eps_table env (calls w)) zero_ep_info)
                   (seq 0 (Z.to_nat (ioctl env (calls w) EPS_INFO))))
              (record_call w EPS_INFO (ioctl env (calls w) EPS_INFO))).
    destruct (assign_loop _ _) as [r w2]. cbn [fst snd] in *.
    rewrite Hret by (exact (program_invariant_catalog w _ eq_refl Hinv)).
    unfold mbind, get, lift, assert.
    destruct (usb_endpoint_num (usb_endpoint w2) =? 0); reflexivity. }
  rewrite E. cbv zeta.
  destruct (Z.ltb_spec (ioctl env (calls w) EPS_INFO) 0) as [Hneg | Hpos];
    cbn [fst snd].
  - split; [ intros _ | discriminate ].
    apply last_call_failed_record; [ exact Hneg | reflexivity ].
  - destruct (Z.eqb_spec (usb_endpoint_num (usb_endpoint
        (snd (assign_loop
                (map (fun i => nth i (eps_table env (calls w)) zero_ep_info)
                     (seq 0 (Z.to_nat (ioctl env (calls w) EPS_INFO))))
                (record_call w EPS_INFO (ioctl env (calls w) EPS_INFO)))))) 0);
      split; (discriminate || (intros _; assumption)).
Qed.

Lemma ep0_loop_body_fatal_cause (env : environment)
    (ev : usb_raw_control_event) (w : world) :
  wf_ctrlrequest (ctrl ev) ->
  program_invariant w ->
  let r := ep0_loop_body env ev w in
  (fst r = Exit ->
   last_call_failed (calls (snd r)) \/
   (is_control ev = true /\ unrecognized (ctrl ev) = true)) /\
  (fst r = Abort ->
   (inner_type ev = USB_RAW_EVENT_CONNECT /\
    usb_endpoint_num (usb_endpoint (snd r)) = 0) \/
   (is_control ev = true /\ other_string_pairing (ctrl ev) = true)).
Proof.
  intros (_ & _ & _ & Hidx & _) Hinv. cbv zeta. unfold is_control.
  destruct (Z.eqb_spec (inner_type ev) USB_RAW_EVENT_CONTROL) as [Hctl | Hoth].
  - rewrite (ep0_loop_body_control env ev w Hctl). cbv zeta.
    destruct (Z.ltb_spec (ioctl env (calls w) EVENT_FETCH) 0) as [Hneg | Hpos];
      cbn [fst snd].
    { split; [ intros _; left | discriminate ].
      apply last_call_failed_record; [ exact Hneg | reflexivity ]. }
    set (w1 := record_call w EVENT_FETCH _).
    assert (Hexit := ep0_request_exit_cause env ev (fresh_io env w1) w1).
    assert (Habort := ep0_request_abort_cause env ev (fresh_io env w1) w1 Hidx).
    destruct (ep0_request env ev (fresh_io env w1) w1)
      as [[[[] io] | |] w2]; cbn [fst snd] in *.
    + destruct (Z.land (bRequestType (ctrl ev)) USB_DIR_IN =? 0);
        match goal with
        | |- context [ioctl env ?h ?c <? 0] =>
            destruct (Z.ltb_spec (ioctl env h c) 0)
        end; cbn [fst snd];
        (split; [ intros Hx; try discriminate Hx; left | discriminate ]);
        apply last_call_failed_record; (assumption || reflexivity).
    + destruct (Z.ltb_spec (ioctl env (calls w2) EP0_STALL) 0);
        cbn [fst snd];
        (split; [ intros Hx; try discriminate Hx; left | discriminate ]);
        apply last_call_failed_record; (assumption || reflexivity).
    + split; [ intros _ | discriminate ].
      destruct (Hexit eq_refl) as [Hun | Hfail]; [ right | left ]; auto.
    + split; [ discriminate | intros _ ]. right. auto.
  - rewrite (ep0_loop_body_other env ev w Hoth). cbv zeta.
    destruct (Z.ltb_spec (ioctl env (calls w) EVENT_FETCH) 0) as [Hneg | Hpos];
      cbn [fst snd].
    { split; [ intros _; left | discriminate ].
      apply last_call_failed_record; [ exact Hneg | reflexivity ]. }
    destruct (Z.eqb_spec (inner_type ev) USB_RAW_EVENT_CONNECT) as [Hcon | Hnc];
      [ | cbn [fst]; split; discriminate ].
    destruct (process_eps_info_fatal_cause env
                (record_call w EVENT_FETCH (ioctl env (calls w) EVENT_FETCH))
                (program_invariant_catalog w _ eq_refl Hinv))
      as [Hexit Habort].
    split; [ intros Hx; left; exact (Hexit Hx)
           | intros Hx; left; split; [ exact Hcon | exact (Habort Hx) ] ].
Qed.

(** X16.  How the event loop comes to an end.  This is about [ep0_loop]
    alone, in the thread that runs it; the process can also be ended from
    outside the loop (the report generator thread exits when one of its
    writes fails, and [main] exits when a set-up call fails), and that is no
    part of the statement.  When the loop itself, run over well-formed
    events, has stopped, one event was the fatal one: the events before it
    were handled, and the result is that of its iteration.  An exit by the
    loop has one of two causes: an ioctl of the loop returned a negative
    value (it is the last call made), or a control request the dispatcher
    has no case for.  An assertion failed in the loop has one of two
    causes: a connect event after which the endpoint is still unassigned,
    or a string request with an (id, language) pairing that is neither
    answered nor stalled.  The buffer checks of [build_config] and the
    transfer-type check of [assign_ep_address] are not among the causes. *)
Theorem ep0_loop_fatal_causes (env : environment)
    (events : list usb_raw_control_event)
    (Hwf : Forall (fun ev => wf_ctrlrequest (ctrl ev)) events)
    (Hfatal : fst (ep0_loop env events initial_world) <> Ret tt) :
  exists (pre post : list usb_raw_control_event) (ev : usb_raw_control_event),
    events = pre ++ ev :: post /\
    fst (ep0_loop env pre initial_world) = Ret tt /\
    ep0_loop env events initial_world
      = ep0_loop_body env ev (snd (ep0_loop env pre initial_world)) /\
    (fst (ep0_loop env events initial_world) = Exit ->
     last_call_failed (calls (snd (ep0_loop env events initial_world))) \/
     (is_control ev = true /\ unrecognized (ctrl ev) = true)) /\
    (fst (ep0_loop env events initial_world) = Abort ->
     (inner_type ev = USB_RAW_EVENT_CONNECT /\
      usb_endpoint_num
        (usb_endpoint (snd (ep0_loop env events initial_world))) = 0) \/
     (is_control ev = true /\ other_string_pairing (ctrl ev) = true)).
Proof.
  assert (Hinit : program_invariant initial_world).
  { split; [ | left; reflexivity ].
    split; [ reflexivity | split; [ reflexivity | split ] ];
      [ change (0 <= 128 < 256); lia | reflexivity ]. }
  revert Hinit Hfatal. generalize initial_world as w.
  induction Hwf as [| ev rest Hev Hrest IH]; intros w Hinv Hfatal.
  - cbn in Hfatal. contradiction.
  - cbn [ep0_loop] in Hfatal |- *. unfold mbind in Hfatal |- *.
    assert (Hbody := ep0_loop_body_fatal_cause env ev w Hev Hinv).
    assert (Hnext := ep0_loop_body_invariant env ev w Hinv).
    cbv zeta in Hbody.
    destruct (ep0_loop_body env ev w) as [[[] | |] w1] eqn:Ebody;
      cbn [fst snd] in *.
    + destruct (IH w1 Hnext Hfatal)
        as (pre & post & ev' & Hsplit & Hpre & Hres & Hcauses).
      exists (ev :: pre), post, ev'. rewrite Hsplit.
      cbn [app ep0_loop]. unfold mbind. rewrite Ebody.
      rewrite <- Hsplit.
      split; [ reflexivity | ]. split; [ exact Hpre | ].
      split; [ exact Hres | exact Hcauses ].
    + exists [], rest, ev. cbn [app ep0_loop ret fst snd]. rewrite Ebody.
      split; [ reflexivity | ]. split; [ reflexivity | ].
      split; [ reflexivity | exact Hbody ].
    + exists [], rest, ev. cbn [app ep0_loop ret fst snd]. rewrite Ebody.
      split; [ reflexivity | ]. split; [ reflexivity | ].
      split; [ reflexivity | exact Hbody ].
Qed.

Lemma ep0_loop_fatal_causes_witness :
  exists (pre post : list usb_raw_control_event) (ev : usb_raw_control_event),
    fatal_events = pre ++ ev :: post /\
    fst (ep0_loop one_endpoint_env pre initial_world) = Ret tt /\
    ep0_loop one_endpoint_env fatal_events initial_world
      = ep0_loop_body one_endpoint_env ev
          (snd (ep0_loop one_endpoint_env pre initial_world)) /\
    (fst (ep0_loop one_endpoint_env fatal_events initial_world) = Exit ->
     last_call_failed
       (calls (snd (ep0_loop one_endpoint_env fatal_events initial_world))) \/
     (is_control ev = true /\ unrecognized (ctrl ev) = true)) /\
    (fst (ep0_loop one_endpoint_env fatal_events initial_world) = Abort ->
     (inner_type ev = USB_RAW_EVENT_CONNECT /\
      usb_endpoint_num
        (usb_endpoint
           (snd (ep0_loop one_endpoint_env fatal_events initial_world))) = 0) \/
     (is_control ev = true /\ other_string_pairing (ctrl ev) = true)).
Proof.
  apply (ep0_loop_fatal_causes one_endpoint_env fatal_events).
  - repeat constructor; unfold wf_ctrlrequest; cbn;
      unfold USB_REQ_GET_DESCRIPTOR; lia.
  - vm_compute. discriminate.
Defined.

(** ** The endpoint handle *)

Lemma enabled_handle_app (h l : history) (handle : Z) :
  enabled_handle (h ++ l) handle = enabled_handle l (enabled_handle h handle).
Proof.
  revert handle. induction h as [| [c rv] rest IH]; intros handle.
  - reflexivity.
  - cbn [app enabled_handle]. destruct c; apply IH.
Qed.

Lemma enabled_handle_others (l : history) (handle : Z) :
  Forall (fun e => not_ep_enable (fst e) = true) l ->
  enabled_handle l handle = handle.
Proof.
  intros Hall. induction Hall as [| [c rv] rest Hc _ IH]; [ reflexivity | ].
  cbn [enabled_handle]. destruct c; try exact IH. discriminate Hc.
Qed.

Lemma handle_recorded_quiet {A : Type} (m : M A) :
  leaves ep_int_in m -> appends not_ep_enable m -> preserves handle_recorded m.
Proof.
  intros Hl Ha w Hw. unfold handle_recorded in *.
  destruct (Ha w) as (l & El & Fl).
  rewrite (Hl w), El, enabled_handle_app, (enabled_handle_others l _ Fl).
  exact Hw.
Qed.

Lemma handle_recorded_ioctl (env : environment) (c : call) :
  is_ep_enable c = false ->
  preserves handle_recorded (usb_raw_ioctl env c).
Proof.
  intros Hc. apply handle_recorded_quiet.
  - apply leaves_ioctl. intros w c' rv. reflexivity.
  - apply appends_ioctl. unfold not_ep_enable. rewrite Hc. reflexivity.
Qed.

Lemma leaves_ep_int_in_assign_loop (l : list usb_raw_ep_info) :
  leaves ep_int_in (assign_loop l).
Proof.
  induction l as [| info rest IH].
  - apply leaves_ret.
  - cbn [assign_loop].
    apply leaves_bind; [ apply leaves_get | intros w0 ].
    apply leaves_bind; [ apply leaves_lift | intros [[ok ep] a] ].
    apply leaves_bind; [ intros w; reflexivity | intros _; exact IH ].
Qed.

Lemma handle_recorded_process_eps_info (env : environment) :
  preserves handle_recorded (process_eps_info env).
Proof.
  apply handle_recorded_quiet.
  - unfold process_eps_info.
    apply leaves_bind; [ apply leaves_get | intros w0 ].
    apply leaves_bind;
      [ apply leaves_ioctl; intros w c rv; reflexivity | intros num ].
    apply leaves_bind; [ apply leaves_ep_int_in_assign_loop | intros _ ].
    apply leaves_bind; [ apply leaves_get | intros w1 ].
    apply leaves_lift.
  - apply (appends_weaken is_eps_info);
      [ intros []; (discriminate || reflexivity)
      | apply appends_process_eps_info ].
Qed.

Lemma handle_recorded_ep0_request (env : environment)
    (ev : usb_raw_control_event) (io : usb_raw_control_io) :
  preserves handle_recorded (ep0_request env ev io).
Proof.
  intros w Hw. unfold handle_recorded in *.
  destruct (is_set_configuration (ctrl ev)) eqn:Hsc.
  - rewrite (ep0_request_set_configuration env ev io w Hsc). cbv zeta.
    destruct (Z.ltb_spec (ioctl env (calls w) (EP_ENABLE (usb_endpoint w))) 0)
      as [Hneg | Hpos]; cbn [snd].
    + cbn [ep_int_in calls record_call]. rewrite enabled_handle_app.
      cbn [enabled_handle]. apply Z.ltb_lt in Hneg. rewrite Hneg. exact Hw.
    + repeat match goal with
        | |- context [ioctl env ?h ?c <? 0] =>
            match c with
            | VBUS_DRAW _ => destruct (ioctl env h c <? 0)
            | CONFIGURE => destruct (ioctl env h c <? 0)
            end
        end; cbn [snd ep_int_in calls record_call set_ep_int_in];
        rewrite !enabled_handle_app; cbn [enabled_handle];
        apply Z.ltb_ge in Hpos; rewrite Hpos; reflexivity.
  - destruct (is_set_idle (ctrl ev)) eqn:Hsi.
    + rewrite (ep0_request_set_idle env ev io w Hsi).
      destruct (ep_int_in_thread w =? 0); cbn [snd]; [ | exact Hw ].
      cbn [ep_int_in calls record_call set_ep_int_in_thread].
      rewrite enabled_handle_app. cbn [enabled_handle]. exact Hw.
    + rewrite (ep0_request_pure env ev io w Hsc Hsi). exact Hw.
Qed.

Lemma handle_recorded_ep0_loop_body (env : environment)
    (ev : usb_raw_control_event) :
  preserves handle_recorded (ep0_loop_body env ev).
Proof.
  unfold ep0_loop_body.
  apply preserves_bind;
    [ apply handle_recorded_ioctl; reflexivity | intros _ ].
  apply preserves_bind.
  { destruct (inner_type ev =? USB_RAW_EVENT_CONNECT);
      [ apply handle_recorded_process_eps_info | intros w Hw; exact Hw ]. }
  intros _.
  destruct (negb (inner_type ev =? USB_RAW_EVENT_CONTROL));
    [ intros w Hw; exact Hw | ].
  apply preserves_bind; [ intros w Hw; exact Hw | intros w0 ].
  apply preserves_bind;
    [ apply handle_recorded_ep0_request | intros [reply io] ].
  destruct (negb reply).
  - apply preserves_bind;
      [ apply handle_recorded_ioctl; reflexivity
      | intros _ w Hw; exact Hw ].
  - destruct (negb (Z.land (bRequestType (ctrl ev)) USB_DIR_IN =? 0));
      (apply preserves_bind;
       [ apply handle_recorded_ioctl; reflexivity
       | intros _ w Hw; exact Hw ]).
Qed.

Lemma enabled_handle_lower (h : history) (handle : Z) :
  -1 <= handle -> -1 <= enabled_handle h handle.
Proof.
  revert handle. induction h as [| [c rv] rest IH]; intros handle Hh.
  - exact Hh.
  - cbn [enabled_handle]. destruct c; try (apply IH; exact Hh).
    apply IH. destruct (Z.ltb_spec rv 0); lia.
Qed.

(** X17.  The handle the report generator will write to.  At every point
    of a run, [ep_int_in] holds the value returned by the latest
    endpoint-enable call that succeeded, and -1 as long as there is none:
    a refused enable, or a failure after the enable, leaves no stale or
    half-set handle behind. *)
Theorem ep_int_in_is_latest_enable (env : environment)
    (events : list usb_raw_control_event) :
  let w := snd (ep0_loop env events initial_world) in
  ep_int_in w = enabled_handle (calls w) (-1) /\
  -1 <= ep_int_in w /\
  (enables (calls w) = [] -> ep_int_in w = -1).
Proof.
  cbv zeta.
  assert (Hrec : handle_recorded (snd (ep0_loop env events initial_world))).
  { assert (Hinit : handle_recorded initial_world) by reflexivity.
    revert Hinit. generalize initial_world as w.
    induction events as [| ev rest IH]; intros w Hw; [ exact Hw | ].
    cbn [ep0_loop]. unfold mbind.
    assert (Hbody := handle_recorded_ep0_loop_body env ev w Hw).
    destruct (ep0_loop_body env ev w) as [[[] | |] w1]; cbn [snd] in *;
      [ apply IH, Hbody | exact Hbody | exact Hbody ]. }
  unfold handle_recorded in Hrec.
  change (ep_int_in initial_world) with (-1) in Hrec.
  split; [ exact Hrec | ]. split.
  - rewrite Hrec. apply enabled_handle_lower. lia.
  - intros Hnone. rewrite Hrec. apply enabled_handle_others.
    unfold enables in Hnone.
    generalize dependent (calls (snd (ep0_loop env events initial_world))).
    intros h _. induction h as [| [c rv] rest IH]; intros Hnone;
      [ constructor | ].
    cbn [map filter fst] in Hnone.
    destruct (is_ep_enable c) eqn:Hc; [ discriminate Hnone | ].
    constructor; [ unfold not_ep_enable; cbn [fst]; rewrite Hc; reflexivity
                 | apply IH, Hnone ].
Qed.
(** ** The answer to an unsupported request *)




